(** * Foogood: shopping-list aggregation, recipe pipeline and category store

    A shallow embedding of the data-processing services of the Foogood
    application (services/shoppingListService.js, services/aiRecipeService.js,
    config/aiConfig.js, services/categoryStorage.js, context/AppContext and
    the two category screens), followed by the properties established
    about them.

    Conventions of the embedding.
    - A JavaScript string is a [string] (a sequence of bytes); [toLowerCase],
      [trim] and the regular-expression class [\s] act on the ASCII range.
    - A value that may be [undefined] is an [option]; [None] is [undefined].
    - A function that may throw returns a [result]; [Err] carries the message
      of the thrown error.
    - [Date.now()], [new Date().toISOString()] and [Math.random()] are read
      from an explicit [Clock] argument.
    - The asynchronous key-value store is a value threaded through the
      operations; its reads and writes are assumed to succeed.
    - A plain object used as a map is the list of its own properties in the
      order of their creation, together with the names it inherits from
      [Object.prototype]; [Object.values] lists array indices first. *)

From Stdlib Require Import ZArith QArith Ascii String List Permutation Sorted Lia.
From stdpp Require Import base option list strings pretty.

Set Warnings "-register-all".

Local Open Scope string_scope.
Local Open Scope Z_scope.

(** ** Exceptions as values *)

Inductive result (A : Type) : Type :=
| Ok (a : A)
| Err (msg : string).
Arguments Ok {A} a.
Arguments Err {A} msg.

Definition bindR {A B : Type} (r : result A) (k : A -> result B) : result B :=
  match r with
  | Ok a => k a
  | Err m => Err m
  end.

Notation "x <-! r ;; k" := (bindR r (fun x => k))
  (at level 100, r at next level, right associativity).

(** [Array.prototype.map], [some] and [filter] with a callback that may
    throw: evaluation is left to right and stops at the first exception;
    [some] also stops at the first [true]. *)
Fixpoint mapR {A B : Type} (f : A -> result B) (l : list A) : result (list B) :=
  match l with
  | [] => Ok []
  | x :: r => y <-! f x ;; ys <-! mapR f r ;; Ok (y :: ys)
  end.

Fixpoint someR {A : Type} (f : A -> result bool) (l : list A) : result bool :=
  match l with
  | [] => Ok false
  | x :: r => b <-! f x ;; if b : bool then Ok true else someR f r
  end.

Fixpoint filterR {A : Type} (f : A -> result bool) (l : list A) : result (list A) :=
  match l with
  | [] => Ok []
  | x :: r => b <-! f x ;; ys <-! filterR f r ;; Ok (if b : bool then x :: ys else ys)
  end.

(** ** JavaScript strings *)

Module JsString.

Definition char (n : nat) : string := String (ascii_of_nat n) EmptyString.

(** The double quote and the backslash. *)
Definition dquote : string := char 34.
Definition backslash : string := char 92.

Definition isUpper (c : ascii) : bool :=
  let n := nat_of_ascii c in (65 <=? n)%nat && (n <=? 90)%nat.

Definition lowerChar (c : ascii) : ascii :=
  if isUpper c then ascii_of_nat (nat_of_ascii c + 32) else c.

Fixpoint toLowerCase (s : string) : string :=
  match s with
  | EmptyString => EmptyString
  | String c r => String (lowerChar c) (toLowerCase r)
  end.

(** White space of [String.prototype.trim] and of [\s], ASCII range:
    TAB, LF, VT, FF, CR and SPACE. *)
Definition isSpace (c : ascii) : bool :=
  let n := nat_of_ascii c in
  ((9 <=? n)%nat && (n <=? 13)%nat) || (n =? 32)%nat.

Fixpoint trimStart (s : string) : string :=
  match s with
  | EmptyString => EmptyString
  | String c r => if isSpace c then trimStart r else s
  end.

Fixpoint trimEnd (s : string) : string :=
  match s with
  | EmptyString => EmptyString
  | String c r =>
      match trimEnd r with
      | EmptyString => if isSpace c then EmptyString else String c EmptyString
      | r' => String c r'
      end
  end.

Definition trim (s : string) : string := trimEnd (trimStart s).

Definition eqb (a b : string) : bool := String.eqb a b.

(** [hay.includes(needle)] *)
Fixpoint includes (hay needle : string) : bool :=
  String.prefix needle hay ||
  match hay with
  | EmptyString => false
  | String _ r => includes r needle
  end.

(** [s.indexOf(c)] and [s.lastIndexOf(c)] for a one-character pattern;
    [-1] when the character does not occur. *)
Fixpoint indexOfFrom (c : ascii) (s : string) (i : Z) : Z :=
  match s with
  | EmptyString => -1
  | String d r => if Ascii.eqb c d then i else indexOfFrom c r (i + 1)
  end.
Definition indexOf (c : ascii) (s : string) : Z := indexOfFrom c s 0.

Fixpoint lastIndexOfFrom (c : ascii) (s : string) (i : Z) (found : Z) : Z :=
  match s with
  | EmptyString => found
  | String d r => lastIndexOfFrom c r (i + 1) (if Ascii.eqb c d then i else found)
  end.
Definition lastIndexOf (c : ascii) (s : string) : Z := lastIndexOfFrom c s 0 (-1).

(** [s.substring(a, b)] for [0 <= a <= b]. *)
Definition substring (a b : Z) (s : string) : string :=
  String.substring (Z.to_nat a) (Z.to_nat (b - a)) s.

(** [s.replace(/PAT\s*/g, '')] for a literal, non-empty [PAT]: scanning
    from the left, every occurrence of [PAT] is removed together with the
    white space that follows it. *)
Fixpoint dropN (n : nat) (s : string) : string :=
  match n, s with
  | O, _ => s
  | S k, String _ r => dropN k r
  | S _, EmptyString => EmptyString
  end.

Fixpoint removeWithSpace (fuel : nat) (pat : string) (s : string) : string :=
  match fuel with
  | O => s
  | S f =>
      match s with
      | EmptyString => EmptyString
      | String c r =>
          if String.prefix pat s
          then removeWithSpace f pat (trimStart (dropN (String.length pat) s))
          else String c (removeWithSpace f pat r)
      end
  end.

Definition replaceAllWithSpace (pat s : string) : string :=
  removeWithSpace (String.length s) pat s.

End JsString.

(** ** JSON values and [JSON.parse] *)

Module Json.
Import JsString.

(** A number keeps its lexeme: the services only test numbers for
    truthiness and print them. *)
Inductive json : Type :=
| JNull
| JBool (b : bool)
| JNum (lexeme : string)
| JStr (s : string)
| JArr (items : list json)
| JObj (fields : list (string * json)).

(** A JavaScript value read from a property: [None] is [undefined]. *)
Abbreviation jsval := (option json).

Definition isDigit (c : ascii) : bool :=
  let n := nat_of_ascii c in (48 <=? n)%nat && (n <=? 57)%nat.

(** A number is zero when its mantissa has no non-zero digit. *)
Fixpoint mantissaIsZero (s : string) : bool :=
  match s with
  | EmptyString => true
  | String c r =>
      if Ascii.eqb c "e" || Ascii.eqb c "E" then true
      else if isDigit c && negb (Ascii.eqb c "0") then false
      else mantissaIsZero r
  end.

(** ToBoolean *)
Definition truthy (v : jsval) : bool :=
  match v with
  | None => false
  | Some JNull => false
  | Some (JBool b) => b
  | Some (JNum lex) => negb (mantissaIsZero lex)
  | Some (JStr s) => negb (JsString.eqb s "")
  | Some (JArr _) => true
  | Some (JObj _) => true
  end.

(** [a || b] *)
Definition jsOr (a b : jsval) : jsval := if truthy a then a else b.

Definition typeError : string := "TypeError".

(** The value of the last field named [key]: [JSON.parse] keeps the last
    of duplicated keys. *)
Fixpoint lookupField (key : string) (fields : list (string * json)) : jsval :=
  match fields with
  | [] => None
  | (k, v) :: r =>
      match lookupField key r with
      | Some w => Some w
      | None => if JsString.eqb k key then Some v else None
      end
  end.

(** [v.key] for the keys the services read (none of them is a property of
    an array, a string, a number or a boolean): reading a property of
    [null] or [undefined] throws. *)
Definition getProp (v : jsval) (key : string) : result jsval :=
  match v with
  | None => Err typeError
  | Some JNull => Err typeError
  | Some (JObj fields) => Ok (lookupField key fields)
  | Some _ => Ok None
  end.

(** [v[0]] *)
Definition getFirst (v : jsval) : result jsval :=
  match v with
  | None => Err typeError
  | Some JNull => Err typeError
  | Some (JArr items) => Ok (head items)
  | Some (JStr s) =>
      Ok (match s with EmptyString => None | String c _ => Some (JStr (String c EmptyString)) end)
  | Some (JObj fields) => Ok (lookupField "0" fields)
  | Some _ => Ok None
  end.

(** [Array.isArray(v) ? v : []] is read through [asArray]. *)
Definition asArray (v : jsval) : option (list json) :=
  match v with
  | Some (JArr items) => Some items
  | _ => None
  end.

(** ToString, as a template literal applies it. A number is printed as
    its lexeme. *)
Fixpoint toStr (v : json) : string :=
  match v with
  | JNull => "null"
  | JBool true => "true"
  | JBool false => "false"
  | JNum lex => lex
  | JStr s => s
  | JArr items =>
      (fix join (l : list json) : string :=
         match l with
         | [] => ""
         | [x] => match x with JNull => "" | _ => toStr x end
         | x :: r => (match x with JNull => "" | _ => toStr x end) +:+ "," +:+ join r
         end) items
  | JObj _ => "[object Object]"
  end.

Definition jsToString (v : jsval) : string :=
  match v with
  | None => "undefined"
  | Some j => toStr j
  end.

(** [a === b] between two values that were built separately: arrays and
    objects are then different references. Numbers are compared by
    lexeme. *)
Definition strictEq (a b : jsval) : bool :=
  match a, b with
  | None, None => true
  | Some JNull, Some JNull => true
  | Some (JBool x), Some (JBool y) => Bool.eqb x y
  | Some (JNum x), Some (JNum y) => JsString.eqb x y
  | Some (JStr x), Some (JStr y) => JsString.eqb x y
  | _, _ => false
  end.

(** *** The parser *)

Definition isJsonSpace (c : ascii) : bool :=
  let n := nat_of_ascii c in
  (n =? 32)%nat || (n =? 9)%nat || (n =? 10)%nat || (n =? 13)%nat.

Fixpoint skipWs (s : string) : string :=
  match s with
  | EmptyString => EmptyString
  | String c r => if isJsonSpace c then skipWs r else s
  end.

Fixpoint spanDigits (s : string) : string * string :=
  match s with
  | EmptyString => (EmptyString, EmptyString)
  | String c r =>
      if isDigit c then let '(d, t) := spanDigits r in (String c d, t)
      else (EmptyString, s)
  end.

Definition hexValue (c : ascii) : option N :=
  let n := N_of_ascii c in
  if (48 <=? n)%N && (n <=? 57)%N then Some (n - 48)%N
  else if (65 <=? n)%N && (n <=? 70)%N then Some (n - 55)%N
  else if (97 <=? n)%N && (n <=? 102)%N then Some (n - 87)%N
  else None.

(** UTF-8 encoding of one code unit of the basic plane. *)
Definition utf8 (code : N) : string :=
  let byte (n : N) := String (ascii_of_N n) EmptyString in
  if (code <? 128)%N then byte code
  else if (code <? 2048)%N then
    byte (192 + code / 64)%N +:+ byte (128 + code mod 64)%N
  else
    byte (224 + code / 4096)%N +:+ byte (128 + (code / 64) mod 64)%N
      +:+ byte (128 + code mod 64)%N.

Inductive strState : Type :=
| SNormal
| SEscape
| SUnicode (remaining : nat) (code : N).

(** The body of a string literal, after its opening quote. *)
Fixpoint parseStringBody (st : strState) (s : string) : option (string * string) :=
  match s with
  | EmptyString => None
  | String c r =>
      let emit (out : string) :=
        match parseStringBody SNormal r with
        | Some (body, rest) => Some (out +:+ body, rest)
        | None => None
        end in
      match st with
      | SNormal =>
          if Ascii.eqb c (ascii_of_nat 34) then Some (EmptyString, r)
          else if Ascii.eqb c (ascii_of_nat 92) then parseStringBody SEscape r
          else if (nat_of_ascii c <? 32)%nat then None
          else emit (String c EmptyString)
      | SEscape =>
          if Ascii.eqb c (ascii_of_nat 34) then emit dquote
          else if Ascii.eqb c (ascii_of_nat 92) then emit backslash
          else if Ascii.eqb c "/" then emit "/"
          else if Ascii.eqb c "b" then emit (char 8)
          else if Ascii.eqb c "f" then emit (char 12)
          else if Ascii.eqb c "n" then emit (char 10)
          else if Ascii.eqb c "r" then emit (char 13)
          else if Ascii.eqb c "t" then emit (char 9)
          else if Ascii.eqb c "u" then parseStringBody (SUnicode 4 0%N) r
          else None
      | SUnicode k code =>
          match hexValue c with
          | None => None
          | Some h =>
              let code' := (code * 16 + h)%N in
              match k with
              | 1%nat => emit (utf8 code')
              | _ => parseStringBody (SUnicode (pred k) code') r
              end
          end
      end
  end.

(** A number literal: an optional minus sign, an integer part without
    leading zero, an optional fraction and an optional exponent. *)
Definition parseNumber (s : string) : option (string * string) :=
  let '(sign, s1) :=
    match s with
    | String "-"%char r => ("-", r)
    | _ => (EmptyString, s)
    end in
  let intPart :=
    match s1 with
    | String "0"%char r => Some ("0", r)
    | _ => match spanDigits s1 with
           | (EmptyString, _) => None
           | (d, t) => Some (d, t)
           end
    end in
  match intPart with
  | None => None
  | Some (int, s2) =>
      let fracPart :=
        match s2 with
        | String "."%char r =>
            match spanDigits r with
            | (EmptyString, _) => None
            | (d, t) => Some ("." +:+ d, t)
            end
        | _ => Some (EmptyString, s2)
        end in
      match fracPart with
      | None => None
      | Some (frac, s3) =>
          let expOf (e : string) (r : string) :=
            let '(esign, r1) :=
              match r with
              | String "+"%char t => ("+", t)
              | String "-"%char t => ("-", t)
              | _ => (EmptyString, r)
              end in
            match spanDigits r1 with
            | (EmptyString, _) => None
            | (d, t) => Some (e +:+ esign +:+ d, t)
            end in
          let expPart :=
            match s3 with
            | String "e"%char r => expOf "e" r
            | String "E"%char r => expOf "E" r
            | _ => Some (EmptyString, s3)
            end in
          match expPart with
          | None => None
          | Some (ex, s4) => Some (sign +:+ int +:+ frac +:+ ex, s4)
          end
      end
  end.

Section Composite.
Variable parseValue : string -> option (json * string).

(** The elements of an array after the first, up to the closing
    bracket. *)
Fixpoint parseElements (fuel : nat) (s : string) : option (list json * string) :=
  match fuel with
  | O => None
  | S f =>
      match parseValue s with
      | None => None
      | Some (v, r) =>
          match skipWs r with
          | String ","%char r' =>
              match parseElements f r' with
              | Some (vs, rest) => Some (v :: vs, rest)
              | None => None
              end
          | String "]"%char r' => Some ([v], r')
          | _ => None
          end
      end
  end.

Fixpoint parseMembers (fuel : nat) (s : string) : option (list (string * json) * string) :=
  match fuel with
  | O => None
  | S f =>
      match skipWs s with
      | String c r =>
          if Ascii.eqb c (ascii_of_nat 34) then
            match parseStringBody SNormal r with
            | None => None
            | Some (key, r1) =>
                match skipWs r1 with
                | String ":"%char r2 =>
                    match parseValue r2 with
                    | None => None
                    | Some (v, r3) =>
                        match skipWs r3 with
                        | String ","%char r4 =>
                            match parseMembers f r4 with
                            | Some (ms, rest) => Some ((key, v) :: ms, rest)
                            | None => None
                            end
                        | String "}"%char r4 => Some ([(key, v)], r4)
                        | _ => None
                        end
                    end
                | _ => None
                end
            end
          else None
      | EmptyString => None
      end
  end.
End Composite.

Fixpoint parseValue (fuel : nat) (s : string) : option (json * string) :=
  match fuel with
  | O => None
  | S f =>
      match skipWs s with
      | EmptyString => None
      | String c r as t =>
          if Ascii.eqb c "[" then
            match skipWs r with
            | String "]"%char r' => Some (JArr [], r')
            | _ =>
                match parseElements (parseValue f) f r with
                | Some (vs, rest) => Some (JArr vs, rest)
                | None => None
                end
            end
          else if Ascii.eqb c "{" then
            match skipWs r with
            | String "}"%char r' => Some (JObj [], r')
            | _ =>
                match parseMembers (parseValue f) f r with
                | Some (ms, rest) => Some (JObj ms, rest)
                | None => None
                end
            end
          else if Ascii.eqb c (ascii_of_nat 34) then
            match parseStringBody SNormal r with
            | Some (str, rest) => Some (JStr str, rest)
            | None => None
            end
          else if String.prefix "true" t then Some (JBool true, dropN 4 t)
          else if String.prefix "false" t then Some (JBool false, dropN 5 t)
          else if String.prefix "null" t then Some (JNull, dropN 4 t)
          else
            match parseNumber t with
            | Some (lex, rest) => Some (JNum lex, rest)
            | None => None
            end
      end
  end.

Definition syntaxError : string := "SyntaxError".

(** [JSON.parse(text)] *)
Definition parse (text : string) : result json :=
  match parseValue (S (String.length text)) text with
  | Some (v, rest) =>
      match skipWs rest with
      | EmptyString => Ok v
      | _ => Err syntaxError
      end
  | None => Err syntaxError
  end.

End Json.

Import JsString Json.

(** ** [Array.prototype.sort]

    The sort is stable, and a comparator result that is NaN counts as 0.
    It is modelled by the stable insertion sort: for a consistent
    comparator every stable sort returns the same list. *)

Definition nanToZero (v : option Z) : Z := default 0 v.

Fixpoint insertSorted {A : Type} (cmp : A -> A -> option Z) (x : A) (l : list A) : list A :=
  match l with
  | [] => [x]
  | y :: r => if nanToZero (cmp x y) <=? 0 then x :: l else y :: insertSorted cmp x r
  end.

Definition sortBy {A : Type} (cmp : A -> A -> option Z) (l : list A) : list A :=
  fold_right (insertSorted cmp) [] l.

(** The order a comparator induces, and the same order among the values
    that satisfy [P]. *)
Definition cmpLe {A : Type} (cmp : A -> A -> option Z) (a b : A) : Prop :=
  nanToZero (cmp a b) <= 0.

Definition cmpLeOn {A : Type} (P : A -> Prop) (cmp : A -> A -> option Z) (a b : A) : Prop :=
  P a /\ P b /\ cmpLe cmp a b.

(** ** services/shoppingListService.js *)

Module ShoppingListService.

Inductive Priority : Type := high | medium | low.
Inductive Source : Type := source_manual | source_recipe.

(** What [Date.now()], [new Date().toISOString()] and
    [Math.random().toString(36).substr(2, 9)] yield at one moment. *)
Record Clock : Type := mkClock {
  dateNow : string;
  isoNow : string;
  random36 : string
}.

(** A stored entry. A priority is one of the three names or is absent;
    [priority], [amount] and [essential] can be [undefined] in a stored
    entry, see [addToShoppingList] and [addRecipeToShoppingList]. *)
Record ShoppingListItem : Type := mkItem {
  id : string;
  name : string;
  amount : jsval;
  category : string;
  categoryIcon : string;
  isChecked : bool;
  priority : option Priority;
  addedDate : string;
  source : Source;
  recipeId : jsval;
  recipeName : jsval;
  essential : jsval
}.

(** The descriptor handed to [addToShoppingList]: every field but the
    name is optional. *)
Record ItemInput : Type := mkInput {
  in_name : string;
  in_amount : jsval;
  in_category : option string;
  in_categoryIcon : option string;
  in_priority : option Priority;
  in_source : option Source;
  in_recipeId : jsval;
  in_recipeName : jsval;
  in_essential : jsval
}.

(** The content of the storage key [@foogood_shopping_list]. *)
Abbreviation Store := (list ShoppingListItem).

(** [s || d] for an optional string *)
Definition strOr (s : option string) (d : string) : string :=
  match s with
  | Some v => if JsString.eqb v "" then d else v
  | None => d
  end.

(** [name.toLowerCase().trim()] *)
Definition nameKey (n : string) : string := trim (toLowerCase n).

(** [list.findIndex(pred)], [None] for [-1] *)
Fixpoint findIndex {A : Type} (pred : A -> bool) (l : list A) : option nat :=
  match l with
  | [] => None
  | x :: r => if pred x then Some O else option_map S (findIndex pred r)
  end.

Definition sameName (n : string) (existing : ShoppingListItem) : bool :=
  JsString.eqb (nameKey (name existing)) (nameKey n).

(** [combineAmounts] *)
Definition combineAmounts (amount1 amount2 : jsval) : jsval :=
  if strictEq amount1 amount2 then amount1
  else Some (JStr (jsToString amount1 +:+ " + " +:+ jsToString amount2)).

(** [priorityOrder[p]]: [undefined] when [p] is. *)
Definition priorityOrder (p : option Priority) : option Z :=
  match p with
  | Some high => Some 3
  | Some medium => Some 2
  | Some low => Some 1
  | None => None
  end.

(** [a >= b] on numbers that may be [undefined]: a comparison with
    [undefined] (NaN) is false. *)
Definition numGe (a b : option Z) : bool :=
  match a, b with
  | Some x, Some y => y <=? x
  | _, _ => false
  end.

(** [getHigherPriority] *)
Definition getHigherPriority (priority1 priority2 : option Priority) : option Priority :=
  if numGe (priorityOrder priority1) (priorityOrder priority2) then priority1 else priority2.

(** An entry with a priority, and the rank of its priority. *)
Definition hasPriority (item : ShoppingListItem) : Prop := priority item <> None.

Definition rank (item : ShoppingListItem) : Z := default 0 (priorityOrder (priority item)).

Definition newId (clk : Clock) : string :=
  "shopping-" +:+ dateNow clk +:+ "-" +:+ random36 clk.

(** The merge branch, shared by both add functions. *)
Definition mergeInto (clk : Clock) (existing : ShoppingListItem)
    (amount' : jsval) (priority' : option Priority) (essential' : jsval) : ShoppingListItem :=
  {| id := id existing;
     name := name existing;
     amount := combineAmounts (amount existing) amount';
     category := category existing;
     categoryIcon := categoryIcon existing;
     isChecked := false;
     priority := getHigherPriority (priority existing) priority';
     addedDate := isoNow clk;
     source := source existing;
     recipeId := recipeId existing;
     recipeName := recipeName existing;
     essential := jsOr (essential existing) essential' |}.

(** [addToShoppingList(item)]: the new content of the store, which is
    also the list returned. *)
Definition addToShoppingList (clk : Clock) (item : ItemInput) (store : Store) : Store :=
  let currentList := store in
  match findIndex (sameName (in_name item)) currentList with
  | Some existingIndex =>
      match currentList !! existingIndex with
      | Some existing =>
          <[existingIndex :=
              mergeInto clk existing (in_amount item) (in_priority item) (in_essential item)]>
            currentList
      | None => currentList
      end
  | None =>
      let newItem :=
        {| id := newId clk;
           name := trim (in_name item);
           amount := jsOr (in_amount item) (Some (JStr "1 stk"));
           category := strOr (in_category item) "Andre";
           categoryIcon := strOr (in_categoryIcon item) "🛒";
           isChecked := false;
           priority := Some (default medium (in_priority item));
           addedDate := isoNow clk;
           source := default source_manual (in_source item);
           recipeId := in_recipeId item;
           recipeName := in_recipeName item;
           essential := jsOr (in_essential item) (Some (JBool false)) |} in
      (currentList ++ [newItem])%list
  end.

(** A run of [addToShoppingList] calls, each at its own moment. *)
Definition addAll (adds : list (Clock * ItemInput)) (store : Store) : Store :=
  fold_left (fun st a => addToShoppingList (fst a) (snd a) st) adds store.

(** [categorizeIngredient(name)]: [name.toLowerCase()] throws unless
    [name] is a string. *)
Definition anyIncluded (words : list string) (lowerName : string) : bool :=
  existsb (fun word => includes lowerName word) words.

Definition categorizeIngredient (name : jsval) : result (string * string) :=
  match name with
  | Some (JStr n) =>
      let lowerName := toLowerCase n in
      if anyIncluded ["mælk"; "fløde"; "yoghurt"; "ost"; "smør"; "kærnemælk"] lowerName
      then Ok ("Mejeriprodukter", "🥛")
      else if anyIncluded ["kød"; "kylling"; "oksekød"; "svinekød"; "fisk"; "laks"; "tuna"; "hakket"] lowerName
      then Ok ("Kød & Fisk", "🥩")
      else if anyIncluded ["løg"; "gulerod"; "kartoffel"; "tomat"; "salat"; "peberfrugt";
                           "broccoli"; "spinat"; "courgette"; "aubergine"; "agurk"; "grøntsag"] lowerName
      then Ok ("Grøntsager", "🥕")
      else if anyIncluded ["æble"; "banan"; "appelsin"; "citron"; "pære"; "jordbær";
                           "blåbær"; "kiwi"; "mango"; "ananas"; "frugt"] lowerName
      then Ok ("Frugt", "🍎")
      else if anyIncluded ["brød"; "pasta"; "ris"; "mel"; "havregryn"; "quinoa"; "bulgur"] lowerName
      then Ok ("Brød & Korn", "🍞")
      else if anyIncluded ["salt"; "peber"; "krydderi"; "oregano"; "basilikum"; "soja";
                           "olie"; "eddike"; "honning"; "sukker"] lowerName
      then Ok ("Krydderier", "🧂")
      else if anyIncluded ["æg"] lowerName
      then Ok ("Æg", "🥚")
      else Ok ("Andre", "🛒")
  | _ => Err typeError
  end.

(** What [addRecipeToShoppingList] reads of its argument. *)
Record RecipeArg : Type := mkRecipeArg {
  arg_id : jsval;
  arg_title : jsval;
  arg_missingIngredients : option (list json)
}.

Record AddRecipeResult : Type := mkAddRecipeResult {
  success : bool;
  addedCount : Z;
  totalItems : Z
}.

(** One turn of the loop over [recipe.missingIngredients]. *)
Definition addIngredient (clk : Clock) (recipe : RecipeArg) (ingredient : json)
    (state : Store * Z) : result (Store * Z) :=
  let '(currentList, addedCount) := state in
  ingName <-! getProp (Some ingredient) "name" ;;
  cat <-! categorizeIngredient ingName ;;
  match ingName with
  | Some (JStr itemName) =>
      ingAmount <-! getProp (Some ingredient) "amount" ;;
      ingEssential <-! getProp (Some ingredient) "essential" ;;
      let itemPriority := if truthy ingEssential then high else medium in
      let itemEssential := jsOr ingEssential (Some (JBool false)) in
      match findIndex (sameName itemName) currentList with
      | Some existingIndex =>
          match currentList !! existingIndex with
          | Some existing =>
              Ok (<[existingIndex :=
                      mergeInto clk existing ingAmount (Some itemPriority) itemEssential]>
                    currentList,
                  addedCount)
          | None => Ok (currentList, addedCount)
          end
      | None =>
          let newItem :=
            {| id := newId clk;
               name := itemName;
               amount := ingAmount;
               category := fst cat;
               categoryIcon := snd cat;
               isChecked := false;
               priority := Some itemPriority;
               addedDate := isoNow clk;
               source := source_recipe;
               recipeId := arg_id recipe;
               recipeName := arg_title recipe;
               essential := itemEssential |} in
          Ok ((currentList ++ [newItem])%list, addedCount + 1)
      end
  | _ => Err typeError
  end.

Fixpoint addIngredients (clock : nat -> Clock) (recipe : RecipeArg) (i : nat)
    (ingredients : list json) (state : Store * Z) : result (Store * Z) :=
  match ingredients with
  | [] => Ok state
  | ingredient :: rest =>
      state' <-! addIngredient (clock i) recipe ingredient state ;;
      addIngredients clock recipe (S i) rest state'
  end.

Definition noMissingIngredients : string := "Ingen manglende ingredienser at tilføje".

(** [addRecipeToShoppingList(recipe)]: the outcome and the content of the
    store afterwards. The list is saved once, after the loop; an
    exception leaves the store as it was. *)
Definition addRecipeToShoppingList (clock : nat -> Clock) (recipe : RecipeArg)
    (store : Store) : result AddRecipeResult * Store :=
  match arg_missingIngredients recipe with
  | None => (Err noMissingIngredients, store)
  | Some [] => (Err noMissingIngredients, store)
  | Some ingredients =>
      match addIngredients clock recipe O ingredients (store, 0) with
      | Ok (currentList, added) =>
          (Ok {| success := true; addedCount := added;
                 totalItems := Z.of_nat (length currentList) |},
           currentList)
      | Err m => (Err m, store)
      end
  end.

(** *** What the merge policy is to maintain *)

(** The identity of an entry and of an add: the name, lower-cased and
    trimmed. *)
Definition keyOf (e : ShoppingListItem) : string := nameKey (name e).
Definition inputKey (a : Clock * ItemInput) : string := nameKey (in_name (snd a)).

Definition isEssential (e : ShoppingListItem) : bool := truthy (essential e).

(** Some add of the name [k] was essential. *)
Definition anyEssential (k : string) (adds : list (Clock * ItemInput)) : bool :=
  existsb (fun a => JsString.eqb (inputKey a) k && truthy (in_essential (snd a))) adds.

Definition hasInputPriority (a : Clock * ItemInput) : Prop := in_priority (snd a) <> None.

Definition inputRank (a : Clock * ItemInput) : Z :=
  default 0 (priorityOrder (in_priority (snd a))).

(** The highest rank among the adds of the name [k]. *)
Definition maxRank (k : string) (adds : list (Clock * ItemInput)) : Z :=
  fold_right (fun a m => if JsString.eqb (inputKey a) k then Z.max (inputRank a) m else m)
    0 adds.

(** The store after the adds [adds]: one entry per name, an entry for
    every add, the essential flag of an entry true exactly when some add
    of its name was essential and, when every add carries a priority, the
    priority of an entry the highest among the adds of its name. *)
Record MergeInvariant (adds : list (Clock * ItemInput)) (store : Store) : Prop := {
  inv_unique : NoDup (keyOf <$> store);
  inv_covered : forall a, a ∈ adds -> inputKey a ∈ keyOf <$> store;
  inv_essential : forall e, e ∈ store -> isEssential e = anyEssential (keyOf e) adds;
  inv_priority :
    Forall hasInputPriority adds ->
    forall e, e ∈ store -> hasPriority e /\ rank e = maxRank (keyOf e) adds
}.

(** An ingredient with a [name] that is a string. *)
Definition named_ingredient (ingredient : json) : Prop :=
  exists n, getProp (Some ingredient) "name" = Ok (Some (JStr n)).

(** [toggleShoppingItem], [removeFromShoppingList], [clearCheckedItems],
    [clearShoppingList] *)
Definition toggleShoppingItem (itemId : string) (store : Store) : Store :=
  match findIndex (fun item => JsString.eqb (id item) itemId) store with
  | Some itemIndex =>
      match store !! itemIndex with
      | Some it =>
          <[itemIndex :=
              {| id := id it; name := name it; amount := amount it; category := category it;
                 categoryIcon := categoryIcon it; isChecked := negb (isChecked it);
                 priority := priority it; addedDate := addedDate it; source := source it;
                 recipeId := recipeId it; recipeName := recipeName it;
                 essential := essential it |}]> store
      | None => store
      end
  | None => store
  end.

Definition removeFromShoppingList (itemId : string) (store : Store) : Store :=
  List.filter (fun item => negb (JsString.eqb (id item) itemId)) store.

Definition clearCheckedItems (store : Store) : Store :=
  List.filter (fun item => negb (isChecked item)) store.

Definition clearShoppingList (store : Store) : Store := [].

(** *** [groupShoppingListByCategory] *)

Record Group : Type := mkGroup {
  group_name : string;
  group_icon : string;
  group_items : list ShoppingListItem
}.

(** [item.category || 'Andre'] *)
Definition categoryOf (item : ShoppingListItem) : string :=
  if JsString.eqb (category item) "" then "Andre" else category item.

Definition iconOf (item : ShoppingListItem) : string :=
  if JsString.eqb (categoryIcon item) "" then "🛒" else categoryIcon item.

(** The names of the properties every object inherits from
    [Object.prototype] (ECMAScript, with the accessors of its annex B):
    [grouped[name]] is one of these for such a name, whatever was put
    into [grouped]. *)
Definition objectPrototypeKeys : list string :=
  [ "constructor"; "hasOwnProperty"; "isPrototypeOf"; "propertyIsEnumerable";
    "toLocaleString"; "toString"; "valueOf"; "__proto__";
    "__defineGetter__"; "__defineSetter__"; "__lookupGetter__"; "__lookupSetter__" ].

Definition inherited (key : string) : bool :=
  existsb (JsString.eqb key) objectPrototypeKeys.

(** The own properties of the object [grouped], in the order of their
    creation. [putItem] is the callback of [items.forEach] for a category
    that is no inherited name: the group is created when it is not there,
    and the item is pushed. *)
Fixpoint putItem (item : ShoppingListItem) (grouped : list Group) : list Group :=
  match grouped with
  | [] => [ {| group_name := categoryOf item; group_icon := iconOf item;
               group_items := [item] |} ]
  | g :: r =>
      if JsString.eqb (group_name g) (categoryOf item)
      then {| group_name := group_name g; group_icon := group_icon g;
              group_items := (group_items g ++ [item])%list |} :: r
      else g :: putItem item r
  end.

(** The callback of [items.forEach]. For a category that is an inherited
    name, [grouped[category]] is the inherited value, which is truthy: no
    group is created, [grouped[category].items] is [undefined] and the
    call of [push] throws. *)
Definition pushItem (item : ShoppingListItem) (grouped : list Group)
    : result (list Group) :=
  if inherited (categoryOf item) then Err typeError
  else Ok (putItem item grouped).

Fixpoint collectInto (items : list ShoppingListItem) (grouped : list Group)
    : result (list Group) :=
  match items with
  | [] => Ok grouped
  | item :: rest => grouped' <-! pushItem item grouped ;; collectInto rest grouped'
  end.

Definition collectGroups (items : list ShoppingListItem) : result (list Group) :=
  collectInto items [].

(** The groups when no callback throws. *)
Definition collected (items : list ShoppingListItem) : list Group :=
  fold_left (fun grouped item => putItem item grouped) items [].

(** A property name that is an array index: the decimal form, without
    leading zero, of an integer below 4294967295. *)
Definition isDigit (c : ascii) : bool :=
  let n := nat_of_ascii c in (48 <=? n)%nat && (n <=? 57)%nat.

Fixpoint allDigits (s : string) : bool :=
  match s with
  | EmptyString => true
  | String c r => isDigit c && allDigits r
  end.

Fixpoint decimalValue (s : string) (acc : Z) : Z :=
  match s with
  | EmptyString => acc
  | String c r => decimalValue r (10 * acc + (Z.of_nat (nat_of_ascii c) - 48))
  end.

Definition arrayIndex (key : string) : option Z :=
  match key with
  | EmptyString => None
  | String c r =>
      if allDigits key
         && (JsString.eqb key "0" || negb (Ascii.eqb c "0"))
         && (decimalValue key 0 <? 4294967295)
      then Some (decimalValue key 0)
      else None
  end.

Definition isIndexed (g : Group) : bool :=
  match arrayIndex (group_name g) with
  | Some _ => true
  | None => false
  end.

Definition compareIndex (g h : Group) : option Z :=
  Some (default 0 (arrayIndex (group_name g)) - default 0 (arrayIndex (group_name h))).

(** [Object.values(grouped)]: the properties whose name is an array
    index come first, by ascending index, then the others in the order
    of their creation. *)
Definition objectValues (grouped : list Group) : list Group :=
  (sortBy compareIndex (List.filter isIndexed grouped)
   ++ List.filter (fun g => negb (isIndexed g)) grouped)%list.

(** [x - y] on numbers that may be [undefined]; [None] is NaN. *)
Definition numSub (x y : option Z) : option Z :=
  match x, y with
  | Some a, Some b => Some (a - b)
  | _, _ => None
  end.

Definition numEq (x y : option Z) : bool :=
  match x, y with
  | Some a, Some b => a =? b
  | None, None => true
  | _, _ => false
  end.

Definition uncheckedCount (g : Group) : Z :=
  Z.of_nat (length (List.filter (fun item => negb (isChecked item)) (group_items g))).

Definition compareGroups (a b : Group) : option Z :=
  Some (uncheckedCount b - uncheckedCount a).

Section Grouping.
(** [a.localeCompare(b)], the collation of the host *)
Variable localeCompare : string -> string -> Z.

(** The comparator of the items of a group; a result that is NaN is
    read as [+0] by [Array.prototype.sort]. *)
Definition compareItems (a b : ShoppingListItem) : option Z :=
  if negb (Bool.eqb (isChecked a) (isChecked b))
  then Some (if isChecked a then 1 else -1)
  else if negb (numEq (priorityOrder (priority b)) (priorityOrder (priority a)))
  then numSub (priorityOrder (priority b)) (priorityOrder (priority a))
  else Some (localeCompare (name a) (name b)).

Definition sortGroupItems (c : Group) : Group :=
  {| group_name := group_name c; group_icon := group_icon c;
     group_items := sortBy compareItems (group_items c) |}.

Definition groupShoppingListByCategory (items : list ShoppingListItem)
    : result (list Group) :=
  grouped <-! collectGroups items ;;
  Ok (sortBy compareGroups (map sortGroupItems (objectValues grouped))).

End Grouping.

(** *** The order of the grouped view *)

Definition groupNames (groups : list Group) : list string := map group_name groups.
Definition groupedItems (groups : list Group) : list ShoppingListItem :=
  concat (map group_items groups).

(** More unchecked items first. *)
Definition groupBefore (g h : Group) : Prop := uncheckedCount h <= uncheckedCount g.

(** Every item of a group is of the category the group is named after,
    and no group is empty. *)
Definition wellGrouped (g : Group) : Prop :=
  Forall (fun item => categoryOf item = group_name g) (group_items g)
  /\ group_items g <> [].

(** The category of the item is no inherited name. *)
Definition groupable (item : ShoppingListItem) : Prop :=
  inherited (categoryOf item) = false.

(** A sample collation, for the examples: the byte order of the
    lower-cased names. The collation of the host is another one. *)
Definition asciiCollate (a b : string) : Z :=
  match String.compare (toLowerCase a) (toLowerCase b) with
  | Lt => -1
  | Eq => 0
  | Gt => 1
  end.

End ShoppingListService.

(** ** config/aiConfig.js *)

Module AiConfig.

Record AzureConfig : Type := mkAzure {
  endpoint : string;
  apiKey : string;
  deploymentName : string;
  apiVersion : string
}.

Record TokenSaving : Type := mkTokenSaving {
  enabled : bool;
  maxIngredientsInPrompt : nat;
  reducedRecipeCount : nat;
  shorterDescriptions : bool;
  skipNutritionInfo : bool
}.

Record AIConfig : Type := mkAIConfig {
  azure : AzureConfig;
  enableFallback : bool;
  timeout : Z;
  maxRetries : nat;
  maxRecipes : nat;
  defaultDifficulty : string;
  tokenSaving : TokenSaving
}.

(** The values of [Constants.expoConfig?.extra?.azureOpenAI], each of
    which may be missing. *)
Record ExpoExtra : Type := mkExtra {
  extra_endpoint : option string;
  extra_apiKey : option string;
  extra_deploymentName : option string;
  extra_apiVersion : option string
}.

Definition strOr (s : option string) (d : string) : string :=
  match s with
  | Some v => if JsString.eqb v "" then d else v
  | None => d
  end.

(** [AI_CONFIG]. The key compiled into the source is a non-empty
    literal; it is not reproduced here. *)
Definition builtinApiKey : string := "<api key>".

Definition AI_CONFIG (extra : ExpoExtra) : AIConfig :=
  {| azure :=
       {| endpoint := strOr (extra_endpoint extra) "https://phpe2-mfslft3c-eastus2.openai.azure.com/";
          apiKey := strOr (extra_apiKey extra) builtinApiKey;
          deploymentName := strOr (extra_deploymentName extra) "gpt-4.1-nano";
          apiVersion := strOr (extra_apiVersion extra) "2024-02-15-preview" |};
     enableFallback := true;
     timeout := 30000;
     maxRetries := 3;
     maxRecipes := 5;
     defaultDifficulty := "medium";
     tokenSaving :=
       {| enabled := true;
          maxIngredientsInPrompt := 8;
          reducedRecipeCount := 3;
          shorterDescriptions := true;
          skipNutritionInfo := false |} |}.

Definition nonEmpty (s : string) : bool := negb (JsString.eqb s "").

(** [validateAIConfig] and [isAIEnabled], for a configuration [cfg] *)
Definition validateAIConfig (cfg : AIConfig) : bool :=
  if negb (nonEmpty (endpoint (azure cfg)))
     || negb (nonEmpty (apiKey (azure cfg)))
     || negb (nonEmpty (deploymentName (azure cfg)))
  then false else true.

Definition isAIEnabled (cfg : AIConfig) : bool := validateAIConfig cfg.

End AiConfig.

(** ** services/aiRecipeService.js *)

Module AiRecipeService.
Import AiConfig.

(** An item of the inventory, as the recipes screen passes it. *)
Record Ingredient : Type := mkIngredient {
  ing_name : string;
  qty : Z;
  daysLeft : Z
}.

Record Preferences : Type := mkPreferences {
  difficulty_pref : option string
}.

Record Recipe : Type := mkRecipe {
  id : json;
  title : json;
  difficulty : string;
  time : json;
  priority : string;
  description : json;
  usedIngredients : list json;
  missingIngredients : list json;
  instructions : list json;
  tips : json;
  source : string;
  matchedIngredients : list Ingredient;
  matchScore : option Q
}.

(** Replaces every apostrophe of a template by a double quote. *)
Fixpoint withQuotes (s : string) : string :=
  match s with
  | EmptyString => EmptyString
  | String c r =>
      String (if Ascii.eqb c "'" then ascii_of_nat 34 else c) (withQuotes r)
  end.

Fixpoint joinWith (sep : string) (l : list string) : string :=
  match l with
  | [] => ""
  | [x] => x
  | x :: r => x +:+ sep +:+ joinWith sep r
  end.

(** [createRecipePrompt] *)
Definition createRecipePrompt (cfg : AIConfig) (ingredients : list Ingredient)
    (preferences : Preferences) : string :=
  let ts := tokenSaving cfg in
  let maxIngredients :=
    if enabled ts then maxIngredientsInPrompt ts else length ingredients in
  let maxRecipes := if enabled ts then reducedRecipeCount ts else maxRecipes cfg in
  let limitedIngredients := take maxIngredients ingredients in
  let ingredientList :=
    joinWith ", "
      (map (fun ing => ing_name ing +:+ " (" +:+ pretty (qty ing) +:+ " stk, udløber om "
                         +:+ pretty (daysLeft ing) +:+ " dage)") limitedIngredients) in
  let difficultyText :=
    match difficulty_pref preferences with
    | Some d =>
        if JsString.eqb d "easy" then "nemme"
        else if JsString.eqb d "medium" then "mellemsvære"
        else if JsString.eqb d "hard" then "avancerede"
        else "forskellige sværhedsgrader"
    | None => "forskellige sværhedsgrader"
    end in
  if enabled ts && shorterDescriptions ts then
    "Generer UDELUKKENDE gyldig JSON array med " +:+ pretty maxRecipes +:+ " " +:+ difficultyText
      +:+ " opskrifter baseret på: " +:+ ingredientList +:+ withQuotes "

Returner KUN JSON array uden forklarende tekst:
[
{
  'id': 'recipe-1',
  'title': 'Opskriftens navn',
  'difficulty': 'easy',
  'time': '30 min',
  'servings': 4,
  'priority': 'high', 
  'description': 'Kort beskrivelse',
  'ingredientsAvailable': [{'name': 'ingrediens', 'amount': '2 dl', 'available': true, 'priority': 'high'}],
  'missingIngredients': [{'name': 'manglende', 'amount': '1 stk', 'essential': true, 'alternative': 'alternativ'}],
  'instructions': ['Trin 1', 'Trin 2', 'Trin 3'],
  'tips': 'Hurtig tip'" +:+
      (if skipNutritionInfo ts then ""
       else withQuotes ",
  'nutritionInfo': {'calories': '300 kcal', 'prepTime': '10 min'}") +:+ "
}
]

Prioriter ingredienser der snart udløber. Skriv på dansk."
  else
    "Generer UDELUKKENDE et gyldig JSON array med " +:+ pretty maxRecipes +:+ " " +:+ difficultyText
      +:+ " opskrifter baseret på ingredienser: " +:+ ingredientList +:+ withQuotes "

Du kan inkludere opskrifter hvor nogle ingredienser mangler - angiv disse under 'missingIngredients'.

VIGTIGT: Returner KUN JSON array uden forklarende tekst. Brug specifikke mængder:
- Væsker: dl, liter, ml  
- Krydderier: tsk, spsk, knivspids
- Tørre varer: gram, kg
- Frugt/grønt: stk, pakke, pose
- Kød/fisk: gram, kg, stk

JSON struktur:
[
{
  'id': 'recipe-1',
  'title': 'Opskriftens navn',
  'difficulty': 'easy',
  'time': '30 min',
  'servings': 4,
  'priority': 'high', 
  'description': 'Beskrivelse af retten',
  'ingredientsAvailable': [
    {
      'name': 'ingrediens navn',
      'amount': '2 dl',
      'available': true,
      'priority': 'high'
    }
  ],
  'missingIngredients': [
    {
      'name': 'manglende ingrediens',
      'amount': '1 stk',
      'essential': true,
      'alternative': 'alternativ'
    }
  ],
  'instructions': [
    'Trin 1: Detaljeret instruktion',
    'Trin 2: Næste trin'
  ],
  'tips': 'Tips til forbedring',
  'nutritionInfo': {
    'calories': '300 kcal per portion',
    'prepTime': '15 min forberedelse'
  }
}
]

Prioriter opskrifter der bruger ingredienser der snart udløber og minimerer madspild. Skriv på dansk.".

(** The outcome of the [fetch] call: aborted by the timeout, failed in
    transport, or answered with a status and a body. *)
Inductive FetchOutcome : Type :=
| FetchAborted
| FetchFailed (msg : string)
| FetchResponse (status : Z) (body : string).

Definition timedOut : string := "AI request timed out".

Definition requestUrl (cfg : AIConfig) : string :=
  endpoint (azure cfg) +:+ "openai/deployments/" +:+ deploymentName (azure cfg)
    +:+ "/chat/completions?api-version=" +:+ apiVersion (azure cfg).

Definition responseOk (status : Z) : bool := (200 <=? status) && (status <=? 299).

Section Orchestrator.
Variable cfg : AIConfig.
(** The network: what the request to a URL with a prompt comes to. *)
Variable fetch : string -> string -> FetchOutcome.
(** [Date.now()] when the element of a given index is normalized. *)
Variable dateNow : nat -> string.

(** [callAzureOpenAI]: the text [data.choices[0].message.content] *)
Definition callAzureOpenAI (prompt : string) : result jsval :=
  match fetch (requestUrl cfg) prompt with
  | FetchAborted => Err timedOut
  | FetchFailed msg => Err msg
  | FetchResponse status body =>
      if negb (responseOk status)
      then Err ("Azure OpenAI API error: " +:+ pretty status +:+ " - " +:+ body)
      else
        data <-! Json.parse body ;;
        _ <-! getProp (Some data) "usage" ;;
        choices <-! getProp (Some data) "choices" ;;
        first <-! getFirst choices ;;
        message <-! getProp first "message" ;;
        getProp message "content"
  end.

(** [['easy', 'medium', 'hard'].includes(v) ? v : 'medium'] *)
Definition oneOf (allowed : list string) (v : jsval) (d : string) : string :=
  match v with
  | Some (JStr s) => if existsb (JsString.eqb s) allowed then s else d
  | _ => d
  end.

(** [v || d] where [d] is a string *)
Definition orStr (v : jsval) (d : string) : json :=
  default (JStr d) (jsOr v (Some (JStr d))).

(** [ing => ing.name || ing] *)
Definition ingredientName (ing : json) : result json :=
  nm <-! getProp (Some ing) "name" ;;
  Ok (default ing (jsOr nm (Some ing))).

(** The callback of [recipeArray.map]. *)
Definition normalizeRecipe (index : nat) (recipe : json) : result Recipe :=
  let r := Some recipe in
  rid <-! getProp r "id" ;;
  rtitle <-! getProp r "title" ;;
  rdifficulty <-! getProp r "difficulty" ;;
  rtime <-! getProp r "time" ;;
  rpriority <-! getProp r "priority" ;;
  rdescription <-! getProp r "description" ;;
  ravailable <-! getProp r "ingredientsAvailable" ;;
  used <-!
    match asArray ravailable with
    | Some available =>
        mapR ingredientName available
    | None =>
        rused <-! getProp r "usedIngredients" ;;
        Ok (default [] (asArray rused))
    end ;;
  rmissing <-! getProp r "missingIngredients" ;;
  rinstructions <-! getProp r "instructions" ;;
  rtips <-! getProp r "tips" ;;
  Ok {| id := orStr rid ("ai-recipe-" +:+ dateNow index +:+ "-" +:+ pretty index);
        title := orStr rtitle "Unavngiven opskrift";
        difficulty := oneOf ["easy"; "medium"; "hard"] rdifficulty "medium";
        time := orStr rtime "30 min";
        priority := oneOf ["high"; "medium"; "low"] rpriority "medium";
        description := orStr rdescription "Lækker hjemmelavet ret";
        usedIngredients := used;
        missingIngredients := default [] (asArray rmissing);
        instructions :=
          default [JStr "Se online opskrift for instruktioner"] (asArray rinstructions);
        tips := orStr rtips "";
        source := "AI Generated";
        matchedIngredients := [];
        matchScore := None |}.

Fixpoint mapIndexed {A B : Type} (f : nat -> A -> result B) (i : nat) (l : list A)
    : result (list B) :=
  match l with
  | [] => Ok []
  | x :: r => y <-! f i x ;; ys <-! mapIndexed f (S i) r ;; Ok (y :: ys)
  end.

(** The text between the first opening and the last closing bracket,
    when there are both in this order. *)
Definition sliceArray (cleanedResponse : string) : string :=
  let jsonStartIndex := indexOf "[" cleanedResponse in
  let jsonEndIndex := lastIndexOf "]" cleanedResponse in
  if negb (jsonStartIndex =? -1) && negb (jsonEndIndex =? -1)
     && (jsonStartIndex <? jsonEndIndex)
  then substring jsonStartIndex (jsonEndIndex + 1) cleanedResponse
  else cleanedResponse.

Definition stripFences (response : string) : string :=
  trim (replaceAllWithSpace "```" (replaceAllWithSpace "```json" response)).

Definition parseError : string := "Kunne ikke forstå AI svar. Prøv igen.".

(** [parseRecipeResponse]: every exception raised inside is replaced
    by [parseError]. *)
Definition parseRecipeResponse (response : jsval) : result (list Recipe) :=
  let attempt :=
    match response with
    | Some (JStr text) =>
        let cleanedResponse := sliceArray (stripFences text) in
        recipes <-! Json.parse cleanedResponse ;;
        let recipeArray :=
          match recipes with
          | JArr items => items
          | _ => [recipes]
          end in
        mapIndexed normalizeRecipe O recipeArray
    | _ => Err typeError
    end in
  match attempt with
  | Ok recipes => Ok recipes
  | Err _ => Err parseError
  end.

(** [getFallbackRecipes] *)
Definition getFallbackRecipes (ingredients : option (list Ingredient)) : list Recipe :=
  let safeIngredients := default [] ingredients in
  [ {| id := JStr "fallback-1";
       title := JStr "Hurtig Grøntsagsret";
       difficulty := "easy";
       time := JStr "20 min";
       priority := "high";
       description := JStr "En nem og hurtig ret der bruger dine tilgængelige grøntsager.";
       usedIngredients := map (fun ing => JStr (ing_name ing)) (take 3 safeIngredients);
       missingIngredients := [];
       instructions :=
         [JStr "Vask og skær grøntsagerne i mindre stykker";
          JStr "Varm olie op i en pande ved medium varme";
          JStr "Tilsæt grøntsagerne og sautér i 5-7 minutter";
          JStr "Krydre efter smag med salt og peber";
          JStr "Server varmt"];
       tips := JStr "Tilføj krydderier eller krydderurter for ekstra smag";
       source := "Fallback Recipe";
       matchedIngredients := take 3 safeIngredients;
       matchScore := None |};
    {| id := JStr "fallback-2";
       title := JStr "Simpel Suppe";
       difficulty := "easy";
       time := JStr "30 min";
       priority := "medium";
       description := JStr "En varmende suppe der kan bruge de fleste grøntsager.";
       usedIngredients := map (fun ing => JStr (ing_name ing)) (take 4 safeIngredients);
       missingIngredients := [JStr "bouillon"];
       instructions :=
         [JStr "Skær alle grøntsager i tern";
          JStr "Bring bouillon i kog i en gryde";
          JStr "Tilsæt grøntsagerne og lad koge i 15-20 minutter";
          JStr "Krydre efter smag";
          JStr "Server med brød"];
       tips := JStr "Blend suppen for en cremet konsistens";
       source := "Fallback Recipe";
       matchedIngredients := take 4 safeIngredients;
       matchScore := None |} ].

(** The name of an inventory item overlaps an ingredient name of the
    recipe: one contains the other, case ignored. Calling
    [toLowerCase] on an ingredient that is not a string throws. *)
Definition overlaps (userIng : Ingredient) (recipeIng : json) : result bool :=
  match recipeIng with
  | JStr s =>
      Ok (includes (toLowerCase s) (toLowerCase (ing_name userIng))
          || includes (toLowerCase (ing_name userIng)) (toLowerCase s))
  | _ => Err typeError
  end.

Definition matchRecipe (userIngredients : list Ingredient) (recipe : Recipe)
    : result Recipe :=
  matched <-!
    filterR (fun userIng => someR (overlaps userIng) (usedIngredients recipe))
      userIngredients ;;
  Ok {| id := id recipe; title := title recipe; difficulty := difficulty recipe;
        time := time recipe; priority := priority recipe;
        description := description recipe;
        usedIngredients := usedIngredients recipe;
        missingIngredients := missingIngredients recipe;
        instructions := instructions recipe; tips := tips recipe;
        source := source recipe;
        matchedIngredients := matched;
        matchScore :=
          Some (Z.of_nat (length matched)
                # Pos.of_nat (Nat.max (length (usedIngredients recipe)) 1))%Q |}.

(** [matchRecipesWithIngredients] *)
Definition matchRecipesWithIngredients (recipes : list Recipe)
    (userIngredients : list Ingredient) : result (list Recipe) :=
  mapR (matchRecipe userIngredients) recipes.

Definition noIngredients : string := "Ingen ingredienser tilgængelige".
Definition generationError : string :=
  "Kunne ikke generere opskriftsforslag. Prøv igen senere.".

(** The body of the [try] block of [generateRecipeSuggestions]. *)
Definition tryGenerate (ingredients : option (list Ingredient))
    (preferences : Preferences) : result (list Recipe) :=
  match ingredients with
  | None => Err noIngredients
  | Some [] => Err noIngredients
  | Some ings =>
      if negb (isAIEnabled cfg) then Ok (getFallbackRecipes ingredients)
      else
        let prompt := createRecipePrompt cfg ings preferences in
        response <-! callAzureOpenAI prompt ;;
        aiRecipes <-! parseRecipeResponse response ;;
        matchRecipesWithIngredients aiRecipes ings
  end.


(** [generateRecipeSuggestions] *)
Definition generateRecipeSuggestions (ingredients : option (list Ingredient))
    (preferences : Preferences) : result (list Recipe) :=
  match tryGenerate ingredients preferences with
  | Ok recipes => Ok recipes
  | Err _ =>
      if enableFallback cfg then Ok (getFallbackRecipes ingredients)
      else Err generationError
  end.
End Orchestrator.

(** *** What the matcher is to compute *)

(** [needle] occurs in [hay]. *)
Definition isSubstring (needle hay : string) : Prop :=
  exists pre post, hay = pre +:+ needle +:+ post.

(** The name of an inventory item and an ingredient name overlap. *)
Definition namesOverlap (userName recipeName : string) : Prop :=
  isSubstring (toLowerCase userName) (toLowerCase recipeName)
  \/ isSubstring (toLowerCase recipeName) (toLowerCase userName).

Definition overlapsName (userIng : Ingredient) (recipeIng : json) : bool :=
  match recipeIng with
  | JStr s =>
      includes (toLowerCase s) (toLowerCase (ing_name userIng))
      || includes (toLowerCase (ing_name userIng)) (toLowerCase s)
  | _ => false
  end.

Definition overlapsAny (recipe : Recipe) (userIng : Ingredient) : bool :=
  existsb (overlapsName userIng) (usedIngredients recipe).

(** [annotated] differs from [recipe] in its matched ingredients and its
    score only, which are those of the inventory [userIngredients]. *)
Definition annotates (userIngredients : list Ingredient) (recipe annotated : Recipe) : Prop :=
  id annotated = id recipe /\ title annotated = title recipe
  /\ difficulty annotated = difficulty recipe /\ time annotated = time recipe
  /\ priority annotated = priority recipe /\ description annotated = description recipe
  /\ usedIngredients annotated = usedIngredients recipe
  /\ missingIngredients annotated = missingIngredients recipe
  /\ instructions annotated = instructions recipe /\ tips annotated = tips recipe
  /\ source annotated = source recipe
  /\ matchedIngredients annotated = List.filter (overlapsAny recipe) userIngredients
  /\ (forall u, In u (matchedIngredients annotated) <->
                In u userIngredients
                /\ exists s, In (JStr s) (usedIngredients recipe)
                             /\ namesOverlap (ing_name u) s)
  /\ matchScore annotated
     = Some (Z.of_nat (length (matchedIngredients annotated))
             # Pos.of_nat (Nat.max (length (usedIngredients recipe)) 1))%Q.

(** Every declared ingredient of the recipe is a name. *)
Definition namesOnly (recipe : Recipe) : Prop :=
  Forall (fun u => exists s, u = JStr s) (usedIngredients recipe).

(** The view of a recipe that [addRecipeToShoppingList] reads. *)
Definition toRecipeArg (recipe : Recipe) : ShoppingListService.RecipeArg :=
  {| ShoppingListService.arg_id := Some (id recipe);
     ShoppingListService.arg_title := Some (title recipe);
     ShoppingListService.arg_missingIngredients := Some (missingIngredients recipe) |}.

End AiRecipeService.

(** ** services/categoryStorage.js *)

Module CategoryStorage.

Record Category : Type := mkCategory {
  id : string;
  name : string;
  icon : string
}.

Definition DEFAULT_CATEGORIES : list Category :=
  [ {| id := "fridge"; name := "Køleskab"; icon := "❄️" |};
    {| id := "freezer"; name := "Fryser"; icon := "🧊" |} ].

(** The content of the key [@foogood_categories]; [None] when the key
    holds nothing. *)
Abbreviation Storage := (option (list Category)).

(** [loadCategories]: the categories and the storage afterwards (the
    defaults are saved when nothing is stored). *)
Definition loadCategories (st : Storage) : list Category * Storage :=
  match st with
  | None => (DEFAULT_CATEGORIES, Some DEFAULT_CATEGORIES)
  | Some categories => (categories, st)
  end.

Definition saveCategories (categories : list Category) (st : Storage) : Storage :=
  Some categories.

(** The object given to [addCategory]; its own [id] and [icon], when
    present, win over the generated ones. *)
Record CategoryInput : Type := mkCategoryInput {
  in_id : option string;
  in_name : string;
  in_icon : option string
}.

Definition addCategory (dateNow : string) (category : CategoryInput) (st : Storage)
    : list Category * Storage :=
  let '(categories, st1) := loadCategories st in
  let newCategory :=
    {| id := default dateNow (in_id category);
       name := in_name category;
       icon := default "📁" (in_icon category) |} in
  let updatedCategories := (categories ++ [newCategory])%list in
  (updatedCategories, saveCategories updatedCategories st1).

Record CategoryUpdates : Type := mkCategoryUpdates {
  upd_id : option string;
  upd_name : option string;
  upd_icon : option string
}.

Definition updateCategory (categoryId : string) (updates : CategoryUpdates) (st : Storage)
    : list Category * Storage :=
  let '(categories, st1) := loadCategories st in
  let updatedCategories :=
    map (fun cat =>
           if JsString.eqb (id cat) categoryId
           then {| id := default (id cat) (upd_id updates);
                   name := default (name cat) (upd_name updates);
                   icon := default (icon cat) (upd_icon updates) |}
           else cat) categories in
  (updatedCategories, saveCategories updatedCategories st1).

(** [deleteCategory] *)
Definition deleteCategory (categoryId : string) (st : Storage) : list Category * Storage :=
  let '(categories, st1) := loadCategories st in
  let updatedCategories :=
    List.filter (fun cat => negb (JsString.eqb (id cat) categoryId)) categories in
  (updatedCategories, saveCategories updatedCategories st1).

Definition clearCategories (st : Storage) : Storage := None.

End CategoryStorage.

(** ** context/AppContext.js and the category screens *)

Module AppContext.
Import CategoryStorage.

Record FoodItem : Type := mkFoodItem {
  item_id : string;
  item_name : string;
  item_qty : Z;
  expiryDate : string;
  categoryId : string;
  barcode : option string;
  imageUrl : option string;
  notificationId : option string
}.

(** The state of the provider and the category storage behind it. *)
Record AppState : Type := mkAppState {
  items : list FoodItem;
  categories : list Category;
  storage : Storage
}.

Definition withCategory (item : FoodItem) (cid : string) : FoodItem :=
  {| item_id := item_id item; item_name := item_name item; item_qty := item_qty item;
     expiryDate := expiryDate item; categoryId := cid; barcode := barcode item;
     imageUrl := imageUrl item; notificationId := notificationId item |}.

Definition addCategory (dateNow : string) (category : CategoryInput) (s : AppState) : AppState :=
  let '(updatedCategories, st) := CategoryStorage.addCategory dateNow category (storage s) in
  {| items := items s; categories := updatedCategories; storage := st |}.

Definition editCategory (cid : string) (updates : CategoryUpdates) (s : AppState) : AppState :=
  let '(updatedCategories, st) := updateCategory cid updates (storage s) in
  {| items := items s; categories := updatedCategories; storage := st |}.

(** [removeCategory]: the category is deleted from the storage, then the
    items of that category are given the category identifier ['pantry']. *)
Definition removeCategory (cid : string) (s : AppState) : AppState :=
  let '(updatedCategories, st) := deleteCategory cid (storage s) in
  let updatedItems :=
    map (fun item =>
           if JsString.eqb (categoryId item) cid then withCategory item "pantry" else item)
        (items s) in
  {| items := updatedItems; categories := updatedCategories; storage := st |}.

(** [isDefaultCategory] of screens/CategoriesScreen.js *)
Definition isDefaultCategory (cid : string) : bool :=
  existsb (JsString.eqb cid) ["fridge"; "freezer"].

Definition itemsInCategory (cid : string) (s : AppState) : list FoodItem :=
  List.filter (fun item => JsString.eqb (categoryId item) cid) (items s).

(** The actions a user can take on a category. *)
Inductive CategoryAction : Type :=
| ScreenDelete (category : Category) (confirmed : bool)
| ModalDelete (cid : string) (confirmed : bool)
| ModalAdd (dateNow : string) (category : CategoryInput)
| ModalEdit (cid : string) (updates : CategoryUpdates).

(** screens/CategoriesScreen.js: the delete button is rendered for the
    categories that are not default; [handleDeleteCategory] refuses a
    category that holds items and otherwise asks for confirmation. *)
Definition screenDelete (category : Category) (confirmed : bool) (s : AppState) : AppState :=
  if isDefaultCategory (id category) then s
  else if (0 <? length (itemsInCategory (id category) s))%nat then s
  else if confirmed then removeCategory (id category) s
  else s.

(** components/CategoryManagementModal.js: the delete button is rendered
    for every category; [handleDeleteCategory] asks for confirmation. *)
Definition modalDelete (cid : string) (confirmed : bool) (s : AppState) : AppState :=
  if confirmed then removeCategory cid s else s.

Definition act (a : CategoryAction) (s : AppState) : AppState :=
  match a with
  | ScreenDelete category confirmed => screenDelete category confirmed s
  | ModalDelete cid confirmed => modalDelete cid confirmed s
  | ModalAdd dateNow category => addCategory dateNow category s
  | ModalEdit cid updates => editCategory cid updates s
  end.

Definition run (actions : list CategoryAction) (s : AppState) : AppState :=
  fold_left (fun st a => act a st) actions s.

(** The state after start-up, when nothing was stored. *)
Definition initialState : AppState :=
  let '(loaded, st) := loadCategories None in
  {| items := []; categories := loaded; storage := st |}.

Definition categoryIds (s : AppState) : list string := map id (categories s).

(** An item is orphaned when its category is not in the category list. *)
Definition orphaned (s : AppState) (item : FoodItem) : bool :=
  negb (existsb (JsString.eqb (categoryId item)) (categoryIds s)).

End AppContext.

(** ** Sample data *)

Module Samples.
Import AiConfig AiRecipeService.

(** The configuration when the build supplies no value. *)
Definition referenceConfig : AIConfig := AI_CONFIG (mkExtra None None None None).

Definition withoutFallback (cfg : AIConfig) : AIConfig :=
  {| azure := azure cfg; enableFallback := false; timeout := timeout cfg;
     maxRetries := maxRetries cfg; maxRecipes := maxRecipes cfg;
     defaultDifficulty := defaultDifficulty cfg; tokenSaving := tokenSaving cfg |}.

Definition milk : Ingredient := {| ing_name := "Mælk"; qty := 2; daysLeft := 3 |}.
Definition tomato : Ingredient := {| ing_name := "Tomat"; qty := 4; daysLeft := 1 |}.

Definition anyDifficulty : Preferences := {| difficulty_pref := None |}.

(** A network whose every request is aborted by the timeout. *)
Definition abortingFetch (url prompt : string) : FetchOutcome := FetchAborted.

Definition fixedNow (i : nat) : string := "1700000000000".

(** A network that answers every request with status 200 and a
    completion whose text is a fenced array of one recipe. *)
Definition answeringFetch (url prompt : string) : FetchOutcome :=
  FetchResponse 200
    (withQuotes "{'usage':{'total_tokens':321},'choices':[{'message':{'role':'assistant','content':'```json\n[{\'title\':\'Tomatsuppe\',\'difficulty\':\'easy\',\'ingredientsAvailable\':[{\'name\':\'tomater\',\'amount\':\'4 stk\'}],\'missingIngredients\':[{\'name\':\'Fløde\',\'amount\':\'1 dl\',\'essential\':true}]}]\n```'}}]}").

(** Networks that fail in transport, answer with status 500, and answer
    with a completion that is no JSON. *)
Definition unreachableFetch (url prompt : string) : FetchOutcome :=
  FetchFailed "Network request failed".
Definition failingFetch (url prompt : string) : FetchOutcome :=
  FetchResponse 500 "Internal Server Error".
Definition chattyFetch (url prompt : string) : FetchOutcome :=
  FetchResponse 200
    (withQuotes "{'choices':[{'message':{'content':'Her er tre opskrifter til dig!'}}]}").

(** A user-made category, as [addCategory] names it, and an item in it. *)
Definition spices : CategoryStorage.Category :=
  {| CategoryStorage.id := "1700000000000"; CategoryStorage.name := "Krydderier";
     CategoryStorage.icon := "🧄" |}.

Definition pepper : AppContext.FoodItem :=
  {| AppContext.item_id := "1700000050000"; AppContext.item_name := "Peber";
     AppContext.item_qty := 1; AppContext.expiryDate := "2026-01-31";
     AppContext.categoryId := "1700000000000"; AppContext.barcode := None;
     AppContext.imageUrl := None; AppContext.notificationId := None |}.

Definition pantryState : AppContext.AppState :=
  {| AppContext.items := [pepper];
     AppContext.categories := (CategoryStorage.DEFAULT_CATEGORIES ++ [spices])%list;
     AppContext.storage := Some (CategoryStorage.DEFAULT_CATEGORIES ++ [spices])%list |}.

(** Two moments. *)
Definition monday : ShoppingListService.Clock :=
  ShoppingListService.mkClock "1700000000000" "2023-11-14T22:13:20.000Z" "k3j9x0q2a".
Definition tuesday : ShoppingListService.Clock :=
  ShoppingListService.mkClock "1700086400000" "2023-11-15T22:13:20.000Z" "p07zl4m1c".

(** A descriptor that carries a name and an amount only, as the shopping
    list screen builds it. *)
Definition named (n : string) (a : jsval) : ShoppingListService.ItemInput :=
  ShoppingListService.mkInput n a None None None (Some ShoppingListService.source_manual)
    None None None.

(** A descriptor that also carries a priority. *)
Definition prioritized (n : string) (a : jsval) (p : ShoppingListService.Priority)
    : ShoppingListService.ItemInput :=
  ShoppingListService.mkInput n a None None (Some p) (Some ShoppingListService.source_manual)
    None None None.

(** A shopping list with two categories. *)
Definition entry (n cat : string) (checked : bool) (p : ShoppingListService.Priority)
    : ShoppingListService.ShoppingListItem :=
  ShoppingListService.mkItem ("shopping-" +:+ n) n (Some (JStr "1 stk")) cat "🛒" checked
    (Some p) "2023-11-14T22:13:20.000Z" ShoppingListService.source_manual None None
    (Some (JBool false)).

Definition weekendList : list ShoppingListService.ShoppingListItem :=
  [ entry "citron" "Frugt" true ShoppingListService.high;
    entry "Salt" "Krydderier" false ShoppingListService.high;
    entry "banan" "Frugt" false ShoppingListService.medium;
    entry "Appelsin" "Frugt" false ShoppingListService.medium;
    entry "kiwi" "Frugt" false ShoppingListService.low ].

End Samples.

(** ** services/shoppingListService.js: statistics and export *)

Module ShoppingListView.
Import ShoppingListService.

Record ShoppingStats : Type := mkStats {
  total : Z;
  checked : Z;
  unchecked : Z;
  essentialLeft : Z;
  progress : Z
}.

Definition lf : string := JsString.char 10.

Fixpoint concatStrings (l : list string) : string :=
  match l with
  | [] => ""
  | x :: r => x +:+ concatStrings r
  end.

Definition countWhere (pred : ShoppingListItem -> bool) (items : list ShoppingListItem) : Z :=
  Z.of_nat (length (List.filter pred items)).

(** [item.essential && !item.isChecked] *)
Definition essentialAndOpen (item : ShoppingListItem) : bool :=
  truthy (essential item) && negb (isChecked item).

Section Stats.
(** [Math.round((checked / total) * 100)], computed in floating point by
    the host, for [total > 0]. *)
Variable roundPercent : Z -> Z -> Z.

(** [getShoppingStats] *)
Definition getShoppingStats (items : list ShoppingListItem) : ShoppingStats :=
  let total := Z.of_nat (length items) in
  let checked := countWhere isChecked items in
  let unchecked := total - checked in
  let essential := countWhere essentialAndOpen items in
  {| total := total;
     checked := checked;
     unchecked := unchecked;
     essentialLeft := essential;
     progress := if 0 <? total then roundPercent checked total else 0 |}.

Variable localeCompare : string -> string -> Z.
(** [s.toUpperCase()], the case mapping of the host *)
Variable toUpperCase : string -> string.

(** One line of the export: check box, name, amount, essential mark. *)
Definition itemLine (item : ShoppingListItem) : string :=
  (if isChecked item then "✅" else "☐") +:+ " " +:+ name item +:+ " ("
    +:+ jsToString (amount item) +:+ ")"
    +:+ (if truthy (essential item) then " ⭐" else "") +:+ lf.

Definition groupText (category : Group) : string :=
  group_icon category +:+ " " +:+ toUpperCase (group_name category) +:+ lf
    +:+ concatStrings (map itemLine (group_items category)) +:+ lf.

Definition exportHeader : string := "🛒 INDKØBSLISTE" +:+ lf +:+ lf.
Definition emptyExport : string := "Indkøbslisten er tom".

Definition statusLine (stats : ShoppingStats) : string :=
  "📊 Status: " +:+ pretty (checked stats) +:+ "/" +:+ pretty (total stats)
    +:+ " afkrydset (" +:+ pretty (progress stats) +:+ "%)".

(** [exportShoppingListAsText] *)
Definition exportShoppingListAsText (items : list ShoppingListItem) : result string :=
  match items with
  | [] => Ok emptyExport
  | _ =>
      grouped <-! groupShoppingListByCategory localeCompare items ;;
      Ok (exportHeader +:+ concatStrings (map groupText grouped)
            +:+ statusLine (getShoppingStats items))
  end.
End Stats.

End ShoppingListView.

(** ** screens/RecipesScreen.js: the suggestions computed without the
    generation service *)

Module RecipesScreen.
Import AiRecipeService.

Record StaticRecipe : Type := mkStatic {
  sr_id : Z;
  sr_title : string;
  sr_difficulty : string;
  sr_time : string;
  sr_priority : string;
  sr_description : string;
  sr_ingredients : list string;
  sr_searchQuery : string
}.

(** The catalog [recipes]. *)
Definition recipes : list StaticRecipe :=
  [ mkStatic 1 "Hurtig Pasta med Grøntsager" "easy" "15 min" "high"
      "En nem og hurtig pasta ret perfekt til at bruge grøntsager der snart udløber."
      ["pasta"; "grøntsager"; "olie"; "salt"] "hurtig pasta grøntsager opskrift";
    mkStatic 2 "Grøntsags Wok" "easy" "20 min" "high"
      "Wok med blandede grøntsager - perfekt til at redde grøntsager der snart udløber."
      ["grøntsager"; "olie"; "soja sauce"; "ingefær"] "grøntsags wok opskrift";
    mkStatic 3 "Smoothie med Frugt" "easy" "5 min" "medium"
      "Lækker smoothie til at bruge frugt der snart bliver for modent."
      ["frugt"; "yoghurt"; "mælk"; "honning"] "frugt smoothie opskrift";
    mkStatic 4 "Brød med Påskag" "easy" "10 min" "medium"
      "Klassiske påskagsmadder til morgenmad eller lunch."
      ["brød"; "påskag"; "smør"; "salt"] "brød påskag opskrift";
    mkStatic 5 "Omelet med Rester" "medium" "10 min" "high"
      "Perfekt måde at bruge æg og forskellige rester på."
      ["æg"; "mælk"; "grøntsager"; "ost"] "omelet rester opskrift";
    mkStatic 6 "Grøntsagssuppe" "medium" "30 min" "high"
      "Varmende suppe der kan bruge mange forskellige grøntsager og rester."
      ["grøntsager"; "bouillon"; "løg"; "krydderier"] "grøntsagssuppe rester opskrift";
    mkStatic 7 "Bananbrød" "medium" "60 min" "medium"
      "Perfekt til overmodne bananer. Lækker kage til kaffen."
      ["banan"; "mel"; "sukker"; "æg"; "smør"] "bananbrød opmodne bananer opskrift";
    mkStatic 8 "Stegt Ris med Rester" "easy" "15 min" "high"
      "Klassisk måde at bruge ris og grøntsager på."
      ["ris"; "grøntsager"; "æg"; "soja sauce"] "stegt ris rester opskrift";
    mkStatic 9 "Gratin med Kartofler" "medium" "45 min" "medium"
      "Cremet kartoffelgratin perfekt som tilbehør."
      ["kartoffel"; "fløde"; "ost"; "smør"] "kartoffel gratin opskrift";
    mkStatic 10 "Pandekager" "easy" "20 min" "medium"
      "Klassiske pandekager til mælk der snart udløber."
      ["mel"; "mælk"; "æg"; "sukker"] "pandekager grundopskrift" ].

Definition anyIn (words : list string) (itemName : string) : bool :=
  existsb (fun word => includes itemName word) words.

(** The callback of [prioritizedIngredients.find]: the item provides the
    ingredient. *)
Definition provides (ingredient : string) (item : Ingredient) : bool :=
  let itemName := toLowerCase (ing_name item) in
  let ingredientLower := toLowerCase ingredient in
  includes itemName ingredientLower
  || includes ingredientLower itemName
  || (JsString.eqb ingredient "grøntsager"
      && anyIn ["gulerod"; "løg"; "kartoffel"; "tomat"; "salat"; "peberfrugt"; "broccoli";
                "spinat"; "courgette"; "aubergine"] itemName)
  || (JsString.eqb ingredient "frugt"
      && anyIn ["æble"; "banan"; "appelsin"; "citron"; "pære"; "jordbær"; "blåbær"; "kiwi";
                "mango"; "ananas"] itemName)
  || (JsString.eqb ingredient "mælk"
      && anyIn ["mælk"; "yoghurt"; "fløde"; "kærnemælk"; "skummetmælk"] itemName)
  || (JsString.eqb ingredient "ost" && includes itemName "ost")
  || (JsString.eqb ingredient "æg" && includes itemName "æg")
  || (JsString.eqb ingredient "brød" && anyIn ["brød"; "toast"; "bagel"; "bolle"] itemName)
  || (JsString.eqb ingredient "pasta"
      && anyIn ["pasta"; "spaghetti"; "makaroni"; "penne"; "fusilli"] itemName)
  || (JsString.eqb ingredient "ris" && includes itemName "ris")
  || (JsString.eqb ingredient "mel" && anyIn ["mel"; "hvedemel"; "rugmel"] itemName)
  || (JsString.eqb ingredient "kartoffel" && anyIn ["kartoffel"; "kartofler"] itemName)
  || (JsString.eqb ingredient "løg" && anyIn ["løg"; "rødløg"; "hvidløg"] itemName)
  || (JsString.eqb ingredient "tomat" && anyIn ["tomat"; "tomater"; "cherrytomater"] itemName).

(** The loop over [recipe.ingredients]: for each ingredient the first
    item that provides it, when there is one. *)
Fixpoint matchedItems (ingredients : list string) (prioritizedIngredients : list Ingredient)
    : list Ingredient :=
  match ingredients with
  | [] => []
  | ingredient :: rest =>
      match List.find (provides ingredient) prioritizedIngredients with
      | Some found => found :: matchedItems rest prioritizedIngredients
      | None => matchedItems rest prioritizedIngredients
      end
  end.

(** What a matched item adds to the priority score. *)
Definition urgency (item : Ingredient) : Z :=
  if daysLeft item <=? 2 then 3 else if daysLeft item <=? 5 then 2 else 1.

Record Suggestion : Type := mkSuggestion {
  recipe : StaticRecipe;
  matchedIngredients : list Ingredient;
  matchScore : Z;
  priorityScore : Z;
  canMake : bool
}.

(** [Math.ceil(n * 0.5)], exact for a length *)
Definition halfUp (n : Z) : Z := (n + 1) / 2.

Definition suggest (prioritizedIngredients : list Ingredient) (r : StaticRecipe) : Suggestion :=
  let matched := matchedItems (sr_ingredients r) prioritizedIngredients in
  {| recipe := r;
     matchedIngredients := matched;
     matchScore := Z.of_nat (length matched);
     priorityScore :=
       fold_left (fun score item => score + urgency item) matched (Z.of_nat (length matched));
     canMake := halfUp (Z.of_nat (length (sr_ingredients r))) <=? Z.of_nat (length matched) |}.

Definition compareSuggestions (a b : Suggestion) : option Z :=
  if negb (priorityScore b =? priorityScore a)
  then Some (priorityScore b - priorityScore a)
  else Some (matchScore b - matchScore a).

(** The suggestions when the generation service gave none. *)
Definition mockSuggestions (prioritizedIngredients : list Ingredient) : list Suggestion :=
  match prioritizedIngredients with
  | [] => []
  | _ =>
      sortBy compareSuggestions
        (List.filter (fun s => 0 <? matchScore s)
           (map (suggest prioritizedIngredients) recipes))
  end.

(** The order wanted: higher priority score first, then higher match
    score. *)
Definition suggestionBefore (a b : Suggestion) : Prop :=
  priorityScore b < priorityScore a
  \/ (priorityScore a = priorityScore b /\ matchScore b <= matchScore a).

(** An inventory item with its days left, as the screen derives it. *)
Definition qtyIsPositive (item : Ingredient) : bool := 0 <? qty item.

Definition compareUrgency (a b : Ingredient) : option Z :=
  if negb (daysLeft a =? daysLeft b) then Some (daysLeft a - daysLeft b)
  else Some (qty b - qty a).

(** [prioritizedIngredients]: the items in stock, the soonest to expire
    first and, among those, the larger quantity first. *)
Definition prioritize (items : list Ingredient) : list Ingredient :=
  sortBy compareUrgency (List.filter qtyIsPositive items).

Definition urgentBefore (a b : Ingredient) : Prop :=
  daysLeft a < daysLeft b \/ (daysLeft a = daysLeft b /\ qty b <= qty a).

End RecipesScreen.

(** ** context/AppContext.js: the items *)

Module AppItems.
Import CategoryStorage AppContext.

(** The object given to [addItem]. *)
Record ItemData : Type := mkItemData {
  data_name : string;
  data_qty : Z;
  data_expiryDate : string;
  data_categoryId : option string;
  data_barcode : option string;
  data_imageUrl : option string
}.

Section Items.
(** [scheduleExpiryNotification]: the identifier of the reminder, [None]
    when none was scheduled. *)
Variable schedule : FoodItem -> option string.

Definition truthyId (n : option string) : option string :=
  match n with
  | Some v => if JsString.eqb v "" then None else Some v
  | None => None
  end.

(** The object [item] of [addItem], before a reminder is scheduled. *)
Definition newItem (dateNow : string) (itemData : ItemData) : FoodItem :=
  {| item_id := dateNow;
     item_name := data_name itemData;
     item_qty := data_qty itemData;
     expiryDate := data_expiryDate itemData;
     categoryId := default "pantry" (data_categoryId itemData);
     barcode := data_barcode itemData;
     imageUrl := data_imageUrl itemData;
     notificationId := None |}.

(** [addItem]: the items afterwards. *)
Definition addItem (dateNow : string) (itemData : ItemData) (items : list FoodItem)
    : list FoodItem :=
  let item := newItem dateNow itemData in
  let scheduled :=
    {| item_id := item_id item; item_name := item_name item; item_qty := item_qty item;
       expiryDate := expiryDate item; categoryId := categoryId item;
       barcode := barcode item; imageUrl := imageUrl item;
       notificationId := truthyId (schedule item) |} in
  (items ++ [scheduled])%list.

(** [deleteItem]: the reminder that is cancelled, if any, and the items
    afterwards. *)
Definition deleteItem (id : string) (items : list FoodItem)
    : option string * list FoodItem :=
  let item := List.find (fun x => JsString.eqb (item_id x) id) items in
  (match item with
   | Some found => truthyId (notificationId found)
   | None => None
   end,
   List.filter (fun x => negb (JsString.eqb (item_id x) id)) items).

(** [rescheduleAllNotifications] as [rescheduleAll] uses it: every item
    gets the reminder scheduled for it now. *)
Definition rescheduleAll (items : list FoodItem) : list FoodItem :=
  map (fun item =>
         {| item_id := item_id item; item_name := item_name item; item_qty := item_qty item;
            expiryDate := expiryDate item; categoryId := categoryId item;
            barcode := barcode item; imageUrl := imageUrl item;
            notificationId := schedule item |}) items.
End Items.

(** The category list of the state is the stored one. *)
Definition inSync (s : AppState) : Prop :=
  fst (loadCategories (storage s)) = categories s.

(** No item references a category that is not in the category list. *)
Definition noOrphans (s : AppState) : Prop :=
  Forall (fun item => In (categoryId item) (categoryIds s)) (items s).

End AppItems.

(** ** services/api.js *)

Module ProductLookup.
Import AiRecipeService.

Record Product : Type := mkProduct {
  displayName : json;
  imageUrl : json
}.

Fixpoint digitsValue (s : string) (acc : Z) : Z :=
  match s with
  | EmptyString => acc
  | String c r => digitsValue r (10 * acc + (Z.of_nat (nat_of_ascii c) - 48))
  end.

Fixpoint untilChar (stop : ascii -> bool) (s : string) : string * string :=
  match s with
  | EmptyString => (EmptyString, EmptyString)
  | String c r =>
      if stop c then (EmptyString, s)
      else let '(a, b) := untilChar stop r in (String c a, b)
  end.

(** The value of a number lexeme is 1. *)
Definition lexemeIsOne (lex : string) : bool :=
  match lex with
  | String "-"%char _ => false
  | _ =>
      let '(mantissa, expPart) :=
        untilChar (fun c => Ascii.eqb c "e" || Ascii.eqb c "E") lex in
      let '(intDigits, fracPart) := untilChar (fun c => Ascii.eqb c ".") mantissa in
      let fracDigits := dropN 1 fracPart in
      let exponent :=
        match dropN 1 expPart with
        | String "-"%char d => - digitsValue d 0
        | String "+"%char d => digitsValue d 0
        | d => digitsValue d 0
        end in
      let digits := digitsValue (intDigits +:+ fracDigits) 0 in
      let scale := exponent - Z.of_nat (String.length fracDigits) in
      if 0 <=? scale then (digits =? 1) && (scale =? 0)
      else digits =? 10 ^ (- scale)
  end.

(** [v !== 1] is false *)
Definition isOne (v : jsval) : bool :=
  match v with
  | Some (JNum lex) => lexemeIsOne lex
  | _ => false
  end.

Definition orNull (v : jsval) : json := default JNull v.

Section Lookup.
Variable encodeURIComponent : string -> string.
(** The network: what a GET of a URL comes to. *)
Variable fetch : string -> FetchOutcome.

Definition endpoints (barcode : string) : list string :=
  [ "https://world.openfoodfacts.org/api/v2/product/" +:+ encodeURIComponent barcode
      +:+ ".json";
    "https://world.openfoodfacts.org/api/v0/product/" +:+ encodeURIComponent barcode
      +:+ ".json" ].

(** The body of the [try] block for one endpoint; [Err] stands for an
    exception, [Ok None] for [continue]. *)
Definition askEndpoint (barcode endpoint : string) : result (option Product) :=
  match fetch endpoint with
  | FetchAborted => Err timedOut
  | FetchFailed msg => Err msg
  | FetchResponse status body =>
      if negb (responseOk status) then Ok None
      else
        data <-! Json.parse body ;;
        status' <-! getProp (Some data) "status" ;;
        if negb (isOne status') then Ok None
        else
          product <-! getProp (Some data) "product" ;;
          if negb (truthy product) then Ok None
          else
            productName <-! getProp product "product_name" ;;
            imageUrl' <-! getProp product "image_url" ;;
            imageFront <-!
              (if truthy imageUrl' then Ok None else getProp product "image_front_url") ;;
            Ok (Some {| displayName :=
                          default JNull (jsOr productName (Some (JStr ("Produkt " +:+ barcode))));
                        imageUrl := orNull (jsOr (jsOr imageUrl' imageFront) (Some JNull)) |})
  end.

Fixpoint askAll (barcode : string) (urls : list string) : option Product :=
  match urls with
  | [] => None
  | endpoint :: rest =>
      match askEndpoint barcode endpoint with
      | Ok (Some product) => Some product
      | _ => askAll barcode rest
      end
  end.

(** [lookupOpenFoodFacts]; [None] is [null]. *)
Definition lookupOpenFoodFacts (barcode : option string) : option Product :=
  match barcode with
  | None => None
  | Some code =>
      if JsString.eqb (trim code) "" then None
      else askAll code (endpoints code)
  end.
End Lookup.

End ProductLookup.

(** ** screens/ShoppingListScreen.js: the handlers *)

Module ShoppingListScreen.
Import ShoppingListService.

(** What the user does on the screen; [confirmed] is the answer to the
    confirmation dialog. *)
Inductive ScreenAction : Type :=
| AddItem (clk : Clock) (newItemName newItemAmount : string)
| ToggleItem (itemId : string)
| RemoveItem (itemId : string) (confirmed : bool)
| ClearChecked (confirmed : bool)
| ClearAll (confirmed : bool).

(** [handleAddItem]: a blank name is refused. *)
Definition handleAddItem (clk : Clock) (newItemName newItemAmount : string)
    (shoppingList : Store) : Store :=
  if JsString.eqb (trim newItemName) "" then shoppingList
  else
    let item :=
      {| in_name := trim newItemName;
         in_amount :=
           Some (JStr (if JsString.eqb (trim newItemAmount) "" then "1 stk"
                       else trim newItemAmount));
         in_category := None;
         in_categoryIcon := None;
         in_priority := None;
         in_source := Some source_manual;
         in_recipeId := None;
         in_recipeName := None;
         in_essential := None |} in
    addToShoppingList clk item shoppingList.

(** [handleClearChecked]: nothing is asked when no entry is checked. *)
Definition handleClearChecked (confirmed : bool) (shoppingList : Store) : Store :=
  let checkedCount := length (List.filter isChecked shoppingList) in
  if (checkedCount =? 0)%nat then shoppingList
  else if confirmed then clearCheckedItems shoppingList
  else shoppingList.

(** [handleClearAll] *)
Definition handleClearAll (confirmed : bool) (shoppingList : Store) : Store :=
  if (length shoppingList =? 0)%nat then shoppingList
  else if confirmed then clearShoppingList shoppingList
  else shoppingList.

Definition handle (a : ScreenAction) (shoppingList : Store) : Store :=
  match a with
  | AddItem clk newItemName newItemAmount =>
      handleAddItem clk newItemName newItemAmount shoppingList
  | ToggleItem itemId => toggleShoppingItem itemId shoppingList
  | RemoveItem itemId confirmed =>
      if confirmed then removeFromShoppingList itemId shoppingList else shoppingList
  | ClearChecked confirmed => handleClearChecked confirmed shoppingList
  | ClearAll confirmed => handleClearAll confirmed shoppingList
  end.

(** The list after the actions [actions], from the empty list. *)
Definition afterActions (actions : list ScreenAction) : Store :=
  fold_left (fun shoppingList a => handle a shoppingList) actions [].

(** An entry as the screen makes them: a trimmed name that is not
    empty, an amount that is a text and is not empty, made by hand, not
    essential, and with the priority medium or none. *)
Definition handMade (e : ShoppingListItem) : Prop :=
  name e = trim (name e)
  /\ name e <> ""
  /\ (exists a, amount e = Some (JStr a) /\ a <> "")
  /\ source e = source_manual
  /\ truthy (essential e) = false
  /\ (priority e = Some medium \/ priority e = None).

End ShoppingListScreen.

(** ** Predicates and sample data of the further properties *)

Module Views.

Definition isLower (c : ascii) : bool :=
  let n := nat_of_ascii c in (97 <=? n)%nat && (n <=? 122)%nat.

(** A case mapping that maps the letters a to z and leaves every other
    byte. *)
Fixpoint upperAscii (s : string) : string :=
  match s with
  | EmptyString => EmptyString
  | String c r =>
      String (if isLower c then ascii_of_nat (nat_of_ascii c - 32) else c) (upperAscii r)
  end.

(** A rounding of the exact quotient to the nearest percent, halves up. *)
Definition roundExact (checked total : Z) : Z := (200 * checked + total) / (2 * total).

(** The icon of the group [g] is that of the first item of its category
    in [seen]. *)
Definition iconFrom (seen : list ShoppingListService.ShoppingListItem)
    (g : ShoppingListService.Group) : Prop :=
  exists first,
    List.find (fun item => JsString.eqb (ShoppingListService.categoryOf item)
                             (ShoppingListService.group_name g)) seen = Some first
    /\ ShoppingListService.group_icon g = ShoppingListService.iconOf first.

(** Two states of one entry: the identifier, the name, the category
    and the origin are the same. *)
Definition sameEntry (e e' : ShoppingListService.ShoppingListItem) : Prop :=
  ShoppingListService.id e' = ShoppingListService.id e
  /\ ShoppingListService.name e' = ShoppingListService.name e
  /\ ShoppingListService.category e' = ShoppingListService.category e
  /\ ShoppingListService.categoryIcon e' = ShoppingListService.categoryIcon e
  /\ ShoppingListService.source e' = ShoppingListService.source e
  /\ ShoppingListService.recipeId e' = ShoppingListService.recipeId e
  /\ ShoppingListService.recipeName e' = ShoppingListService.recipeName e.

(** The entry at every index of [l] is at the same index of [l']. *)
Definition keepsEntries (l l' : ShoppingListService.Store) : Prop :=
  forall i e, l !! i = Some e -> exists e', l' !! i = Some e' /\ sameEntry e e'.

(** An unchecked entry that names the recipe it comes from. *)
Definition fromRecipe (recipe : ShoppingListService.RecipeArg)
    (e : ShoppingListService.ShoppingListItem) : Prop :=
  ShoppingListService.isChecked e = false
  /\ ShoppingListService.source e = ShoppingListService.source_recipe
  /\ ShoppingListService.recipeId e = ShoppingListService.arg_id recipe
  /\ ShoppingListService.recipeName e = ShoppingListService.arg_title recipe.

(** [l'] is [l] with entries updated in place and entries of the recipe
    appended. *)
Definition extends (recipe : ShoppingListService.RecipeArg)
    (l l' : ShoppingListService.Store) : Prop :=
  (length l <= length l')%nat
  /\ forall i e', l' !! i = Some e' ->
       (exists e, l !! i = Some e /\ sameEntry e e'
                  /\ (fromRecipe recipe e -> fromRecipe recipe e'))
       \/ ((length l <= i)%nat /\ fromRecipe recipe e').

(** A generated recipe that misses one ingredient. *)
Definition creamSoup : ShoppingListService.RecipeArg :=
  ShoppingListService.mkRecipeArg (Some (JStr "ai-recipe-1700000000000-0"))
    (Some (JStr "Tomatsuppe"))
    (Some [JObj [("name", JStr "Fløde"); ("amount", JStr "1 dl"); ("essential", JBool true)]]).

(** What every recipe returned by [parseRecipeResponse] satisfies. *)
Definition normalized (r : AiRecipeService.Recipe) : Prop :=
  In (AiRecipeService.difficulty r) ["easy"; "medium"; "hard"]
  /\ In (AiRecipeService.priority r) ["high"; "medium"; "low"]
  /\ AiRecipeService.source r = "AI Generated"
  /\ AiRecipeService.matchedIngredients r = []
  /\ AiRecipeService.matchScore r = None
  /\ truthy (Some (AiRecipeService.id r)) = true
  /\ truthy (Some (AiRecipeService.title r)) = true
  /\ truthy (Some (AiRecipeService.time r)) = true
  /\ truthy (Some (AiRecipeService.description r)) = true.

(** A network whose answer has a recipe with an ingredient that has no
    name, and that recipe as the parser returns it. *)
Definition unnamedFetch (url prompt : string) : AiRecipeService.FetchOutcome :=
  AiRecipeService.FetchResponse 200
    (AiRecipeService.withQuotes
       "{'choices':[{'message':{'content':'[{\'title\':\'Suppe\',\'ingredientsAvailable\':[{\'amount\':\'2 dl\'}]}]'}}]}").

Definition unnamedRecipe : AiRecipeService.Recipe :=
  {| AiRecipeService.id := JStr "ai-recipe-1700000000000-0";
     AiRecipeService.title := JStr "Suppe";
     AiRecipeService.difficulty := "medium";
     AiRecipeService.time := JStr "30 min";
     AiRecipeService.priority := "medium";
     AiRecipeService.description := JStr "Lækker hjemmelavet ret";
     AiRecipeService.usedIngredients := [JObj [("amount", JStr "2 dl")]];
     AiRecipeService.missingIngredients := [];
     AiRecipeService.instructions := [JStr "Se online opskrift for instruktioner"];
     AiRecipeService.tips := JStr "";
     AiRecipeService.source := "AI Generated";
     AiRecipeService.matchedIngredients := [];
     AiRecipeService.matchScore := None |}.

(** The category actions other than a confirmed deletion in the
    management modal and an edit that changes an identifier. *)
Definition safeAction (a : AppContext.CategoryAction) : Prop :=
  match a with
  | AppContext.ScreenDelete _ _ => True
  | AppContext.ModalDelete _ confirmed => confirmed = false
  | AppContext.ModalAdd _ _ => True
  | AppContext.ModalEdit _ updates => CategoryStorage.upd_id updates = None
  end.

Definition cream : AiRecipeService.Ingredient :=
  {| AiRecipeService.ing_name := "Fløde"; AiRecipeService.qty := 1;
     AiRecipeService.daysLeft := 2 |}.

(** What a suggestion of the recipes screen carries, for the inventory
    it was computed from. *)
Definition scored (inventory : list AiRecipeService.Ingredient)
    (s : RecipesScreen.Suggestion) : Prop :=
  let declared := Z.of_nat (length (RecipesScreen.sr_ingredients (RecipesScreen.recipe s))) in
  RecipesScreen.matchScore s = Z.of_nat (length (RecipesScreen.matchedIngredients s))
  /\ RecipesScreen.matchScore s <= declared
  /\ 2 * RecipesScreen.matchScore s <= RecipesScreen.priorityScore s
     <= 4 * RecipesScreen.matchScore s
  /\ (RecipesScreen.canMake s = true <-> declared <= 2 * RecipesScreen.matchScore s)
  /\ Forall (fun item => In item inventory) (RecipesScreen.matchedIngredients s).

(** What the add form hands to [addItem]. *)
Definition yoghurt : AppItems.ItemData :=
  AppItems.mkItemData "Yoghurt" 2 "2026-02-03" (Some "fridge") (Some "") None.

(** An encoding that leaves digits as they are, and a network on which
    only the older interface knows the product. *)
Definition plainEncode (s : string) : string := s.

Definition olderApiOnly (url : string) : AiRecipeService.FetchOutcome :=
  if includes url "/api/v2/" then AiRecipeService.FetchResponse 404 "{}"
  else AiRecipeService.FetchResponse 200
         (AiRecipeService.withQuotes
            "{'status':1,'product':{'product_name':'','image_front_url':'https://images.example/5701234.jpg'}}").

(** Text of ASCII characters only. On such text the lower case and the
    trimming of the host are those of [JsString]. *)
Definition isAscii (c : ascii) : bool := (nat_of_ascii c <? 128)%nat.

Fixpoint asciiText (s : string) : bool :=
  match s with
  | EmptyString => true
  | String c r => isAscii c && asciiText r
  end.

Definition asciiAdd (a : ShoppingListService.Clock * ShoppingListService.ItemInput) : Prop :=
  asciiText (ShoppingListService.in_name (snd a)) = true.

Definition asciiEntry (e : ShoppingListService.ShoppingListItem) : Prop :=
  asciiText (ShoppingListService.name e) = true.

Definition asciiIngredient (ingredient : json) : Prop :=
  forall n, getProp (Some ingredient) "name" = Ok (Some (JStr n)) -> asciiText n = true.

(** A recipe that misses two ingredients, the second without amount. *)
Definition riceDish : ShoppingListService.RecipeArg :=
  ShoppingListService.mkRecipeArg (Some (JStr "ai-recipe-1700000000000-1"))
    (Some (JStr "Risret"))
    (Some [ JObj [("name", JStr "SALT "); ("amount", JStr "1 tsk")];
            JObj [("name", JStr "Ris")] ]).

(** An answer whose recipe declares its ingredient under
    [usedIngredients], in the form the prompt asks for, and a network
    that gives it. *)
Definition usedAnswer : string :=
  AiRecipeService.withQuotes
    "[{'title':'Tomatsalat','usedIngredients':[{'name':'Tomat','amount':'4 stk'}]}]".

Definition usedFetch (url prompt : string) : AiRecipeService.FetchOutcome :=
  AiRecipeService.FetchResponse 200
    (AiRecipeService.withQuotes
       "{'choices':[{'message':{'content':'[{\'title\':\'Tomatsalat\',\'usedIngredients\':[{\'name\':\'Tomat\',\'amount\':\'4 stk\'}]}]'}}]}").



End Views.

(** * Properties *)

(** ** Strings *)

Module StringProps.

Lemma isSpace_lowerChar (c : ascii) : isSpace (lowerChar c) = isSpace c.
Proof.
  destruct c as [b0 b1 b2 b3 b4 b5 b6 b7].
  destruct b0, b1, b2, b3, b4, b5, b6, b7; reflexivity.
Qed.

Lemma toLowerCase_trimStart (s : string) :
  toLowerCase (trimStart s) = trimStart (toLowerCase s).
Proof.
  induction s as [| c r IH]; [reflexivity |].
  cbn [trimStart toLowerCase]. rewrite isSpace_lowerChar.
  destruct (isSpace c); [exact IH | reflexivity].
Qed.

Lemma toLowerCase_empty (s : string) : toLowerCase s = "" <-> s = "".
Proof. destruct s; simpl; split; congruence. Qed.

Lemma toLowerCase_trimEnd (s : string) :
  toLowerCase (trimEnd s) = trimEnd (toLowerCase s).
Proof.
  induction s as [| c r IH]; [reflexivity |].
  cbn [trimEnd toLowerCase]. rewrite <- IH, isSpace_lowerChar.
  destruct (trimEnd r) as [| d t]; [| reflexivity].
  cbn [toLowerCase]. now destruct (isSpace c).
Qed.

Lemma toLowerCase_trim (s : string) : toLowerCase (trim s) = trim (toLowerCase s).
Proof. unfold trim. now rewrite toLowerCase_trimEnd, toLowerCase_trimStart. Qed.

Lemma trimEnd_idempotent (s : string) : trimEnd (trimEnd s) = trimEnd s.
Proof.
  induction s as [| c r IH]; [reflexivity |].
  cbn [trimEnd]. destruct (trimEnd r) as [| d t] eqn:E.
  - destruct (isSpace c) eqn:Ec; [reflexivity |]. cbn [trimEnd]. now rewrite Ec.
  - cbn [trimEnd] in *. rewrite IH. reflexivity.
Qed.

(** A string that does not begin with white space. *)
Lemma trimStart_fixed (s : string) : trimStart (trimStart s) = trimStart s.
Proof.
  induction s as [| c r IH]; [reflexivity |].
  cbn [trimStart]. destruct (isSpace c) eqn:Ec; [exact IH |].
  cbn [trimStart]. now rewrite Ec.
Qed.

Lemma trimStart_trimEnd (s : string) :
  trimStart s = s -> trimStart (trimEnd s) = trimEnd s.
Proof.
  destruct s as [| c r]; [reflexivity |].
  cbn [trimStart]. destruct (isSpace c) eqn:Ec.
  - intros H. exfalso.
    assert (Hlen : forall t, (String.length (trimStart t) <= String.length t)%nat).
    { induction t as [| d t IHt]; simpl; [lia |]. destruct (isSpace d); simpl; lia. }
    specialize (Hlen r). rewrite H in Hlen. simpl in Hlen. lia.
  - intros _. cbn [trimEnd]. destruct (trimEnd r); rewrite ?Ec; cbn [trimStart];
      now rewrite Ec.
Qed.

Lemma trim_idempotent (s : string) : trim (trim s) = trim s.
Proof.
  unfold trim. rewrite trimStart_trimEnd by apply trimStart_fixed.
  apply trimEnd_idempotent.
Qed.

End StringProps.

(** ** The sort *)

Module SortProps.

Section SortBy.
Context {A : Type} (cmp : A -> A -> option Z).

Lemma insertSorted_Permutation (x : A) (l : list A) :
  Permutation (insertSorted cmp x l) (x :: l).
Proof.
  induction l as [| y r IH]; simpl; [reflexivity |].
  destruct (nanToZero (cmp x y) <=? 0); [reflexivity |].
  rewrite IH. apply perm_swap.
Qed.

Lemma sortBy_Permutation (l : list A) : Permutation (sortBy cmp l) l.
Proof.
  induction l as [| x r IH]; simpl; [reflexivity |].
  rewrite insertSorted_Permutation. now constructor.
Qed.

Lemma sortBy_length (l : list A) : length (sortBy cmp l) = length l.
Proof. apply Permutation_length, sortBy_Permutation. Qed.

(** The comparator is consistent on the values that satisfy [P]. *)
Variable P : A -> Prop.
Hypothesis total : forall a b, P a -> P b -> cmpLe cmp a b \/ cmpLe cmp b a.
Hypothesis trans :
  forall a b c, P a -> P b -> P c -> cmpLe cmp a b -> cmpLe cmp b c -> cmpLe cmp a c.

Lemma cmpLeOn_trans (a b c : A) :
  cmpLeOn P cmp a b -> cmpLeOn P cmp b c -> cmpLeOn P cmp a c.
Proof.
  intros [Pa [Pb Hab]] [_ [Pc Hbc]]. repeat split; try assumption.
  now apply (trans a b c).
Qed.

Lemma insertSorted_HdRel (x y : A) (r : list A) :
  cmpLeOn P cmp y x -> HdRel (cmpLeOn P cmp) y r ->
  HdRel (cmpLeOn P cmp) y (insertSorted cmp x r).
Proof.
  intros Hyx Hr. destruct r as [| z r]; simpl; [now constructor |].
  destruct (nanToZero (cmp x z) <=? 0); constructor; [assumption |].
  now apply HdRel_inv in Hr.
Qed.

Lemma insertSorted_Sorted (x : A) (l : list A) :
  P x -> Forall P l -> Sorted (cmpLeOn P cmp) l ->
  Sorted (cmpLeOn P cmp) (insertSorted cmp x l).
Proof.
  intros Px. induction l as [| y r IH]; intros Hall Hs; simpl.
  - repeat constructor.
  - apply Forall_cons_iff in Hall as [Py Hall].
    apply Sorted_inv in Hs as [Hs Hhd].
    destruct (nanToZero (cmp x y) <=? 0) eqn:E.
    + constructor; [now constructor |]. constructor.
      repeat split; try assumption. unfold cmpLe. lia.
    + constructor; [now apply IH |].
      apply insertSorted_HdRel; [| assumption].
      repeat split; try assumption.
      destruct (total x y Px Py) as [H | H]; [unfold cmpLe in H; lia | assumption].
Qed.

Lemma sortBy_Sorted (l : list A) :
  Forall P l -> Sorted (cmpLeOn P cmp) (sortBy cmp l).
Proof.
  induction l as [| x r IH]; intros Hall; simpl; [constructor |].
  apply Forall_cons_iff in Hall as [Px Hall].
  apply insertSorted_Sorted; [assumption | | now apply IH].
  eapply Permutation_Forall; [symmetry; apply sortBy_Permutation | assumption].
Qed.

(** On a list of such values the result is sorted: every element is
    before every later one. *)
Lemma sortBy_StronglySorted (l : list A) :
  Forall P l -> StronglySorted (cmpLeOn P cmp) (sortBy cmp l).
Proof.
  intros Hall. apply Sorted_StronglySorted; [| now apply sortBy_Sorted].
  intros a b c. apply cmpLeOn_trans.
Qed.
End SortBy.

Lemma StronglySorted_weaken {A : Type} (R R' : A -> A -> Prop) (l : list A) :
  (forall a b, R a b -> R' a b) -> StronglySorted R l -> StronglySorted R' l.
Proof.
  intros Himp Hs. induction Hs as [| a r _ IH Hhd]; constructor; [assumption |].
  eapply Forall_impl; [exact Hhd |]. intros b. apply Himp.
Qed.

Lemma concat_map_Permutation {A B : Type} (f : A -> list B) (l l' : list A) :
  Permutation l l' -> Permutation (concat (map f l)) (concat (map f l')).
Proof.
  induction 1 as [| x l l' _ IH | x y l | l l' l'' _ IH1 _ IH2]; simpl.
  - reflexivity.
  - now apply Permutation_app_head.
  - rewrite !app_assoc. apply Permutation_app_tail, Permutation_app_comm.
  - now transitivity (concat (map f l')).
Qed.

Lemma concat_map_Permutation_inner {A B : Type} (f g : A -> list B) (l : list A) :
  (forall x, In x l -> Permutation (f x) (g x)) ->
  Permutation (concat (map f l)) (concat (map g l)).
Proof.
  induction l as [| x r IH]; intros H; simpl; [reflexivity |].
  apply Permutation_app; [apply H; now left |].
  apply IH. intros y Hy. apply H. now right.
Qed.

End SortProps.

(** ** Categories and the items that reference them *)

Module CategoryProps.
Import CategoryStorage AppContext Samples.

Lemma eqb_true_iff (a b : string) : JsString.eqb a b = true <-> a = b.
Proof. unfold JsString.eqb. apply String.eqb_eq. Qed.

Lemma eqb_false_iff (a b : string) : JsString.eqb a b = false <-> a <> b.
Proof. unfold JsString.eqb. apply String.eqb_neq. Qed.

(** After [deleteCategory] no stored category bears the deleted id. *)
Lemma deleteCategory_gone (cid : string) (st : Storage) :
  ~ In cid (map id (fst (deleteCategory cid st))).
Proof.
  unfold deleteCategory. destruct (loadCategories st) as [cats st1]. simpl.
  rewrite in_map_iff. intros [c [Hid Hin]].
  apply filter_In in Hin. destruct Hin as [_ Hne].
  apply Bool.negb_true_iff, eqb_false_iff in Hne. congruence.
Qed.

(** The categories with another id are all kept, in their order. *)
Lemma deleteCategory_others (cid : string) (st : Storage) :
  fst (deleteCategory cid st)
  = List.filter (fun cat => negb (JsString.eqb (id cat) cid)) (fst (loadCategories st)).
Proof.
  unfold deleteCategory. destruct (loadCategories st) as [cats st1]. reflexivity.
Qed.

(** [removeCategory] leaves no item in the removed category, whenever the
    removed category is not ['pantry'] itself: each such item now carries
    the identifier ['pantry']. *)
Lemma removeCategory_reassigns (cid : string) (s : AppState) :
  items (removeCategory cid s)
  = map (fun item => if JsString.eqb (categoryId item) cid
                     then withCategory item "pantry" else item) (items s).
Proof.
  unfold removeCategory. destruct (deleteCategory cid (storage s)). reflexivity.
Qed.

Lemma removeCategory_no_reference (cid : string) (s : AppState) (item : FoodItem) :
  cid <> "pantry" ->
  In item (items (removeCategory cid s)) -> categoryId item <> cid.
Proof.
  intros Hp. rewrite removeCategory_reassigns, in_map_iff.
  intros [it [Heq _]]. destruct (JsString.eqb (categoryId it) cid) eqn:E.
  - subst item. simpl. congruence.
  - subst item. now apply eqb_false_iff.
Qed.

(** The guard of the categories screen: there, a default category is
    never removed. *)
Lemma screenDelete_default (category : Category) (confirmed : bool) (s : AppState) :
  isDefaultCategory (id category) = true ->
  screenDelete category confirmed s = s.
Proof. intros H. unfold screenDelete. now rewrite H. Qed.

(** The categories screen removes no category that still holds items. *)
Lemma screenDelete_nonempty (category : Category) (confirmed : bool) (s : AppState) :
  itemsInCategory (id category) s <> [] ->
  screenDelete category confirmed s = s.
Proof.
  intros H. unfold screenDelete.
  destruct (isDefaultCategory (id category)); [reflexivity |].
  destruct (itemsInCategory (id category) s); [congruence | reflexivity].
Qed.

(** C4. Deleting the user-made category of [pantryState] through the
    category management dialog removes the category and gives its item
    the identifier ['pantry']; no category of that identifier is in the
    category list, so the item is left referencing an absent category. *)
Theorem removeCategory_orphans_items :
  let s' := act (ModalDelete "1700000000000" true) pantryState in
  categoryIds s' = ["fridge"; "freezer"]
  /\ items s' = [withCategory pepper "pantry"]
  /\ Forall (fun item => orphaned s' item = true) (items s')
  /\ Forall (fun item => orphaned pantryState item = false) (items pantryState).
Proof.
  cbv zeta. repeat split.
  - repeat constructor.
  - repeat constructor.
Qed.

(** C5. Confirming the deletion of ["freezer"] in the category management
    dialog, from the state the application starts in, removes that default
    category from the list and from the storage; the categories screen
    ignores the same request. *)
Theorem default_category_deleted :
  let s' := run [ModalDelete "freezer" true] initialState in
  categoryIds s' = ["fridge"]
  /\ storage s' = Some [ {| id := "fridge"; name := "Køleskab"; icon := "❄️" |} ]
  /\ fst (loadCategories (storage s')) = categories s'
  /\ isDefaultCategory "freezer" = true
  /\ forall category confirmed,
       id category = "freezer" ->
       run [ScreenDelete category confirmed] initialState = initialState.
Proof.
  cbv zeta. repeat split.
  intros category confirmed Hid. simpl.
  apply screenDelete_default. now rewrite Hid.
Qed.

End CategoryProps.

(** ** The recipe pipeline *)

Module RecipeProps.
Import AiConfig AiRecipeService Samples.

Section Policy.
Variable cfg : AIConfig.
Variable fetch : string -> string -> FetchOutcome.
Variable dateNow : nat -> string.



(** With fallback enabled the orchestrator never raises an error. *)
Lemma fallback_total (ings : option (list Ingredient)) (prefs : Preferences) :
  enableFallback cfg = true ->
  generateRecipeSuggestions cfg fetch dateNow ings prefs
  = match tryGenerate cfg fetch dateNow ings prefs with
    | Ok recipes => Ok recipes
    | Err _ => Ok (getFallbackRecipes ings)
    end.
Proof. intros H. unfold generateRecipeSuggestions. now rewrite H. Qed.


(** C9. With fallback enabled, a call with a missing or an empty
    ingredient list raises the validation error inside the [try]
    block only: the caller receives the fallback catalog, whose used
    and matched ingredient lists are empty. *)
Theorem empty_ingredients_fall_back (ings : option (list Ingredient))
    (prefs : Preferences)
    (Hfb : enableFallback cfg = true)
    (Hempty : ings = None \/ ings = Some []) :
  tryGenerate cfg fetch dateNow ings prefs = Err noIngredients
  /\ generateRecipeSuggestions cfg fetch dateNow ings prefs
     = Ok (getFallbackRecipes ings)
  /\ length (getFallbackRecipes ings) = 2%nat
  /\ Forall (fun r => usedIngredients r = [] /\ matchedIngredients r = [])
       (getFallbackRecipes ings).
Proof.
  destruct Hempty as [-> | ->];
    (split; [reflexivity |]; split;
     [unfold generateRecipeSuggestions; simpl; now rewrite Hfb |];
     split; [reflexivity |]; repeat constructor).
Qed.
End Policy.


Lemma empty_ingredients_fall_back_witness :
  generateRecipeSuggestions referenceConfig abortingFetch fixedNow (Some []) anyDifficulty
  = Ok (getFallbackRecipes (Some []))
  /\ generateRecipeSuggestions referenceConfig abortingFetch fixedNow None anyDifficulty
     = Ok (getFallbackRecipes None).
Proof.
  split.
  - apply (empty_ingredients_fall_back referenceConfig abortingFetch fixedNow
             (Some []) anyDifficulty); [reflexivity | now right].
  - apply (empty_ingredients_fall_back referenceConfig abortingFetch fixedNow
             None anyDifficulty); [reflexivity | now left].
Defined.

(** *** The response parser *)

Lemma getProp_not_null (v : json) (key : string) :
  v <> JNull -> exists o, getProp (Some v) key = Ok o.
Proof. destruct v; simpl; eauto. congruence. Qed.

Lemma ingredient_names_ok (available : list json) :
  ~ In JNull available ->
  exists names, mapR ingredientName available = Ok names.
Proof.
  induction available as [| ing rest IH]; intros Hnull; cbn [mapR].
  - eauto.
  - unfold ingredientName at 1.
    destruct (getProp_not_null ing "name") as [o ->].
    { intros ->. apply Hnull. now left. }
    destruct IH as [names ->]; [intros Hin; apply Hnull; now right |].
    simpl. eauto.
Qed.

(** The normalization of one element succeeds unless the element is
    [null] or its [ingredientsAvailable] array holds a [null]. *)
Lemma normalizeRecipe_ok (dateNow : nat -> string) (index : nat) (recipe : json) :
  recipe <> JNull ->
  (forall available,
     getProp (Some recipe) "ingredientsAvailable" = Ok (Some (JArr available)) ->
     ~ In JNull available) ->
  exists r, normalizeRecipe dateNow index recipe = Ok r.
Proof.
  intros Hnull Havail. unfold normalizeRecipe.
  destruct recipe as [| b | lex | str | items | fields]; try congruence;
    try (simpl; eauto; fail).
  simpl in *.
  destruct (lookupField "ingredientsAvailable" fields) as [[| | | | available |] |];
    simpl; eauto.
  destruct (ingredient_names_ok available) as [names ->]; [now apply Havail |].
  simpl. eauto.
Qed.

Lemma mapIndexed_ok (dateNow : nat -> string) (elements : list json) :
  Forall (fun e =>
            e <> JNull
            /\ forall available,
                 getProp (Some e) "ingredientsAvailable" = Ok (Some (JArr available)) ->
                 ~ In JNull available) elements ->
  forall i, exists recipes,
    mapIndexed (normalizeRecipe dateNow) i elements = Ok recipes
    /\ length recipes = length elements.
Proof.
  induction 1 as [| e rest [Hnull Havail] _ IH]; intros i; cbn [mapIndexed].
  - exists []. now split.
  - destruct (normalizeRecipe_ok dateNow i e Hnull Havail) as [r ->].
    destruct (IH (S i)) as [recipes [-> Hlen]]. cbn [bindR].
    exists (r :: recipes). split; [reflexivity | simpl; now rewrite Hlen].
Qed.

(** When the cleaned text decodes, the parse yields one recipe for each
    decoded element, provided no element is [null] and no
    [ingredientsAvailable] array holds a [null]. *)
Lemma parse_ok (dateNow : nat -> string) (text : string) (decoded : json) :
  Json.parse (sliceArray (stripFences text)) = Ok decoded ->
  let elements := match decoded with JArr items => items | _ => [decoded] end in
  Forall (fun e =>
            e <> JNull
            /\ forall available,
                 getProp (Some e) "ingredientsAvailable" = Ok (Some (JArr available)) ->
                 ~ In JNull available) elements ->
  exists recipes,
    parseRecipeResponse dateNow (Some (JStr text)) = Ok recipes
    /\ length recipes = length elements.
Proof.
  intros Hdec elements Hall. unfold parseRecipeResponse. rewrite Hdec. cbn [bindR].
  destruct (mapIndexed_ok dateNow elements Hall O) as [recipes [Hm Hlen]].
  fold elements. rewrite Hm. eauto.
Qed.

(** The scenario of the parser: commentary around a one-element array. *)
Lemma parse_with_commentary (dateNow : nat -> string) :
  parseRecipeResponse dateNow (Some (JStr (withQuotes "blah [{'title':'X'}] blah")))
  = Ok [ {| id := JStr ("ai-recipe-" +:+ dateNow O +:+ "-0");
            title := JStr "X";
            difficulty := "medium";
            time := JStr "30 min";
            priority := "medium";
            description := JStr "Lækker hjemmelavet ret";
            usedIngredients := [];
            missingIngredients := [];
            instructions := [JStr "Se online opskrift for instruktioner"];
            tips := JStr "";
            source := "AI Generated";
            matchedIngredients := [];
            matchScore := None |} ].
Proof. reflexivity. Qed.

(** Code fences are stripped and a bare object is wrapped. *)
Lemma parse_fenced_object (dateNow : nat -> string) :
  exists r,
    parseRecipeResponse dateNow
      (Some (JStr (withQuotes "```json
{'title':'Suppe','difficulty':'hard','priority':'urgent','instructions':'kog'}
```")))
    = Ok [r]
    /\ title r = JStr "Suppe" /\ difficulty r = "hard" /\ priority r = "medium"
    /\ instructions r = [JStr "Se online opskrift for instruktioner"].
Proof. eexists. split; [reflexivity |]. repeat split. Qed.

(** C2. A response whose JSON is well formed, with one element whose
    only defect is a [null] in its [ingredientsAvailable] field: the text
    decodes, yet the whole parse raises the malformed-response error. *)
Theorem null_ingredient_fails_parse (dateNow : nat -> string) :
  let text := withQuotes "[{'title':'X','ingredientsAvailable':[null]}]" in
  Json.parse (sliceArray (stripFences text))
  = Ok (JArr [JObj [("title", JStr "X"); ("ingredientsAvailable", JArr [JNull])]])
  /\ parseRecipeResponse dateNow (Some (JStr text)) = Err parseError.
Proof. split; reflexivity. Qed.


(** *** The matcher *)

Lemma prefix_spec (p s : string) :
  String.prefix p s = true <-> exists post, s = p +:+ post.
Proof.
  revert s. induction p as [| a p IH]; intros s.
  - split; [intros _; exists s; reflexivity | intros _; now destruct s].
  - destruct s as [| b s]; simpl.
    + split; [discriminate | intros [post H]; discriminate].
    + destruct (ascii_dec a b) as [-> | Hne].
      * rewrite IH. split; intros [post H]; exists post; [now rewrite H | now injection H].
      * split; [discriminate | intros [post H]; injection H; congruence].
Qed.

Lemma includes_spec (hay needle : string) :
  includes hay needle = true <-> isSubstring needle hay.
Proof.
  split.
  - induction hay as [| c r IH]; cbn [includes]; intros H.
    + rewrite Bool.orb_false_r in H. apply prefix_spec in H as [post ->].
      exists "", post. reflexivity.
    + apply Bool.orb_true_iff in H as [H | H].
      * apply prefix_spec in H as [post H]. exists "", post. exact H.
      * destruct (IH H) as [pre [post ->]]. exists (String c pre), post. reflexivity.
  - intros [pre [post ->]]. induction pre as [| c pre IH].
    + assert (Hp : String.prefix needle (needle +:+ post) = true)
        by (apply prefix_spec; eauto).
      change ("" +:+ needle +:+ post) with (needle +:+ post).
      destruct (needle +:+ post); cbn [includes]; rewrite Hp; reflexivity.
    + change (String c pre +:+ needle +:+ post) with (String c (pre +:+ needle +:+ post)).
      cbn [includes]. rewrite IH. apply Bool.orb_true_r.
Qed.

Lemma overlapsName_spec (u : Ingredient) (j : json) :
  overlapsName u j = true <-> exists s, j = JStr s /\ namesOverlap (ing_name u) s.
Proof.
  unfold overlapsName, namesOverlap. split.
  - destruct j; try discriminate. intros H. eexists. split; [reflexivity |].
    apply Bool.orb_true_iff in H. rewrite !includes_spec in H. tauto.
  - intros [s [-> H]]. apply Bool.orb_true_iff. rewrite !includes_spec. tauto.
Qed.

Lemma overlapsAny_spec (recipe : Recipe) (u : Ingredient) :
  overlapsAny recipe u = true <->
  exists s, In (JStr s) (usedIngredients recipe) /\ namesOverlap (ing_name u) s.
Proof.
  unfold overlapsAny. rewrite existsb_exists. split.
  - intros [j [Hin Ho]]. apply overlapsName_spec in Ho as [s [-> Ho]]. eauto.
  - intros [s [Hin Ho]]. exists (JStr s). split; [assumption |].
    apply overlapsName_spec. eauto.
Qed.

Lemma someR_names (u : Ingredient) (used : list json) :
  Forall (fun j => exists s, j = JStr s) used ->
  someR (overlaps u) used = Ok (existsb (overlapsName u) used).
Proof.
  induction 1 as [| j rest [s ->] _ IH]; [reflexivity |].
  cbn [someR existsb]. unfold overlaps at 1. cbn [bindR overlapsName].
  destruct (_ || _); [reflexivity | exact IH].
Qed.

Lemma filterR_total {A : Type} (f : A -> result bool) (g : A -> bool) (l : list A) :
  (forall x, f x = Ok (g x)) -> filterR f l = Ok (List.filter g l).
Proof.
  intros H. induction l as [| x r IH]; [reflexivity |].
  cbn [filterR List.filter]. rewrite H, IH. cbn [bindR]. now destruct (g x).
Qed.

Lemma matchRecipe_annotates (userIngredients : list Ingredient) (recipe : Recipe) :
  namesOnly recipe ->
  exists annotated,
    matchRecipe userIngredients recipe = Ok annotated
    /\ annotates userIngredients recipe annotated.
Proof.
  intros Hnames. unfold matchRecipe.
  rewrite (filterR_total _ (overlapsAny recipe)); [| intros u; now apply someR_names].
  cbn [bindR]. eexists. split; [reflexivity |].
  unfold annotates. cbn. repeat (split; [reflexivity |]).
  split; [| reflexivity].
  intros u. rewrite filter_In, overlapsAny_spec. tauto.
Qed.

(** For recipes whose declared ingredients are names,
    [matchRecipesWithIngredients] returns one annotated recipe for each
    recipe, in the same order: the matched ingredients are the inventory
    items (in inventory order) whose name overlaps, as [overlaps] has
    it, some declared ingredient, and the score is the number of matched
    items over the larger of the number of declared ingredients and 1. *)
Lemma match_on_names (recipes : list Recipe) (userIngredients : list Ingredient)
    (Hnames : Forall namesOnly recipes) :
  exists out,
    matchRecipesWithIngredients recipes userIngredients = Ok out
    /\ length out = length recipes
    /\ Forall2 (annotates userIngredients) recipes out.
Proof.
  unfold matchRecipesWithIngredients.
  induction Hnames as [| recipe rest Hr _ IH].
  - exists []. repeat split. constructor.
  - destruct IH as [out [Hout [Hlen Hall]]].
    destruct (matchRecipe_annotates userIngredients recipe Hr) as [annotated [Hm Ha]].
    exists (annotated :: out). cbn [mapR]. rewrite Hm, Hout. cbn [bindR].
    split; [reflexivity |]. split; [simpl; now rewrite Hlen |].
    now constructor.
Qed.

(** C8. The matcher does not annotate every list of recipes. An answer
    whose recipe declares the ingredient "Tomat" under [usedIngredients],
    in the form the prompt asks for, is parsed to a recipe that keeps the
    ingredient as the object it is; on that recipe and an inventory that
    holds "Tomat" the matcher throws a type error where it should match
    the item with a score of 1. The generation then discards the answer:
    it returns the fallback catalog, or fails when fallback is off. *)
Theorem object_ingredient_breaks_match :
  callAzureOpenAI referenceConfig Views.usedFetch
    (createRecipePrompt referenceConfig [tomato] anyDifficulty)
  = Ok (Some (JStr Views.usedAnswer))
  /\ (exists recipe,
        parseRecipeResponse fixedNow (Some (JStr Views.usedAnswer)) = Ok [recipe]
        /\ title recipe = JStr "Tomatsalat"
        /\ usedIngredients recipe
           = [JObj [("name", JStr "Tomat"); ("amount", JStr "4 stk")]]
        /\ matchRecipesWithIngredients [recipe] [tomato] = Err typeError
        /\ matchRecipesWithIngredients [recipe] [] <> Err typeError)
  /\ generateRecipeSuggestions referenceConfig Views.usedFetch fixedNow (Some [tomato])
       anyDifficulty
     = Ok (getFallbackRecipes (Some [tomato]))
  /\ generateRecipeSuggestions (withoutFallback referenceConfig) Views.usedFetch fixedNow
       (Some [tomato]) anyDifficulty
     = Err generationError.
Proof.
  split; [reflexivity |]. split; [| split; reflexivity].
  eexists. split; [reflexivity |]. repeat split. discriminate.
Qed.

(** The score as a quotient. *)
Lemma score_is_quotient (matched declared : nat) :
  (Z.of_nat matched # Pos.of_nat (Nat.max declared 1)
   == inject_Z (Z.of_nat matched) / inject_Z (Z.of_nat (Nat.max declared 1)))%Q.
Proof.
  rewrite (Qmake_Qdiv (Z.of_nat matched) (Pos.of_nat (Nat.max declared 1))).
  replace (Z.pos (Pos.of_nat (Nat.max declared 1))) with (Z.of_nat (Nat.max declared 1));
    [reflexivity |].
  destruct (Nat.max declared 1) as [| k] eqn:E; [lia |].
  rewrite <- E. rewrite <- (Nat2Pos.id (Nat.max declared 1)) at 1 by lia.
  now rewrite positive_nat_Z.
Qed.


(** *** The three paths on sample networks *)

(** The generation path: prompt, call, parse and match. *)
Lemma generation_path_example :
  exists r,
    generateRecipeSuggestions referenceConfig answeringFetch fixedNow
      (Some [tomato; milk]) anyDifficulty = Ok [r]
    /\ title r = JStr "Tomatsuppe"
    /\ id r = JStr "ai-recipe-1700000000000-0"
    /\ usedIngredients r = [JStr "tomater"]
    /\ matchedIngredients r = [tomato]
    /\ matchScore r = Some (1 # 1)%Q
    /\ source r = "AI Generated".
Proof. eexists. split; [vm_compute; reflexivity |]. repeat split. Qed.

(** Every kind of failure, with and without fallback. *)
Lemma failure_paths_example :
  Forall (fun fetch =>
            generateRecipeSuggestions referenceConfig fetch fixedNow (Some [milk])
              anyDifficulty = Ok (getFallbackRecipes (Some [milk]))
            /\ generateRecipeSuggestions (withoutFallback referenceConfig) fetch fixedNow
                 (Some [milk]) anyDifficulty = Err generationError)
    [abortingFetch; unreachableFetch; failingFetch; chattyFetch].
Proof. repeat constructor. Qed.


End RecipeProps.

(** ** The shopping list *)

Module ShoppingListProps.
Import Samples ShoppingListService.

(** *** [findIndex] *)

Lemma findIndex_Some {A : Type} (pred : A -> bool) (l : list A) (i : nat) :
  findIndex pred l = Some i ->
  exists x, l !! i = Some x /\ pred x = true.
Proof.
  revert i. induction l as [| y r IH]; intros i H; simpl in H; [discriminate |].
  destruct (pred y) eqn:E.
  - injection H as <-. exists y. now split.
  - destruct (findIndex pred r) as [j |]; [| discriminate].
    injection H as <-. destruct (IH j eq_refl) as [x [Hx Hp]]. exists x. now split.
Qed.

Lemma findIndex_None {A : Type} (pred : A -> bool) (l : list A) :
  findIndex pred l = None -> forall x, In x l -> pred x = false.
Proof.
  induction l as [| y r IH]; intros H x Hin; simpl in *; [contradiction |].
  destruct (pred y) eqn:E; [discriminate |].
  destruct (findIndex pred r); [discriminate |].
  destruct Hin as [<- | Hin]; [assumption | now apply IH].
Qed.

(** *** Amounts *)

(** C10. An add without an amount. When no entry bears the name, the
    new entry gets the amount ["1 stk"]. When the add is merged into an
    entry [existing], no default is substituted: an existing amount is
    followed by [" + undefined"], and an entry without amount stays
    without. *)
Theorem merge_without_amount (clk : Clock) (item : ItemInput) (store : Store)
    (Habsent : in_amount item = None) :
  (findIndex (sameName (in_name item)) store = None ->
     exists entry,
       addToShoppingList clk item store = (store ++ [entry])%list
       /\ amount entry = Some (JStr "1 stk"))
  /\ (forall i existing,
        findIndex (sameName (in_name item)) store = Some i ->
        store !! i = Some existing ->
        exists merged,
          addToShoppingList clk item store = <[i := merged]> store
          /\ addToShoppingList clk item store !! i = Some merged
          /\ amount merged
             = match amount existing with
               | Some e => Some (JStr (toStr e +:+ " + undefined"))
               | None => None
               end).
Proof.
  split.
  - intros Hnone. unfold addToShoppingList. rewrite Hnone, Habsent.
    eexists. split; [reflexivity | reflexivity].
  - intros i existing Hi Hex. unfold addToShoppingList. rewrite Hi, Hex.
    eexists. split; [reflexivity |]. split.
    + apply list_lookup_insert_eq. now apply lookup_lt_Some in Hex.
    + simpl. rewrite Habsent. unfold combineAmounts.
      destruct (amount existing) as [e |]; [destruct e |]; reflexivity.
Qed.

Lemma merge_without_amount_witness :
  exists merged,
    addToShoppingList tuesday (named "milk " None)
      (addToShoppingList monday (named "Milk" (Some (JStr "1L"))) [])
    !! O = Some merged
    /\ amount merged = Some (JStr "1L + undefined").
Proof.
  destruct (proj2 (merge_without_amount tuesday (named "milk " None)
                     (addToShoppingList monday (named "Milk" (Some (JStr "1L"))) [])
                     eq_refl)
              O _ eq_refl eq_refl) as [merged [_ [Hl Ha]]].
  exists merged. split; assumption.
Defined.

(** An entry that a recipe made from an ingredient without amount has
    no amount. An add without amount that is merged into it leaves it
    without amount: the amount is no text that ends in [" + undefined"]. *)
Lemma amountless_entry_stays_amountless :
  exists existing merged,
    snd (addRecipeToShoppingList (fun _ => monday) Views.riceDish []) !! 1%nat
    = Some existing
    /\ name existing = "Ris" /\ amount existing = None
    /\ addToShoppingList tuesday (named "ris" None)
         (snd (addRecipeToShoppingList (fun _ => monday) Views.riceDish []))
       !! 1%nat = Some merged
    /\ name merged = "Ris" /\ amount merged = None
    /\ forall text, amount merged <> Some (JStr (text +:+ " + undefined")).
Proof.
  eexists. eexists. split; [reflexivity |]. repeat split. discriminate.
Qed.

(** *** Priorities *)

(** Both priorities present: the higher one is returned. *)
Lemma getHigherPriority_max (p q : Priority) :
  priorityOrder (getHigherPriority (Some p) (Some q))
  = Some (Z.max (default 0 (priorityOrder (Some p))) (default 0 (priorityOrder (Some q)))).
Proof. destruct p, q; reflexivity. Qed.

(** The second priority absent: the result is absent, whatever the first. *)
Lemma getHigherPriority_absent (p : option Priority) :
  getHigherPriority p None = None.
Proof. destruct p as [[| |] |]; reflexivity. Qed.

(** C1. The scenario of the merge policy: an entry "Milk" with amount
    "1L", then an add of "milk " with amount "2L", both carrying a name
    and an amount only. The list holds one entry, unchecked, with the
    amounts joined; the priority, [medium] after the first add, is absent
    after the merge. The same happens to an entry added with priority
    [high], and to every entry the second add is merged into. *)
Theorem merge_loses_priority (clk1 clk2 : Clock) :
  let first := named "Milk" (Some (JStr "1L")) in
  let second := named "milk " (Some (JStr "2L")) in
  (exists created, addAll [(clk1, first)] [] = [created]
                   /\ priority created = Some medium)
  /\ (exists merged,
        addAll [(clk1, first); (clk2, second)] [] = [merged]
        /\ name merged = "Milk"
        /\ amount merged = Some (JStr "1L + 2L")
        /\ isChecked merged = false
        /\ priority merged = None)
  /\ (exists merged,
        addAll [(clk1, prioritized "Milk" (Some (JStr "1L")) high); (clk2, second)] []
        = [merged]
        /\ priority merged = None
        /\ maxRank (keyOf merged)
             [(clk1, prioritized "Milk" (Some (JStr "1L")) high); (clk2, second)] = 3)
  /\ (forall existing,
        priority (mergeInto clk2 existing (in_amount second) (in_priority second)
                    (in_essential second)) = None).
Proof.
  cbv zeta. split; [| split; [| split]].
  - eexists. split; reflexivity.
  - eexists. split; [reflexivity |]. repeat split.
  - eexists. split; [reflexivity |]. split; reflexivity.
  - intros existing. simpl. apply getHigherPriority_absent.
Qed.

(** *** The merge policy over a run of adds *)

Lemma nameKey_trim (n : string) : nameKey (trim n) = nameKey n.
Proof.
  unfold nameKey. rewrite StringProps.toLowerCase_trim.
  apply StringProps.trim_idempotent.
Qed.

Lemma sameName_iff (n : string) (e : ShoppingListItem) :
  sameName n e = true <-> keyOf e = nameKey n.
Proof. unfold sameName, keyOf. apply String.eqb_eq. Qed.

Lemma truthy_jsOr (a b : jsval) : truthy (jsOr a b) = truthy a || truthy b.
Proof.
  unfold jsOr. destruct (truthy a) eqn:E; [now rewrite E | reflexivity].
Qed.

Lemma combineAmounts_strings (a b : string) :
  combineAmounts (Some (JStr a)) (Some (JStr b))
  = Some (JStr (if JsString.eqb a b then a else a +:+ " + " +:+ b)).
Proof. unfold combineAmounts. simpl. now destruct (JsString.eqb a b). Qed.

(** The two branches of [addToShoppingList]. *)
Lemma add_merges (clk : Clock) (item : ItemInput) (store : Store) (i : nat) :
  findIndex (sameName (in_name item)) store = Some i ->
  exists existing,
    store !! i = Some existing
    /\ keyOf existing = nameKey (in_name item)
    /\ addToShoppingList clk item store
       = <[i := mergeInto clk existing (in_amount item) (in_priority item)
                  (in_essential item)]> store.
Proof.
  intros Hi. destruct (findIndex_Some _ _ _ Hi) as [existing [Hl Hs]].
  exists existing. split; [assumption |]. split; [now apply sameName_iff |].
  unfold addToShoppingList. now rewrite Hi, Hl.
Qed.

Lemma add_creates (clk : Clock) (item : ItemInput) (store : Store) :
  findIndex (sameName (in_name item)) store = None ->
  (forall e, e ∈ store -> keyOf e <> nameKey (in_name item))
  /\ exists created,
       addToShoppingList clk item store = (store ++ [created])%list
       /\ keyOf created = nameKey (in_name item)
       /\ isChecked created = false
       /\ essential created = jsOr (in_essential item) (Some (JBool false))
       /\ priority created = Some (default medium (in_priority item)).
Proof.
  intros Hn. split.
  - intros e He Hk. apply list_elem_of_In in He.
    apply (findIndex_None _ _ Hn) in He.
    apply sameName_iff in Hk. congruence.
  - unfold addToShoppingList. rewrite Hn. eexists. split; [reflexivity |].
    split; [apply nameKey_trim |]. repeat split.
Qed.

(** A merged entry keeps its identity, is unchecked and carries the
    combined amount. *)
Lemma mergeInto_fields (clk : Clock) (existing : ShoppingListItem)
    (amount' : jsval) (priority' : option Priority) (essential' : jsval) :
  let merged := mergeInto clk existing amount' priority' essential' in
  id merged = id existing /\ name merged = name existing
  /\ keyOf merged = keyOf existing
  /\ amount merged = combineAmounts (amount existing) amount'
  /\ isChecked merged = false
  /\ isEssential merged = isEssential existing || truthy essential'.
Proof. cbv zeta. repeat split. apply truthy_jsOr. Qed.

Lemma anyEssential_app (k : string) (adds : list (Clock * ItemInput)) (a : Clock * ItemInput) :
  anyEssential k (adds ++ [a])
  = anyEssential k adds || (JsString.eqb (inputKey a) k && truthy (in_essential (snd a))).
Proof.
  unfold anyEssential. rewrite existsb_app. simpl. now rewrite Bool.orb_false_r.
Qed.

Lemma inputRank_nonneg (a : Clock * ItemInput) : 0 <= inputRank a.
Proof. unfold inputRank. destruct (in_priority (snd a)) as [[| |] |]; simpl; lia. Qed.

Lemma maxRank_from (k : string) (adds : list (Clock * ItemInput)) (b : Z) :
  0 <= b ->
  fold_right (fun a m => if JsString.eqb (inputKey a) k then Z.max (inputRank a) m else m)
    b adds
  = Z.max (maxRank k adds) b.
Proof.
  intros Hb. unfold maxRank. induction adds as [| a r IH]; simpl; [lia |].
  rewrite IH. destruct (JsString.eqb (inputKey a) k); lia.
Qed.

Lemma maxRank_app (k : string) (adds : list (Clock * ItemInput)) (a : Clock * ItemInput) :
  maxRank k (adds ++ [a])
  = if JsString.eqb (inputKey a) k then Z.max (maxRank k adds) (inputRank a)
    else maxRank k adds.
Proof.
  unfold maxRank at 1. rewrite fold_right_app. simpl.
  pose proof (inputRank_nonneg a).
  destruct (JsString.eqb (inputKey a) k).
  - rewrite maxRank_from by lia. lia.
  - rewrite maxRank_from by lia. pose proof (maxRank_from k adds 0). unfold maxRank. lia.
Qed.

Lemma maxRank_nonneg (k : string) (adds : list (Clock * ItemInput)) : 0 <= maxRank k adds.
Proof.
  unfold maxRank. induction adds as [| a r IH]; simpl; [lia |].
  destruct (JsString.eqb (inputKey a) k); lia.
Qed.

(** No add of the name [k]. *)
Lemma no_add_of_name (k : string) (adds : list (Clock * ItemInput)) :
  (forall a, a ∈ adds -> inputKey a <> k) ->
  anyEssential k adds = false /\ maxRank k adds = 0.
Proof.
  unfold anyEssential, maxRank. induction adds as [| a r IH]; intros H; [now split |].
  simpl. assert (Ha : JsString.eqb (inputKey a) k = false).
  { apply String.eqb_neq. apply H. now left. }
  rewrite Ha. simpl. apply IH. intros b Hb. apply H. now right.
Qed.

Lemma rank_getHigherPriority (p q : Priority) :
  default 0 (priorityOrder (getHigherPriority (Some p) (Some q)))
  = Z.max (default 0 (priorityOrder (Some p))) (default 0 (priorityOrder (Some q))).
Proof. destruct p, q; reflexivity. Qed.

Lemma keys_lookup (store : Store) (j : nat) (e : ShoppingListItem) :
  store !! j = Some e -> (keyOf <$> store) !! j = Some (keyOf e).
Proof. intros H. rewrite list_lookup_fmap, H. reflexivity. Qed.

(** One add maintains the invariant. *)
Lemma add_maintains (adds : list (Clock * ItemInput)) (store : Store)
    (clk : Clock) (item : ItemInput) :
  MergeInvariant adds store ->
  MergeInvariant (adds ++ [(clk, item)]) (addToShoppingList clk item store).
Proof.
  intros [Hu Hc He Hp].
  set (k := nameKey (in_name item)).
  destruct (findIndex (sameName (in_name item)) store) as [i |] eqn:Hfind.
  - (* merge *)
    destruct (add_merges clk item store i Hfind) as [existing [Hl [Hk ->]]].
    fold k in Hk.
    set (merged := mergeInto clk existing (in_amount item) (in_priority item)
                     (in_essential item)).
    assert (Hkeys : keyOf <$> <[i := merged]> store = keyOf <$> store).
    { rewrite list_fmap_insert. apply list_insert_id.
      change (keyOf merged) with (keyOf existing). now apply keys_lookup. }
    assert (Hother : forall j e, i <> j -> store !! j = Some e -> keyOf e <> k).
    { intros j e Hij Hj Hke. apply Hij.
      apply (NoDup_lookup _ _ _ k Hu).
      - rewrite <- Hk. now apply keys_lookup.
      - rewrite <- Hke. now apply keys_lookup. }
    assert (Hin : forall e, e ∈ <[i := merged]> store ->
                  e = merged \/ (e ∈ store /\ keyOf e <> k)).
    { intros e Hein. apply list_elem_of_lookup in Hein as [j Hj].
      apply list_lookup_insert_Some in Hj as [[_ [<- _]] | [Hij Hj]]; [now left |].
      right. split; [now apply list_elem_of_lookup_2 in Hj | now apply (Hother j)]. }
    split.
    + now rewrite Hkeys.
    + rewrite Hkeys. intros a Ha. apply elem_of_app in Ha as [Ha | Ha]; [now apply Hc |].
      apply list_elem_of_singleton in Ha as ->. unfold inputKey. simpl. fold k.
      rewrite <- Hk. apply list_elem_of_fmap_2. now apply list_elem_of_lookup_2 in Hl.
    + intros e Hein. rewrite anyEssential_app. unfold inputKey. cbn [snd]. fold k.
      destruct (Hin e Hein) as [-> | [Hes Hne]].
      * change (keyOf merged) with (keyOf existing). rewrite Hk.
        unfold JsString.eqb. rewrite String.eqb_refl. simpl.
        unfold isEssential, merged. simpl. rewrite truthy_jsOr.
        f_equal. rewrite <- Hk. apply He. now apply list_elem_of_lookup_2 in Hl.
      * assert (Hf : JsString.eqb k (keyOf e) = false)
          by (apply String.eqb_neq; congruence).
        rewrite Hf. simpl. rewrite Bool.orb_false_r. now apply He.
    + intros Hall e Hein. apply Forall_app in Hall as [Hall Hitem].
      apply Forall_cons_iff in Hitem as [Hitem _].
      unfold hasInputPriority in Hitem. simpl in Hitem.
      rewrite maxRank_app. unfold inputKey. cbn [snd]. fold k.
      destruct (Hin e Hein) as [-> | [Hes Hne]].
      * change (keyOf merged) with (keyOf existing). rewrite Hk.
        unfold JsString.eqb. rewrite String.eqb_refl.
        destruct (Hp Hall existing) as [Hhas Hrank];
          [now apply list_elem_of_lookup_2 in Hl |].
        unfold hasPriority in *. unfold rank, merged in *. simpl.
        destruct (priority existing) as [p |]; [| congruence].
        destruct (in_priority item) as [q |] eqn:Hq; [| congruence].
        split.
        -- destruct p, q; discriminate.
        -- rewrite rank_getHigherPriority. rewrite Hk in Hrank. rewrite <- Hrank.
           unfold inputRank. simpl. now rewrite Hq.
      * assert (Hf : JsString.eqb k (keyOf e) = false)
          by (apply String.eqb_neq; congruence).
        rewrite Hf. now apply Hp.
  - (* create *)
    destruct (add_creates clk item store Hfind)
      as [Hfresh [created [-> [Hk [_ [Hess Hprio]]]]]].
    fold k in Hfresh, Hk.
    assert (Hnone : forall a, a ∈ adds -> inputKey a <> k).
    { intros a Ha Hka. apply Hc in Ha. rewrite Hka in Ha.
      apply list_elem_of_fmap in Ha as [e [Hke Hes]].
      now apply (Hfresh e). }
    destruct (no_add_of_name k adds Hnone) as [Hany Hmax].
    split.
    + rewrite fmap_app. apply NoDup_app. split; [assumption |]. split.
      * intros x Hx Hin. simpl in Hin. apply list_elem_of_singleton in Hin as ->.
        rewrite Hk in Hx. apply list_elem_of_fmap in Hx as [e [Hke Hes]].
        now apply (Hfresh e).
      * apply NoDup_singleton.
    + rewrite fmap_app. intros a Ha. apply elem_of_app.
      apply elem_of_app in Ha as [Ha | Ha]; [left; now apply Hc |].
      apply list_elem_of_singleton in Ha as ->. right. simpl.
      rewrite Hk. apply list_elem_of_singleton. reflexivity.
    + intros e Hein. rewrite anyEssential_app. unfold inputKey. cbn [snd]. fold k.
      apply elem_of_app in Hein as [Hes | Hein].
      * assert (Hf : JsString.eqb k (keyOf e) = false).
        { apply String.eqb_neq. intros Hke. now apply (Hfresh e). }
        rewrite Hf. simpl. rewrite Bool.orb_false_r. now apply He.
      * apply list_elem_of_singleton in Hein as ->. rewrite Hk, Hany.
        unfold JsString.eqb. rewrite String.eqb_refl. simpl.
        unfold isEssential. rewrite Hess, truthy_jsOr. simpl.
        now rewrite Bool.orb_false_r.
    + intros Hall e Hein. apply Forall_app in Hall as [Hall Hitem].
      apply Forall_cons_iff in Hitem as [Hitem _].
      unfold hasInputPriority in Hitem. simpl in Hitem.
      rewrite maxRank_app. unfold inputKey. cbn [snd]. fold k.
      apply elem_of_app in Hein as [Hes | Hein].
      * assert (Hf : JsString.eqb k (keyOf e) = false).
        { apply String.eqb_neq. intros Hke. now apply (Hfresh e). }
        rewrite Hf. now apply Hp.
      * apply list_elem_of_singleton in Hein as ->. rewrite Hk, Hmax.
        unfold JsString.eqb. rewrite String.eqb_refl.
        unfold hasPriority, rank. rewrite Hprio.
        destruct (in_priority item) as [q |] eqn:Hq; [| congruence].
        split; [discriminate |]. unfold inputRank. simpl. rewrite Hq.
        destruct q; reflexivity.
Qed.

(** The merge policy, for every run of adds from the empty list: one
    entry per name, essential when some add of the name was, and of the
    highest priority among the adds of the name when every add carries a
    priority. *)
Lemma merge_policy (adds : list (Clock * ItemInput)) :
  MergeInvariant adds (addAll adds []).
Proof.
  induction adds as [| a adds IH] using rev_ind.
  - split; simpl.
    + constructor.
    + intros a Ha. now apply elem_of_nil in Ha.
    + intros e He. now apply elem_of_nil in He.
    + intros _ e He. now apply elem_of_nil in He.
  - unfold addAll in *. rewrite fold_left_app. simpl. destruct a as [clk item].
    now apply add_maintains.
Qed.

(** *** Adding the missing ingredients of a recipe *)

(** A recipe without missing ingredients is refused and the store is left
    as it was. *)
Lemma addRecipe_rejects_empty (clock : nat -> Clock) (recipe : RecipeArg) (store : Store) :
  arg_missingIngredients recipe = None \/ arg_missingIngredients recipe = Some [] ->
  addRecipeToShoppingList clock recipe store = (Err noMissingIngredients, store).
Proof. intros [H | H]; unfold addRecipeToShoppingList; now rewrite H. Qed.

(** Whatever the error, the store is left as it was. *)
Lemma addRecipe_atomic (clock : nat -> Clock) (recipe : RecipeArg) (store : Store) (msg : string) :
  fst (addRecipeToShoppingList clock recipe store) = Err msg ->
  snd (addRecipeToShoppingList clock recipe store) = store.
Proof.
  unfold addRecipeToShoppingList.
  destruct (arg_missingIngredients recipe) as [[| ing rest] |]; try reflexivity.
  destruct (addIngredients clock recipe O (ing :: rest) (store, 0)) as [[l n] | m];
    [discriminate | reflexivity].
Qed.

(** One turn of the loop either merges (same length, same count) or
    creates (one more entry, one more counted). *)
Lemma addIngredient_count (clk : Clock) (recipe : RecipeArg) (ingredient : json)
    (l l' : Store) (n n' : Z) :
  addIngredient clk recipe ingredient (l, n) = Ok (l', n') ->
  (length l' = length l /\ n' = n)
  \/ (exists entry, l' = (l ++ [entry])%list /\ n' = n + 1
                    /\ findIndex (sameName (name entry)) l = None).
Proof.
  unfold addIngredient.
  destruct (getProp (Some ingredient) "name") as [ingName | m]; [| discriminate].
  cbn [bindR].
  destruct (categorizeIngredient ingName) as [cat | m]; [| discriminate].
  cbn [bindR].
  destruct ingName as [[| | | itemName | |] |]; try discriminate.
  destruct (getProp (Some ingredient) "amount") as [ingAmount | m]; [| discriminate].
  destruct (getProp (Some ingredient) "essential") as [ingEssential | m]; [| discriminate].
  cbn [bindR].
  destruct (findIndex (sameName itemName) l) as [i |] eqn:Hfind.
  - destruct (l !! i) as [existing |].
    + intros [= <- <-]. left. split; [apply length_insert | reflexivity].
    + intros [= <- <-]. now left.
  - intros [= <- <-]. right. eexists. split; [reflexivity |].
    split; [reflexivity | exact Hfind].
Qed.

Lemma addIngredients_count (clock : nat -> Clock) (recipe : RecipeArg)
    (ingredients : list json) :
  forall (i : nat) (l l' : Store) (n n' : Z),
    addIngredients clock recipe i ingredients (l, n) = Ok (l', n') ->
    Z.of_nat (length l') = Z.of_nat (length l) + (n' - n) /\ n <= n'.
Proof.
  induction ingredients as [| ing rest IH]; intros i l l' n n' H;
    cbn [addIngredients] in H.
  - inversion H; subst. lia.
  - destruct (addIngredient (clock i) recipe ing (l, n)) as [[l1 n1] | m] eqn:Hstep;
      cbn [bindR] in H; [| discriminate].
    apply IH in H.
    apply addIngredient_count in Hstep.
    destruct Hstep as [[Hlen ->] | [entry [-> [-> _]]]].
    + rewrite Hlen in H. lia.
    + rewrite length_app in H. simpl in H. lia.
Qed.

(** A successful call reports the number of entries created and the size
    of the list it saved. *)
Lemma addRecipe_counts (clock : nat -> Clock) (recipe : RecipeArg) (store : Store)
    (r : AddRecipeResult) :
  fst (addRecipeToShoppingList clock recipe store) = Ok r ->
  let store' := snd (addRecipeToShoppingList clock recipe store) in
  success r = true
  /\ totalItems r = Z.of_nat (length store')
  /\ addedCount r = Z.of_nat (length store') - Z.of_nat (length store)
  /\ 0 <= addedCount r.
Proof.
  unfold addRecipeToShoppingList.
  destruct (arg_missingIngredients recipe) as [[| ing rest] |]; try discriminate.
  destruct (addIngredients clock recipe O (ing :: rest) (store, 0)) as [[l n] | m] eqn:H;
    [| discriminate].
  intros Hr. injection Hr as <-. simpl.
  apply addIngredients_count in H. repeat split; lia.
Qed.

(** Every name that is a string has a category. *)
Lemma categorizeIngredient_string (n : string) :
  exists cat, categorizeIngredient (Some (JStr n)) = Ok cat.
Proof.
  unfold categorizeIngredient.
  repeat match goal with
         | |- context [if ?b then _ else _] => destruct b
         end; eauto.
Qed.

Lemma addIngredient_named (clk : Clock) (recipe : RecipeArg) (ingredient : json)
    (state : Store * Z) :
  named_ingredient ingredient ->
  exists state', addIngredient clk recipe ingredient state = Ok state'.
Proof.
  intros [n Hn]. destruct state as [l k]. unfold addIngredient. rewrite Hn.
  cbn [bindR]. destruct (categorizeIngredient_string n) as [cat ->]. cbn [bindR].
  destruct ingredient; try discriminate. cbn [getProp bindR].
  destruct (findIndex (sameName n) l) as [i |]; [| eauto].
  destruct (l !! i); eauto.
Qed.

Lemma addIngredients_named (clock : nat -> Clock) (recipe : RecipeArg)
    (ingredients : list json) :
  Forall named_ingredient ingredients ->
  forall i state, exists state', addIngredients clock recipe i ingredients state = Ok state'.
Proof.
  induction 1 as [| ing rest Hing _ IH]; intros i state; cbn [addIngredients].
  - eauto.
  - destruct (addIngredient_named (clock i) recipe ing state Hing) as [state' ->].
    cbn [bindR]. apply IH.
Qed.

(** With a non-empty list of such ingredients the call succeeds. *)
Lemma addRecipe_named (clock : nat -> Clock) (recipe : RecipeArg) (store : Store)
    (ing : json) (rest : list json) :
  arg_missingIngredients recipe = Some (ing :: rest) ->
  Forall named_ingredient (ing :: rest) ->
  exists r, fst (addRecipeToShoppingList clock recipe store) = Ok r.
Proof.
  intros Hm Hall. unfold addRecipeToShoppingList. rewrite Hm.
  destruct (addIngredients_named clock recipe (ing :: rest) Hall O (store, 0))
    as [[l n] ->].
  simpl. eauto.
Qed.

(** C6. The second recipe of the fallback catalog lists its missing
    ingredient as the bare string "bouillon". Handing that recipe to
    [addRecipeToShoppingList] raises a type error (the ingredient has no
    [name]) instead of returning counts; the store is unchanged. *)
Theorem fallback_recipe_not_addable (clock : nat -> Clock) (store : Store)
    (ingredients : option (list AiRecipeService.Ingredient)) :
  exists soup,
    AiRecipeService.getFallbackRecipes ingredients !! 1%nat = Some soup
    /\ AiRecipeService.missingIngredients soup = [JStr "bouillon"]
    /\ addRecipeToShoppingList clock (AiRecipeService.toRecipeArg soup) store
       = (Err typeError, store).
Proof. eexists. split; [reflexivity |]. split; reflexivity. Qed.


End ShoppingListProps.

(** ** The grouped view of the shopping list *)

Module GroupingProps.
Import Samples Views ShoppingListService SortProps.

(** *** The collation used in examples *)





(** *** Collecting the groups *)

Lemma eqb_eq (a b : string) : JsString.eqb a b = true <-> a = b.
Proof. apply String.eqb_eq. Qed.

Lemma putItem_names (item : ShoppingListItem) (grouped : list Group) :
  (In (categoryOf item) (groupNames grouped)
   /\ groupNames (putItem item grouped) = groupNames grouped)
  \/ (~ In (categoryOf item) (groupNames grouped)
      /\ groupNames (putItem item grouped) = (groupNames grouped ++ [categoryOf item])%list).
Proof.
  unfold groupNames. induction grouped as [| g r IH]; simpl.
  - right. split; [tauto | reflexivity].
  - destruct (JsString.eqb (group_name g) (categoryOf item)) eqn:E; simpl.
    + apply eqb_eq in E. left. split; [now left | reflexivity].
    + apply String.eqb_neq in E.
      destruct IH as [[Hin Heq] | [Hnot Heq]].
      * left. split; [now right |]. now rewrite Heq.
      * right. split; [tauto |]. now rewrite Heq.
Qed.

Lemma putItem_NoDup (item : ShoppingListItem) (grouped : list Group) :
  NoDup (groupNames grouped) -> NoDup (groupNames (putItem item grouped)).
Proof.
  intros Hnd. destruct (putItem_names item grouped) as [[_ ->] | [Hnot ->]];
    [assumption |].
  apply NoDup_app. repeat split; try assumption.
  - intros x Hx Hin. apply list_elem_of_In in Hx. apply list_elem_of_In in Hin.
    simpl in Hin. destruct Hin as [<- | []]. contradiction.
  - repeat constructor. intros H. apply list_elem_of_In in H. contradiction.
Qed.

Lemma putItem_wellGrouped (item : ShoppingListItem) (grouped : list Group) :
  Forall wellGrouped grouped -> Forall wellGrouped (putItem item grouped).
Proof.
  induction 1 as [| g r [Hg Hne] Hr IH]; simpl.
  - repeat constructor. discriminate.
  - destruct (JsString.eqb (group_name g) (categoryOf item)) eqn:E.
    + apply eqb_eq in E. constructor; [| assumption]. split; simpl.
      * apply Forall_app. split; [assumption |]. now repeat constructor.
      * now destruct (group_items g).
    + constructor; [now split | assumption].
Qed.

Lemma putItem_items (item : ShoppingListItem) (grouped : list Group) :
  Permutation (groupedItems (putItem item grouped)) (groupedItems grouped ++ [item]).
Proof.
  unfold groupedItems. induction grouped as [| g r IH]; simpl; [reflexivity |].
  destruct (JsString.eqb (group_name g) (categoryOf item)); simpl.
  - rewrite <- !app_assoc. apply Permutation_app_head, Permutation_app_comm.
  - rewrite IH. now rewrite app_assoc.
Qed.

Lemma collect_invariant (items : list ShoppingListItem) :
  forall acc,
    NoDup (groupNames acc) -> Forall wellGrouped acc ->
    let grouped := fold_left (fun grouped item => putItem item grouped) items acc in
    NoDup (groupNames grouped) /\ Forall wellGrouped grouped
    /\ Permutation (groupedItems grouped) (groupedItems acc ++ items).
Proof.
  induction items as [| item rest IH]; intros acc Hnd Hwg; simpl.
  - repeat split; try assumption. now rewrite app_nil_r.
  - destruct (IH (putItem item acc)) as [H1 [H2 H3]];
      [now apply putItem_NoDup | now apply putItem_wellGrouped |].
    repeat split; try assumption.
    rewrite H3, putItem_items, <- app_assoc. reflexivity.
Qed.

Lemma collected_partition (items : list ShoppingListItem) :
  NoDup (groupNames (collected items))
  /\ Forall wellGrouped (collected items)
  /\ Permutation (groupedItems (collected items)) items.
Proof.
  unfold collected.
  exact (collect_invariant items [] ltac:(constructor) ltac:(constructor)).
Qed.

(** [collectGroups] throws exactly when some category is an inherited
    name, and otherwise gives the groups collected. *)
Lemma collectInto_cases (items : list ShoppingListItem) :
  forall acc,
    (Forall groupable items
     /\ collectInto items acc
        = Ok (fold_left (fun grouped item => putItem item grouped) items acc))
    \/ (Exists (fun item => inherited (categoryOf item) = true) items
        /\ collectInto items acc = Err typeError).
Proof.
  induction items as [| item rest IH]; intros acc; cbn [collectInto fold_left].
  - left. split; [constructor | reflexivity].
  - unfold pushItem. destruct (inherited (categoryOf item)) eqn:Hi; cbn [bindR].
    + right. split; [now constructor | reflexivity].
    + destruct (IH (putItem item acc)) as [[Hall ->] | [Hex ->]].
      * left. split; [now constructor | reflexivity].
      * right. split; [now apply Exists_cons_tl | reflexivity].
Qed.

Lemma collectGroups_cases (items : list ShoppingListItem) :
  (Forall groupable items /\ collectGroups items = Ok (collected items))
  \/ (Exists (fun item => inherited (categoryOf item) = true) items
      /\ collectGroups items = Err typeError).
Proof. apply collectInto_cases. Qed.

Lemma filter_split {A : Type} (pred : A -> bool) (l : list A) :
  Permutation (List.filter pred l ++ List.filter (fun x => negb (pred x)) l) l.
Proof.
  induction l as [| x r IH]; simpl; [reflexivity |].
  destruct (pred x); simpl.
  - now constructor.
  - rewrite <- Permutation_middle. now constructor.
Qed.

Lemma objectValues_Permutation (grouped : list Group) :
  Permutation (objectValues grouped) grouped.
Proof.
  unfold objectValues. rewrite (sortBy_Permutation compareIndex). apply filter_split.
Qed.

(** *** The two comparators *)

Lemma compareGroups_le (g h : Group) :
  cmpLe compareGroups g h <-> groupBefore g h.
Proof. unfold cmpLe, compareGroups, groupBefore, nanToZero. simpl. lia. Qed.

Lemma sortGroupItems_items (localeCompare : string -> string -> Z) (g : Group) :
  Permutation (group_items (sortGroupItems localeCompare g)) (group_items g).
Proof. apply sortBy_Permutation. Qed.

Lemma sortGroupItems_wellGrouped (localeCompare : string -> string -> Z) (g : Group) :
  wellGrouped g -> wellGrouped (sortGroupItems localeCompare g).
Proof.
  intros [Hall Hne]. split.
  - eapply Permutation_Forall; [symmetry; apply sortGroupItems_items | exact Hall].
  - intros Hnil. apply Hne.
    apply Permutation_nil. rewrite <- Hnil. apply sortGroupItems_items.
Qed.

(** *** The grouped view *)

(** The two outcomes of [groupShoppingListByCategory]: the groups
    collected, each sorted, in some order; or a type error. *)
Lemma grouping_cases (localeCompare : string -> string -> Z)
    (items : list ShoppingListItem) :
  (Forall groupable items
   /\ exists groups,
        groupShoppingListByCategory localeCompare items = Ok groups
        /\ Permutation groups (map (sortGroupItems localeCompare) (collected items))
        /\ StronglySorted groupBefore groups)
  \/ (Exists (fun item => inherited (categoryOf item) = true) items
      /\ groupShoppingListByCategory localeCompare items = Err typeError).
Proof.
  unfold groupShoppingListByCategory.
  destruct (collectGroups_cases items) as [[Hall ->] | [Hex ->]]; cbn [bindR].
  - left. split; [assumption |]. eexists. split; [reflexivity |]. split.
    + rewrite sortBy_Permutation. apply Permutation_map, objectValues_Permutation.
    + apply (StronglySorted_weaken (cmpLeOn (fun _ => True) compareGroups)).
      * intros g h [_ [_ H]]. now apply compareGroups_le.
      * apply sortBy_StronglySorted.
        -- intros g h _ _. rewrite !compareGroups_le. unfold groupBefore. lia.
        -- intros g h k _ _ _. rewrite !compareGroups_le. unfold groupBefore. lia.
        -- apply Forall_forall. intros; exact I.
  - right. now split.
Qed.

(** The groups of a grouped view partition the items. *)
Lemma grouping_partition (localeCompare : string -> string -> Z)
    (items : list ShoppingListItem) (groups : list Group) :
  groupShoppingListByCategory localeCompare items = Ok groups ->
  Forall groupable items
  /\ Permutation groups (map (sortGroupItems localeCompare) (collected items))
  /\ NoDup (groupNames groups)
  /\ Forall wellGrouped groups
  /\ Permutation (groupedItems groups) items
  /\ StronglySorted groupBefore groups.
Proof.
  intros Hok.
  destruct (grouping_cases localeCompare items)
    as [[Hall [groups' [Hok' [Hperm Hsorted]]]] | [_ Herr]]; [| congruence].
  rewrite Hok in Hok'. inversion Hok'; subst groups'.
  destruct (collected_partition items) as [Hnd [Hwg Hitems]].
  split; [assumption |]. split; [assumption |].
  split; [| split; [| split; [| assumption]]].
  - unfold groupNames. rewrite Hperm, map_map. exact Hnd.
  - eapply Permutation_Forall; [symmetry; exact Hperm |].
    apply Forall_map. eapply Forall_impl; [exact Hwg |].
    intros g. apply sortGroupItems_wellGrouped.
  - unfold groupedItems. rewrite (concat_map_Permutation group_items _ _ Hperm).
    rewrite map_map.
    rewrite (concat_map_Permutation_inner
               (fun g => group_items (sortGroupItems localeCompare g)) group_items).
    + exact Hitems.
    + intros g _. apply sortBy_Permutation.
Qed.

Section Order.
Variable localeCompare : string -> string -> Z.

(** The collation of the host is a consistent comparator, as ECMAScript
    requires of [localeCompare]. *)
Hypothesis locale_total :
  forall a b, localeCompare a b <= 0 \/ localeCompare b a <= 0.
Hypothesis locale_trans :
  forall a b c, localeCompare a b <= 0 -> localeCompare b c <= 0 -> localeCompare a c <= 0.





End Order.



(** The grouped view of the sample list. *)
Lemma weekendList_grouped :
  exists groups,
    groupShoppingListByCategory asciiCollate weekendList = Ok groups
    /\ map (fun g => (group_name g, map name (group_items g))) groups
       = [ ("Frugt", ["Appelsin"; "banan"; "kiwi"; "citron"]); ("Krydderier", ["Salt"]) ].
Proof. eexists. split; reflexivity. Qed.

(** A category that is an array index comes first among the groups
    that have as many unchecked items. *)
Lemma indexed_category_first :
  exists groups,
    groupShoppingListByCategory asciiCollate
      [ entry "Salt" "Krydderier" false high; entry "Mel" "7" false high ] = Ok groups
    /\ map group_name groups = ["7"; "Krydderier"].
Proof. eexists. split; reflexivity. Qed.

End GroupingProps.

(** ** Text *)

Module TextProps.
Import AiRecipeService.

Lemma append_assoc (a b c : string) : (a +:+ b) +:+ c = a +:+ b +:+ c.
Proof.
  induction a as [| x a IH]; [reflexivity |].
  change (String x ((a +:+ b) +:+ c) = String x (a +:+ b +:+ c)). now rewrite IH.
Qed.

Lemma append_nil_r (a : string) : a +:+ "" = a.
Proof.
  induction a as [| x a IH]; [reflexivity |].
  change (String x (a +:+ "") = String x a). now rewrite IH.
Qed.

Lemma isSubstring_refl (a : string) : isSubstring a a.
Proof. exists "", "". simpl. now rewrite append_nil_r. Qed.

Lemma isSubstring_after (needle hay before : string) :
  isSubstring needle hay ->
  isSubstring needle (before +:+ hay).
Proof.
  intros [pre [post ->]]. exists (before +:+ pre), post. now rewrite append_assoc.
Qed.

Lemma isSubstring_before (needle hay after : string) :
  isSubstring needle hay ->
  isSubstring needle (hay +:+ after).
Proof.
  intros [pre [post ->]]. exists pre, (post +:+ after). now rewrite !append_assoc.
Qed.

Lemma isSubstring_trans (a b c : string) :
  isSubstring a b -> isSubstring b c ->
  isSubstring a c.
Proof.
  intros Hab [pre [post ->]]. now apply isSubstring_after, isSubstring_before.
Qed.

End TextProps.

(** ** Further properties of the shopping list *)

Module ShoppingListMore.
Import Samples Views ShoppingListService ShoppingListProps TextProps.

(** *** The merge policy *)

Lemma toLowerCase_upperAscii (n : string) : toLowerCase (upperAscii n) = toLowerCase n.
Proof.
  induction n as [| c r IH]; simpl; [reflexivity |]. rewrite IH. f_equal.
  destruct c as [[] [] [] [] [] [] [] []]; reflexivity.
Qed.

Lemma toLowerCase_app (s t : string) :
  toLowerCase (s +:+ t) = toLowerCase s +:+ toLowerCase t.
Proof.
  induction s as [| c r IH]; [reflexivity |].
  change (String (lowerChar c) (toLowerCase (r +:+ t))
          = String (lowerChar c) (toLowerCase r +:+ toLowerCase t)).
  now rewrite IH.
Qed.

Lemma trimEnd_blank (t : string) : trimEnd (t +:+ " ") = trimEnd t.
Proof.
  induction t as [| c r IH]; [reflexivity |].
  change (trimEnd (String c (r +:+ " ")) = trimEnd (String c r)).
  cbn [trimEnd]. now rewrite IH.
Qed.

Lemma trim_padded (s : string) : trim (" " +:+ s +:+ " ") = trim s.
Proof.
  unfold trim. change (" " +:+ s +:+ " ") with (String " " (s +:+ " ")).
  change (trimStart (String " " (s +:+ " "))) with (trimStart (s +:+ " ")).
  induction s as [| c r IH]; [reflexivity |].
  change (String c r +:+ " ") with (String c (r +:+ " ")).
  cbn [trimStart]. destruct (isSpace c); [exact IH |].
  change (String c (r +:+ " ")) with (String c r +:+ " "). apply trimEnd_blank.
Qed.

(** The name test of the merge does not see the case of the letters a
    to z nor blanks around the name. *)
Lemma sameName_variants (n : string) (e : ShoppingListItem) :
  sameName n e = true ->
  sameName (upperAscii n) e = true /\ sameName (" " +:+ n +:+ " ") e = true.
Proof.
  rewrite !sameName_iff. intros ->. unfold nameKey. split.
  - now rewrite toLowerCase_upperAscii.
  - rewrite !toLowerCase_app. change (toLowerCase " ") with " ". now rewrite trim_padded.
Qed.

(** X1. The store after any run of [addToShoppingList] calls from the
    empty list, for names of ASCII characters: one entry per name
    (lower-cased and trimmed); every add has an entry that the name test
    of the merge finds by the name of the add, and also by that name in
    upper case or with blanks around it; the essential flag of an entry
    is truthy exactly when some add of its name was essential and, when
    every add carries a priority, every entry has the highest priority
    among the adds of its name. *)
Theorem adds_follow_merge_policy (adds : list (Clock * ItemInput))
    (Hascii : Forall asciiAdd adds) :
  let store := addAll adds [] in
  NoDup (keyOf <$> store)
  /\ (forall a, a ∈ adds ->
        exists e, e ∈ store
                  /\ sameName (in_name (snd a)) e = true
                  /\ sameName (upperAscii (in_name (snd a))) e = true
                  /\ sameName (" " +:+ in_name (snd a) +:+ " ") e = true)
  /\ (forall e, e ∈ store -> isEssential e = anyEssential (keyOf e) adds)
  /\ (Forall hasInputPriority adds ->
      forall e, e ∈ store -> hasPriority e /\ rank e = maxRank (keyOf e) adds).
Proof.
  cbv zeta. destruct (merge_policy adds) as [Hunique Hcovered Hessential Hpriority].
  split; [assumption |]. split; [| split; [assumption | assumption]].
  intros a Ha. specialize (Hcovered a Ha).
  apply list_elem_of_fmap in Hcovered as [e [Hkey He]].
  assert (Hsame : sameName (in_name (snd a)) e = true).
  { apply sameName_iff. now symmetry. }
  exists e. split; [assumption |]. split; [assumption |].
  now apply sameName_variants.
Qed.

Lemma adds_follow_merge_policy_witness :
  length (addAll [ (monday, prioritized "Milk" (Some (JStr "1L")) low);
                   (tuesday, prioritized " MILK " (Some (JStr "2L")) high) ] []) = 1%nat
  /\ Forall (fun e =>
               hasPriority e
               /\ rank e = maxRank (keyOf e)
                             [ (monday, prioritized "Milk" (Some (JStr "1L")) low);
                               (tuesday, prioritized " MILK " (Some (JStr "2L")) high) ])
       (addAll [ (monday, prioritized "Milk" (Some (JStr "1L")) low);
                 (tuesday, prioritized " MILK " (Some (JStr "2L")) high) ] []).
Proof.
  split; [reflexivity |].
  apply Forall_forall.
  destruct (adds_follow_merge_policy
              [ (monday, prioritized "Milk" (Some (JStr "1L")) low);
                (tuesday, prioritized " MILK " (Some (JStr "2L")) high) ])
    as [_ [_ [_ Hpriority]]].
  - repeat constructor.
  - apply Hpriority. repeat constructor; discriminate.
Defined.

(** *** One entry per name, whatever the operation *)

Lemma add_keeps_unique (clk : Clock) (item : ItemInput) (store : Store) :
  NoDup (keyOf <$> store) -> NoDup (keyOf <$> addToShoppingList clk item store).
Proof.
  intros Hu. destruct (findIndex (sameName (in_name item)) store) as [i |] eqn:Hfind.
  - destruct (add_merges clk item store i Hfind) as [existing [Hl [Hk ->]]].
    rewrite list_fmap_insert, list_insert_id; [assumption |].
    change (keyOf (mergeInto _ existing _ _ _)) with (keyOf existing).
    now apply keys_lookup.
  - destruct (add_creates clk item store Hfind) as [Hfresh [created [-> [Hk _]]]].
    rewrite fmap_app. apply NoDup_app. split; [assumption |]. split.
    + intros x Hx Hin. apply list_elem_of_singleton in Hin as ->.
      rewrite Hk in Hx. apply list_elem_of_fmap in Hx as [e [Hke Hes]].
      now apply (Hfresh e).
    + apply NoDup_singleton.
Qed.

(** The two shapes of one turn of the recipe loop. *)
Lemma addIngredient_shape (clk : Clock) (recipe : RecipeArg) (ingredient : json)
    (l l' : Store) (n n' : Z) :
  addIngredient clk recipe ingredient (l, n) = Ok (l', n') ->
  exists itemName,
    getProp (Some ingredient) "name" = Ok (Some (JStr itemName))
    /\ ((exists i existing merged,
           l !! i = Some existing /\ keyOf existing = nameKey itemName
           /\ sameEntry existing merged /\ isChecked merged = false
           /\ l' = <[i := merged]> l /\ n' = n)
        \/ (exists created,
              l' = (l ++ [created])%list /\ n' = n + 1
              /\ (forall e, e ∈ l -> keyOf e <> nameKey itemName)
              /\ name created = itemName /\ fromRecipe recipe created
              /\ categorizeIngredient (Some (JStr itemName))
                 = Ok (category created, categoryIcon created))).
Proof.
  unfold addIngredient.
  destruct (getProp (Some ingredient) "name") as [ingName | m]; [| discriminate].
  cbn [bindR].
  destruct (categorizeIngredient ingName) as [cat | m] eqn:Hcat; [| discriminate].
  cbn [bindR].
  destruct ingName as [[| | | itemName | |] |]; try discriminate.
  destruct (getProp (Some ingredient) "amount") as [ingAmount | m]; [| discriminate].
  destruct (getProp (Some ingredient) "essential") as [ingEssential | m]; [| discriminate].
  cbn [bindR]. intros H. exists itemName. split; [reflexivity |]. revert H.
  destruct (findIndex (sameName itemName) l) as [i |] eqn:Hfind.
  - destruct (findIndex_Some _ _ _ Hfind) as [existing [Hl Hsame]]. rewrite Hl.
    intros [= <- <-]. left.
    exists i, existing,
      (mergeInto clk existing ingAmount
         (Some (if truthy ingEssential then high else medium))
         (jsOr ingEssential (Some (JBool false)))).
    split; [exact Hl |]. split; [now apply sameName_iff |].
    repeat split.
  - intros [= <- <-]. right. eexists. split; [reflexivity |].
    split; [reflexivity |]. split; [| split; [reflexivity |]; split].
    + intros e He Hk. apply list_elem_of_In in He.
      apply (findIndex_None _ _ Hfind) in He.
      assert (sameName itemName e = true) by (apply sameName_iff; exact Hk).
      congruence.
    + repeat split.
    + cbn [category categoryIcon]. now destruct cat.
Qed.

Lemma sameEntry_key (e e' : ShoppingListItem) : sameEntry e e' -> keyOf e' = keyOf e.
Proof. intros [_ [Hname _]]. unfold keyOf. now rewrite Hname. Qed.

Lemma addIngredient_keeps_unique (clk : Clock) (recipe : RecipeArg) (ingredient : json)
    (l l' : Store) (n n' : Z) :
  addIngredient clk recipe ingredient (l, n) = Ok (l', n') ->
  NoDup (keyOf <$> l) -> NoDup (keyOf <$> l').
Proof.
  intros H Hu. apply addIngredient_shape in H as [itemName [_ H]].
  destruct H as [[i [existing [merged [Hl [_ [Hsame [_ [-> _]]]]]]]]
                 | [created [-> [_ [Hfresh [Hname _]]]]]].
  - rewrite list_fmap_insert, list_insert_id; [assumption |].
    rewrite (sameEntry_key _ _ Hsame). now apply keys_lookup.
  - rewrite fmap_app. apply NoDup_app. split; [assumption |]. split.
    + intros x Hx Hin. apply list_elem_of_singleton in Hin as ->.
      apply list_elem_of_fmap in Hx as [e [Hke Hes]].
      apply (Hfresh e Hes). rewrite <- Hke. unfold keyOf. now rewrite Hname.
    + apply NoDup_singleton.
Qed.

Lemma addIngredients_keeps_unique (clock : nat -> Clock) (recipe : RecipeArg)
    (ingredients : list json) :
  forall (i : nat) (l l' : Store) (n n' : Z),
    addIngredients clock recipe i ingredients (l, n) = Ok (l', n') ->
    NoDup (keyOf <$> l) -> NoDup (keyOf <$> l').
Proof.
  induction ingredients as [| ing rest IH]; intros i l l' n n' H Hu;
    cbn [addIngredients] in H.
  - inversion H; subst. assumption.
  - destruct (addIngredient (clock i) recipe ing (l, n)) as [[l1 n1] | m] eqn:Hstep;
      cbn [bindR] in H; [| discriminate].
    eapply IH; [exact H |]. eapply addIngredient_keeps_unique; eassumption.
Qed.

Lemma toggle_keys (itemId : string) (store : Store) :
  keyOf <$> toggleShoppingItem itemId store = keyOf <$> store.
Proof.
  unfold toggleShoppingItem.
  destruct (findIndex _ store) as [i |]; [| reflexivity].
  destruct (store !! i) as [it |] eqn:Hl; [| reflexivity].
  rewrite list_fmap_insert. apply list_insert_id.
  now apply keys_lookup in Hl.
Qed.

Lemma filter_keeps_unique (pred : ShoppingListItem -> bool) (store : Store) :
  NoDup (keyOf <$> store) -> NoDup (keyOf <$> List.filter pred store).
Proof.
  induction store as [| e r IH]; intros Hu; simpl; [constructor |].
  apply NoDup_cons in Hu as [Hnot Hu].
  destruct (pred e); [| now apply IH].
  rewrite fmap_cons. apply NoDup_cons. split; [| now apply IH].
  intros Hin. apply Hnot.
  apply list_elem_of_fmap in Hin as [x [Hk Hx]].
  apply list_elem_of_fmap. exists x. split; [assumption |].
  apply list_elem_of_In. apply list_elem_of_In in Hx.
  now apply filter_In in Hx as [Hx _].
Qed.

(** X2. A store with one entry per name stays so under every operation of
    the service: a manual add, the adds of a recipe (whether they succeed
    or fail), a toggle, a removal and both clearings. *)
Theorem operations_keep_names_unique (store : Store)
    (Hunique : NoDup (keyOf <$> store))
    (clk : Clock) (item : ItemInput) (clock : nat -> Clock) (recipe : RecipeArg)
    (itemId : string) :
  NoDup (keyOf <$> addToShoppingList clk item store)
  /\ NoDup (keyOf <$> snd (addRecipeToShoppingList clock recipe store))
  /\ NoDup (keyOf <$> toggleShoppingItem itemId store)
  /\ NoDup (keyOf <$> removeFromShoppingList itemId store)
  /\ NoDup (keyOf <$> clearCheckedItems store)
  /\ NoDup (keyOf <$> clearShoppingList store).
Proof.
  split; [now apply add_keeps_unique |]. split.
  - unfold addRecipeToShoppingList.
    destruct (arg_missingIngredients recipe) as [[| ing rest] |]; try assumption.
    destruct (addIngredients clock recipe O (ing :: rest) (store, 0)) as [[l n] | m] eqn:H;
      [| assumption].
    simpl. eapply addIngredients_keeps_unique; eassumption.
  - split; [now rewrite toggle_keys |].
    split; [now apply filter_keeps_unique |].
    split; [now apply filter_keeps_unique |]. constructor.
Qed.

Lemma operations_keep_names_unique_witness :
  NoDup (keyOf <$> addToShoppingList monday (named "Salt " None) weekendList)
  /\ NoDup (keyOf <$> toggleShoppingItem "shopping-kiwi" weekendList)
  /\ NoDup (keyOf <$> clearCheckedItems weekendList).
Proof.
  assert (Hunique : NoDup (keyOf <$> weekendList)).
  { apply (bool_decide_unpack _). vm_compute. exact I. }
  destruct (operations_keep_names_unique weekendList Hunique monday (named "Salt " None)
              (fun _ => monday) (mkRecipeArg None None None) "shopping-kiwi")
    as [Hadd [_ [Htoggle [_ [Hclear _]]]]].
  repeat split; assumption.
Defined.

(** *** Toggling *)

Lemma findIndex_insert {A : Type} (pred : A -> bool) (l : list A) :
  forall (i : nat) (y : A),
    findIndex pred l = Some i -> pred y = true ->
    findIndex pred (<[i := y]> l) = Some i.
Proof.
  induction l as [| x r IH]; intros i y Hf Hy; simpl in Hf; [discriminate |].
  destruct (pred x) eqn:Hx.
  - inversion Hf; subst. simpl. now rewrite Hy.
  - destruct (findIndex pred r) as [j |] eqn:Hr; simpl in Hf; [| discriminate].
    inversion Hf; subst. simpl. rewrite Hx. now rewrite (IH j y eq_refl Hy).
Qed.

Lemma findIndex_absent {A : Type} (pred : A -> bool) (l : list A) :
  Forall (fun x => pred x = false) l -> findIndex pred l = None.
Proof.
  induction 1 as [| x r Hx _ IH]; simpl; [reflexivity |]. now rewrite Hx, IH.
Qed.

(** The number of entries that satisfy [pred], after one entry is
    replaced. *)
Lemma count_insert (pred : ShoppingListItem -> bool) (l : Store) :
  forall (i : nat) (x y : ShoppingListItem),
    l !! i = Some x ->
    ShoppingListView.countWhere pred (<[i := y]> l) + (if pred x then 1 else 0)
    = ShoppingListView.countWhere pred l + (if pred y then 1 else 0).
Proof.
  unfold ShoppingListView.countWhere.
  induction l as [| e r IH]; intros i x y Hl; [discriminate |].
  destruct i as [| i]; simpl in Hl.
  - inversion Hl; subst. simpl. destruct (pred x), (pred y); simpl; lia.
  - specialize (IH i x y Hl). simpl. destruct (pred e); simpl; lia.
Qed.

(** X3. Toggling an entry twice restores the list; toggling an
    identifier that no entry has changes nothing; toggling an entry that
    is there keeps the length and moves the count of checked entries by
    one, up when the entry was unchecked and down when it was checked. *)
Theorem toggle_involutive (roundPercent : Z -> Z -> Z) (itemId : string) (store : Store) :
  toggleShoppingItem itemId (toggleShoppingItem itemId store) = store
  /\ (Forall (fun e => id e <> itemId) store -> toggleShoppingItem itemId store = store)
  /\ length (toggleShoppingItem itemId store) = length store
  /\ forall e, List.find (fun e => JsString.eqb (id e) itemId) store = Some e ->
       ShoppingListView.checked
         (ShoppingListView.getShoppingStats roundPercent (toggleShoppingItem itemId store))
       = ShoppingListView.checked (ShoppingListView.getShoppingStats roundPercent store)
         + (if isChecked e then -1 else 1).
Proof.
  assert (Hfindex : forall l : Store,
             List.find (fun e => JsString.eqb (id e) itemId) l
             = match findIndex (fun e => JsString.eqb (id e) itemId) l with
               | Some i => l !! i
               | None => None
               end).
  { induction l as [| x r IH]; simpl; [reflexivity |].
    destruct (JsString.eqb (id x) itemId); [reflexivity |].
    rewrite IH. now destruct (findIndex _ r). }
  split; [| split; [| split]].
  - unfold toggleShoppingItem at 2.
    destruct (findIndex (fun item => JsString.eqb (id item) itemId) store) as [i |] eqn:Hf.
    + destruct (store !! i) as [it |] eqn:Hl.
      * destruct (findIndex_Some _ _ _ Hf) as [x [Hx Hpred]].
        rewrite Hl in Hx. inversion Hx; subst x.
        unfold toggleShoppingItem.
        rewrite (findIndex_insert _ store i _ Hf) by exact Hpred.
        rewrite list_lookup_insert_eq by (now apply lookup_lt_Some in Hl).
        rewrite list_insert_insert_eq. cbn [id name amount category categoryIcon isChecked
          priority addedDate source recipeId recipeName essential].
        rewrite Bool.negb_involutive. apply list_insert_id.
        rewrite Hl. now destruct it.
      * unfold toggleShoppingItem. now rewrite Hf, Hl.
    + unfold toggleShoppingItem. now rewrite Hf.
  - intros Habsent. unfold toggleShoppingItem.
    rewrite findIndex_absent; [reflexivity |].
    eapply Forall_impl; [exact Habsent |]. intros e He.
    destruct (JsString.eqb (id e) itemId) eqn:Heq; [| reflexivity].
    apply CategoryProps.eqb_true_iff in Heq. contradiction.
  - unfold toggleShoppingItem.
    destruct (findIndex _ store) as [i |]; [| reflexivity].
    destruct (store !! i); [apply length_insert | reflexivity].
  - intros e He. rewrite Hfindex in He. unfold toggleShoppingItem.
    destruct (findIndex (fun item => JsString.eqb (id item) itemId) store) as [i |];
      [| discriminate].
    rewrite He. cbn [ShoppingListView.getShoppingStats ShoppingListView.checked].
    pose proof (count_insert isChecked store i e
                  {| id := id e; name := name e; amount := amount e; category := category e;
                     categoryIcon := categoryIcon e; isChecked := negb (isChecked e);
                     priority := priority e; addedDate := addedDate e; source := source e;
                     recipeId := recipeId e; recipeName := recipeName e;
                     essential := essential e |} He) as Hc.
    set (after := ShoppingListView.countWhere isChecked (<[i := _]> store)) in *.
    set (before := ShoppingListView.countWhere isChecked store) in *.
    cbn [isChecked] in Hc. clearbody after before.
    destruct (isChecked e); cbn [negb] in Hc; lia.
Qed.

Lemma toggle_involutive_witness :
  toggleShoppingItem "shopping-mel" weekendList = weekendList
  /\ ShoppingListView.checked
       (ShoppingListView.getShoppingStats roundExact
          (toggleShoppingItem "shopping-kiwi" weekendList)) = 2.
Proof.
  destruct (toggle_involutive roundExact "shopping-mel" weekendList) as [_ [Habsent _]].
  destruct (toggle_involutive roundExact "shopping-kiwi" weekendList) as [_ [_ [_ Hcount]]].
  split.
  - apply Habsent. repeat constructor; discriminate.
  - rewrite (Hcount _ eq_refl). reflexivity.
Defined.

(** *** Removing and clearing *)

Lemma filter_all {A : Type} (pred : A -> bool) (l : list A) :
  Forall (fun x => pred x = true) l -> List.filter pred l = l.
Proof.
  induction 1 as [| x r Hx _ IH]; simpl; [reflexivity |]. now rewrite Hx, IH.
Qed.

Lemma filter_satisfies {A : Type} (pred : A -> bool) (l : list A) :
  Forall (fun x => pred x = true) (List.filter pred l).
Proof.
  apply Forall_forall. intros x Hx. apply list_elem_of_In in Hx.
  now apply filter_In in Hx.
Qed.

Lemma filter_idempotent {A : Type} (pred : A -> bool) (l : list A) :
  List.filter pred (List.filter pred l) = List.filter pred l.
Proof. apply filter_all, filter_satisfies. Qed.

Lemma differs (a b : string) : negb (JsString.eqb a b) = true <-> a <> b.
Proof. rewrite Bool.negb_true_iff. apply CategoryProps.eqb_false_iff. Qed.

(** X4. An add that creates an entry is undone by removing the
    identifier it was given, when no other entry has that identifier. *)
Theorem add_then_remove (clk : Clock) (item : ItemInput) (store : Store)
    (Hnew : findIndex (sameName (in_name item)) store = None)
    (Hfresh : Forall (fun e => id e <> newId clk) store) :
  removeFromShoppingList (newId clk) (addToShoppingList clk item store) = store.
Proof.
  unfold addToShoppingList. rewrite Hnew. unfold removeFromShoppingList.
  rewrite List.filter_app. cbn [List.filter id].
  replace (JsString.eqb (newId clk) (newId clk)) with true
    by (symmetry; now apply CategoryProps.eqb_true_iff).
  cbn [negb]. rewrite app_nil_r. apply filter_all.
  eapply Forall_impl; [exact Hfresh |]. intros e He. now apply differs.
Qed.

Lemma add_then_remove_witness :
  removeFromShoppingList (newId monday)
    (addToShoppingList monday (named "Mel" None) weekendList) = weekendList.
Proof.
  apply (add_then_remove monday (named "Mel" None) weekendList); [reflexivity |].
  repeat constructor; vm_compute; discriminate.
Defined.

(** X5. After a removal no entry has the identifier and every other
    entry is still there; removing an identifier that no entry has
    changes nothing, and so does removing again or toggling the removed
    identifier. *)
Theorem remove_is_final (itemId : string) (store : Store) :
  let store' := removeFromShoppingList itemId store in
  Forall (fun e => id e <> itemId) store'
  /\ (forall e, In e store -> id e <> itemId -> In e store')
  /\ (Forall (fun e => id e <> itemId) store -> store' = store)
  /\ removeFromShoppingList itemId store' = store'
  /\ toggleShoppingItem itemId store' = store'.
Proof.
  cbv zeta.
  assert (Hgone : Forall (fun e => id e <> itemId) (removeFromShoppingList itemId store)).
  { eapply Forall_impl; [apply filter_satisfies |]. intros e He. now apply differs. }
  split; [exact Hgone |]. split; [| split; [| split]].
  - intros e He Hid. apply filter_In. split; [assumption | now apply differs].
  - intros Habsent. apply filter_all.
    eapply Forall_impl; [exact Habsent |]. intros e He. now apply differs.
  - apply filter_idempotent.
  - unfold toggleShoppingItem. rewrite findIndex_absent; [reflexivity |].
    eapply Forall_impl; [exact Hgone |]. intros e He.
    now apply CategoryProps.eqb_false_iff.
Qed.

Lemma remove_is_final_witness :
  In (entry "Salt" "Krydderier" false high)
    (removeFromShoppingList "shopping-kiwi" weekendList).
Proof.
  destruct (remove_is_final "shopping-kiwi" weekendList) as [_ [Hkept _]].
  apply Hkept; [simpl; tauto | discriminate].
Defined.

Lemma count_Permutation (pred : ShoppingListItem -> bool) (l l' : Store) :
  Permutation l l' ->
  ShoppingListView.countWhere pred l = ShoppingListView.countWhere pred l'.
Proof.
  unfold ShoppingListView.countWhere. intros H. f_equal.
  induction H as [| x l l' _ IH | x y l | l l' l'' _ IH1 _ IH2]; simpl.
  - reflexivity.
  - destruct (pred x); simpl; now rewrite IH.
  - destruct (pred x), (pred y); reflexivity.
  - congruence.
Qed.

Lemma count_bounds (pred : ShoppingListItem -> bool) (l : Store) :
  0 <= ShoppingListView.countWhere pred l <= Z.of_nat (length l).
Proof.
  unfold ShoppingListView.countWhere. pose proof (filter_length_le pred l). lia.
Qed.

Lemma count_none (pred : ShoppingListItem -> bool) (l : Store) :
  Forall (fun x => pred x = false) l -> ShoppingListView.countWhere pred l = 0.
Proof.
  unfold ShoppingListView.countWhere.
  induction 1 as [| x r Hx _ IH]; simpl; [reflexivity |]. now rewrite Hx.
Qed.

Lemma count_split (pred : ShoppingListItem -> bool) (l : Store) :
  ShoppingListView.countWhere pred l
  + ShoppingListView.countWhere (fun x => negb (pred x)) l
  = Z.of_nat (length l).
Proof.
  unfold ShoppingListView.countWhere. pose proof (filter_length pred l). lia.
Qed.

Lemma count_filter (pred keep : ShoppingListItem -> bool) (l : Store) :
  (forall x, pred x = true -> keep x = true) ->
  ShoppingListView.countWhere pred (List.filter keep l) = ShoppingListView.countWhere pred l.
Proof.
  unfold ShoppingListView.countWhere. intros Himp. f_equal.
  induction l as [| x r IH]; simpl; [reflexivity |].
  destruct (keep x) eqn:Hk; simpl.
  - destruct (pred x); simpl; now rewrite IH.
  - destruct (pred x) eqn:Hp; [| exact IH].
    apply Himp in Hp. congruence.
Qed.

(** X6. The statistics of any list: the checked and the unchecked
    entries make up the total, the count of essential entries left is
    between zero and the count of unchecked entries, an empty list has
    progress zero, and the order of the entries does not matter, so that
    a grouped view, when one is returned, has the statistics of the
    list. *)
Theorem stats_are_counts (roundPercent : Z -> Z -> Z)
    (localeCompare : string -> string -> Z) (items : Store) :
  let stats := ShoppingListView.getShoppingStats roundPercent items in
  ShoppingListView.total stats = Z.of_nat (length items)
  /\ 0 <= ShoppingListView.checked stats <= ShoppingListView.total stats
  /\ ShoppingListView.checked stats + ShoppingListView.unchecked stats
     = ShoppingListView.total stats
  /\ ShoppingListView.unchecked stats
     = ShoppingListView.countWhere (fun e => negb (isChecked e)) items
  /\ 0 <= ShoppingListView.essentialLeft stats <= ShoppingListView.unchecked stats
  /\ ShoppingListView.progress (ShoppingListView.getShoppingStats roundPercent []) = 0
  /\ match groupShoppingListByCategory localeCompare items with
     | Ok groups =>
         ShoppingListView.getShoppingStats roundPercent (groupedItems groups) = stats
     | Err msg => msg = typeError
     end.
Proof.
  cbv zeta. cbn [ShoppingListView.getShoppingStats ShoppingListView.total
    ShoppingListView.checked ShoppingListView.unchecked ShoppingListView.essentialLeft
    ShoppingListView.progress].
  pose proof (count_bounds isChecked items) as Hc.
  pose proof (count_split isChecked items) as Hs.
  split; [reflexivity |]. split; [exact Hc |]. split; [lia |]. split; [lia |].
  split; [| split; [reflexivity |]].
  - split; [apply count_bounds |].
    assert (ShoppingListView.countWhere ShoppingListView.essentialAndOpen items
            <= ShoppingListView.countWhere (fun e => negb (isChecked e)) items); [| lia].
    rewrite <- (count_filter ShoppingListView.essentialAndOpen
                  (fun e => negb (isChecked e)) items).
    + unfold ShoppingListView.countWhere at 2.
      pose proof (count_bounds ShoppingListView.essentialAndOpen
                    (List.filter (fun e => negb (isChecked e)) items)). lia.
    + intros x Hx. unfold ShoppingListView.essentialAndOpen in Hx.
      now apply andb_prop in Hx.
  - destruct (groupShoppingListByCategory localeCompare items) as [groups | msg] eqn:Hok.
    + destruct (GroupingProps.grouping_partition _ _ _ Hok) as [_ [_ [_ [_ [Hperm _]]]]].
      unfold ShoppingListView.getShoppingStats.
      rewrite (Permutation_length Hperm).
      rewrite (count_Permutation isChecked _ _ Hperm).
      rewrite (count_Permutation ShoppingListView.essentialAndOpen _ _ Hperm).
      reflexivity.
    + destruct (GroupingProps.grouping_cases localeCompare items)
        as [[_ [groups [Hok' _]]] | [_ Herr]]; congruence.
Qed.

(** X7. Clearing the checked entries leaves the unchecked ones, in
    their order: the list then has no checked entry, as many entries as
    were unchecked, and the same count of essential entries left;
    clearing again changes nothing. *)
Theorem clear_checked_stats (roundPercent : Z -> Z -> Z) (store : Store) :
  let before := ShoppingListView.getShoppingStats roundPercent store in
  let after := ShoppingListView.getShoppingStats roundPercent (clearCheckedItems store) in
  Forall (fun e => isChecked e = false) (clearCheckedItems store)
  /\ ShoppingListView.checked after = 0
  /\ ShoppingListView.total after = ShoppingListView.unchecked before
  /\ ShoppingListView.unchecked after = ShoppingListView.unchecked before
  /\ ShoppingListView.essentialLeft after = ShoppingListView.essentialLeft before
  /\ clearCheckedItems (clearCheckedItems store) = clearCheckedItems store.
Proof.
  cbv zeta.
  assert (Hopen : Forall (fun e => isChecked e = false) (clearCheckedItems store)).
  { eapply Forall_impl; [apply filter_satisfies |]. intros e He.
    now apply Bool.negb_true_iff. }
  cbn [ShoppingListView.getShoppingStats ShoppingListView.total
    ShoppingListView.checked ShoppingListView.unchecked ShoppingListView.essentialLeft].
  pose proof (count_none isChecked _ Hopen) as Hzero.
  pose proof (count_split isChecked store) as Hs.
  assert (Hlen : Z.of_nat (length (clearCheckedItems store))
                 = ShoppingListView.countWhere (fun e => negb (isChecked e)) store)
    by reflexivity.
  split; [exact Hopen |]. split; [exact Hzero |]. split; [lia |]. split; [lia |].
  split; [| apply filter_idempotent].
  apply count_filter. intros x Hx. unfold ShoppingListView.essentialAndOpen in Hx.
  now apply andb_prop in Hx.
Qed.

(** *** The grouped view of any list *)

(** The first item of a category in a list. *)
Lemma find_app_Some {A : Type} (pred : A -> bool) (l l' : list A) (x : A) :
  List.find pred l = Some x -> List.find pred (l ++ l') = Some x.
Proof.
  induction l as [| y r IH]; simpl; [discriminate |].
  destruct (pred y); [trivial | exact IH].
Qed.

Lemma find_app_None {A : Type} (pred : A -> bool) (l l' : list A) :
  List.find pred l = None -> List.find pred (l ++ l') = List.find pred l'.
Proof.
  induction l as [| y r IH]; simpl; [trivial |].
  destruct (pred y); [discriminate | exact IH].
Qed.

Lemma putItem_icons (item : ShoppingListItem) (seen : list ShoppingListItem)
    (grouped : list Group) :
  Forall (iconFrom seen) grouped ->
  (~ In (categoryOf item) (groupNames grouped) ->
   List.find (fun x => JsString.eqb (categoryOf x) (categoryOf item)) seen = None) ->
  Forall (iconFrom (seen ++ [item])) (putItem item grouped).
Proof.
  assert (Hkeep : forall g, iconFrom seen g -> iconFrom (seen ++ [item]) g).
  { intros g [first [Hf Hi]]. exists first. split; [| exact Hi].
    now apply find_app_Some. }
  induction grouped as [| g r IH]; intros Hall Hnew; simpl.
  - constructor; [| constructor]. exists item. split; [| reflexivity].
    cbn [group_name]. rewrite find_app_None by (apply Hnew; intros []).
    simpl. replace (JsString.eqb (categoryOf item) (categoryOf item)) with true
      by (symmetry; now apply CategoryProps.eqb_true_iff).
    reflexivity.
  - apply Forall_cons_iff in Hall as [Hg Hr].
    destruct (JsString.eqb (group_name g) (categoryOf item)) eqn:Heq.
    + constructor; [| eapply Forall_impl; [exact Hr | exact Hkeep]].
      destruct (Hkeep g Hg) as [first [Hf Hi]]. exists first. split; assumption.
    + constructor; [now apply Hkeep |]. apply IH; [assumption |].
      intros Hnot. apply Hnew. simpl. intros [Hname | Hin]; [| contradiction].
      apply CategoryProps.eqb_false_iff in Heq. contradiction.
Qed.

Lemma collect_icons (items : list ShoppingListItem) :
  forall (seen : list ShoppingListItem) (acc : list Group),
    Forall (iconFrom seen) acc ->
    (forall x, In x seen -> In (categoryOf x) (groupNames acc)) ->
    Forall (iconFrom (seen ++ items))
      (fold_left (fun grouped item => putItem item grouped) items acc).
Proof.
  induction items as [| item rest IH]; intros seen acc Hicons Hcovered; simpl.
  - now rewrite app_nil_r.
  - replace (seen ++ item :: rest)%list with ((seen ++ [item]) ++ rest)%list
      by (now rewrite <- app_assoc).
    apply IH.
    + apply putItem_icons; [assumption |]. intros Hnot.
      destruct (List.find _ seen) as [x |] eqn:Hfind; [| reflexivity].
      apply find_some in Hfind as [Hx Heq].
      apply CategoryProps.eqb_true_iff in Heq.
      apply Hcovered in Hx. rewrite Heq in Hx. contradiction.
    + intros x Hx.
      destruct (GroupingProps.putItem_names item acc) as [[Hin ->] | [_ ->]];
        apply in_app_or in Hx as [Hx | [<- | []]]; try apply in_or_app; auto.
      right. now left.
Qed.

(** X8. The grouped view of any list, whatever the priorities of its
    items and whatever the collation. When a category is a name that
    every object inherits (constructor, toString, __proto__ and the
    like), the function throws a type error. Otherwise it returns
    groups: they have distinct names, none is empty, every item is in the
    group named after its category and the groups together hold exactly
    the items; the groups come by descending count of unchecked items;
    the icon of a group is that of the first item of its category in the
    list. *)
Theorem grouped_view_partition (localeCompare : string -> string -> Z)
    (items : list ShoppingListItem) :
  match groupShoppingListByCategory localeCompare items with
  | Ok groups =>
      Forall groupable items
      /\ NoDup (groupNames groups)
      /\ Forall wellGrouped groups
      /\ Permutation (groupedItems groups) items
      /\ StronglySorted groupBefore groups
      /\ Forall (iconFrom items) groups
  | Err msg =>
      msg = typeError
      /\ Exists (fun item => inherited (categoryOf item) = true) items
  end.
Proof.
  destruct (groupShoppingListByCategory localeCompare items) as [groups | msg] eqn:Hok.
  - destruct (GroupingProps.grouping_partition _ _ _ Hok)
      as [Hall [Hperm [Hnd [Hwg [Hitems Hsorted]]]]].
    repeat (split; [assumption |]).
    pose proof (collect_icons items [] [] ltac:(constructor) ltac:(intros x [])) as Hicons.
    cbn [app] in Hicons. fold (collected items) in Hicons.
    eapply Permutation_Forall; [symmetry; exact Hperm |].
    apply Forall_map. eapply Forall_impl; [exact Hicons |].
    intros g Hg. exact Hg.
  - destruct (GroupingProps.grouping_cases localeCompare items)
      as [[_ [groups [Hok' _]]] | [Hex Herr]]; [congruence |].
    split; [congruence | assumption].
Qed.

(** A list with a category named as a property of every object. *)
Lemma inherited_category_example (localeCompare : string -> string -> Z) :
  groupShoppingListByCategory localeCompare
    [ entry "Salt" "Krydderier" false high; entry "Mel" "constructor" false high ]
  = Err typeError.
Proof. reflexivity. Qed.

(** *** The export *)

Lemma isSubstring_concat (x : string) (l : list string) :
  In x l -> AiRecipeService.isSubstring x (ShoppingListView.concatStrings l).
Proof.
  induction l as [| y r IH]; intros Hin; [destruct Hin |]. simpl.
  destruct Hin as [-> | Hin].
  - apply isSubstring_before, isSubstring_refl.
  - now apply isSubstring_after, IH.
Qed.

(** X9. The export of the empty list is the message that the list is
    empty. The export of any other list throws a type error when a
    category is a name that every object inherits; otherwise it is the
    heading, a body and the status line with the counts of the list, and
    the body has the line of every item of the list and the heading of
    every group of the grouped view. *)
Theorem export_lists_every_item (roundPercent : Z -> Z -> Z)
    (localeCompare : string -> string -> Z) (toUpperCase : string -> string)
    (items : list ShoppingListItem) :
  ShoppingListView.exportShoppingListAsText roundPercent localeCompare toUpperCase []
  = Ok ShoppingListView.emptyExport
  /\ (items <> [] ->
      match ShoppingListView.exportShoppingListAsText roundPercent localeCompare
              toUpperCase items with
      | Ok text =>
          exists groups body,
            groupShoppingListByCategory localeCompare items = Ok groups
            /\ text = ShoppingListView.exportHeader +:+ body
                        +:+ ShoppingListView.statusLine
                              (ShoppingListView.getShoppingStats roundPercent items)
            /\ (forall item, In item items ->
                  AiRecipeService.isSubstring (ShoppingListView.itemLine item) body)
            /\ (forall g, In g groups ->
                  AiRecipeService.isSubstring
                    (group_icon g +:+ " " +:+ toUpperCase (group_name g)
                       +:+ ShoppingListView.lf) body)
      | Err msg =>
          msg = typeError
          /\ Exists (fun item => inherited (categoryOf item) = true) items
      end).
Proof.
  split; [reflexivity |]. intros Hne.
  destruct items as [| first rest]; [contradiction |].
  set (items := first :: rest) in *.
  unfold ShoppingListView.exportShoppingListAsText. fold items.
  change (match items with
          | [] => Ok ShoppingListView.emptyExport
          | _ :: _ =>
              grouped <-! groupShoppingListByCategory localeCompare items ;;
              Ok (ShoppingListView.exportHeader
                    +:+ ShoppingListView.concatStrings
                          (map (ShoppingListView.groupText toUpperCase) grouped)
                    +:+ ShoppingListView.statusLine
                          (ShoppingListView.getShoppingStats roundPercent items))
          end)
    with (grouped <-! groupShoppingListByCategory localeCompare items ;;
          Ok (ShoppingListView.exportHeader
                +:+ ShoppingListView.concatStrings
                      (map (ShoppingListView.groupText toUpperCase) grouped)
                +:+ ShoppingListView.statusLine
                      (ShoppingListView.getShoppingStats roundPercent items))).
  destruct (groupShoppingListByCategory localeCompare items) as [groups | msg] eqn:Hok;
    cbn [bindR].
  2: { destruct (GroupingProps.grouping_cases localeCompare items)
         as [[_ [groups [Hok' _]]] | [Hex Herr]]; [congruence |].
       split; [congruence | assumption]. }
  destruct (GroupingProps.grouping_partition _ _ _ Hok) as [_ [_ [_ [_ [Hperm _]]]]].
  exists groups,
    (ShoppingListView.concatStrings (map (ShoppingListView.groupText toUpperCase) groups)).
  split; [reflexivity |]. split; [reflexivity |]. split.
  - intros item Hitem.
    apply (Permutation_in _ (Permutation_sym Hperm)) in Hitem.
    unfold groupedItems in Hitem. apply in_concat in Hitem as [l [Hl Hin]].
    apply in_map_iff in Hl as [g [<- Hg]].
    apply (isSubstring_trans _ (ShoppingListView.groupText toUpperCase g)).
    + unfold ShoppingListView.groupText. rewrite <- !append_assoc.
      apply isSubstring_before, isSubstring_after.
      apply isSubstring_concat. now apply in_map.
    + apply isSubstring_concat.
      now apply (in_map (ShoppingListView.groupText toUpperCase)).
  - intros g Hg.
    apply (isSubstring_trans _ (ShoppingListView.groupText toUpperCase g)).
    + unfold ShoppingListView.groupText.
      exists "", (ShoppingListView.concatStrings
                    (map ShoppingListView.itemLine (group_items g)) +:+ ShoppingListView.lf).
      simpl. now rewrite !append_assoc.
    + apply isSubstring_concat.
      now apply (in_map (ShoppingListView.groupText toUpperCase)).
Qed.

Lemma export_lists_every_item_witness :
  exists body,
    ShoppingListView.exportShoppingListAsText roundExact asciiCollate upperAscii weekendList
    = Ok (ShoppingListView.exportHeader +:+ body
            +:+ ShoppingListView.statusLine
                  (ShoppingListView.getShoppingStats roundExact weekendList))
    /\ AiRecipeService.isSubstring
         (ShoppingListView.itemLine (entry "kiwi" "Frugt" false low)) body.
Proof.
  destruct (export_lists_every_item roundExact asciiCollate upperAscii weekendList)
    as [_ Hfull].
  specialize (Hfull ltac:(discriminate)).
  destruct (ShoppingListView.exportShoppingListAsText roundExact asciiCollate upperAscii
              weekendList) as [text | msg] eqn:Htext.
  - destruct Hfull as [groups [body [_ [-> [Hitems _]]]]].
    exists body. split; [reflexivity |]. apply Hitems. simpl. tauto.
  - exfalso. destruct Hfull as [_ Hex].
    apply Exists_exists in Hex as [item [Hitem Hinh]].
    apply list_elem_of_In in Hitem. simpl in Hitem.
    repeat (destruct Hitem as [<- | Hitem]; [discriminate Hinh |]). destruct Hitem.
Defined.

(** The export of the sample list. *)
Lemma export_example :
  ShoppingListView.exportShoppingListAsText roundExact asciiCollate upperAscii
    [ entry "Salt" "Krydderier" false high; entry "citron" "Frugt" true low ]
  = Ok "🛒 INDKØBSLISTE

🛒 KRYDDERIER
☐ Salt (1 stk)

🛒 FRUGT
✅ citron (1 stk)

📊 Status: 1/2 afkrydset (50%)".
Proof. reflexivity. Qed.

(** *** The categories of ingredients *)

Lemma lowerChar_idempotent (c : ascii) : lowerChar (lowerChar c) = lowerChar c.
Proof.
  destruct c as [[] [] [] [] [] [] [] []]; reflexivity.
Qed.

Lemma toLowerCase_idempotent (s : string) : toLowerCase (toLowerCase s) = toLowerCase s.
Proof.
  induction s as [| c r IH]; simpl; [reflexivity |].
  now rewrite lowerChar_idempotent, IH.
Qed.

(** X10. [categorizeIngredient] gives every name one of eight
    categories, each with its icon, the same as for the lower-cased name;
    on anything that is not a string it throws. *)
Theorem categorize_is_total_on_names (n : string) :
  (exists cat,
      categorizeIngredient (Some (JStr n)) = Ok cat
      /\ In cat [ ("Mejeriprodukter", "🥛"); ("Kød & Fisk", "🥩"); ("Grøntsager", "🥕");
                  ("Frugt", "🍎"); ("Brød & Korn", "🍞"); ("Krydderier", "🧂");
                  ("Æg", "🥚"); ("Andre", "🛒") ]
      /\ categorizeIngredient (Some (JStr (toLowerCase n))) = Ok cat)
  /\ forall v, (forall s, v <> Some (JStr s)) -> categorizeIngredient v = Err typeError.
Proof.
  split.
  - unfold categorizeIngredient. cbv zeta. rewrite toLowerCase_idempotent.
    repeat match goal with
           | |- context [if ?c then _ else _] => destruct c
           end;
      eexists; (split; [reflexivity |]); (split; [simpl; tauto | reflexivity]).
  - intros v Hv. destruct v as [[| | | s | |] |]; try reflexivity.
    now destruct (Hv s).
Qed.

Lemma categorize_is_total_on_names_witness :
  categorizeIngredient (Some (JNum "3")) = Err typeError.
Proof.
  apply (proj2 (categorize_is_total_on_names "")). discriminate.
Defined.

(** *** Adding the ingredients of a recipe *)

(** *** Adding the ingredients of a recipe *)

Lemma sameEntry_refl (e : ShoppingListItem) : sameEntry e e.
Proof. repeat split. Qed.

Lemma sameEntry_trans (a b c : ShoppingListItem) :
  sameEntry a b -> sameEntry b c -> sameEntry a c.
Proof. unfold sameEntry. intuition congruence. Qed.

Lemma sameEntry_fromRecipe (recipe : RecipeArg) (e e' : ShoppingListItem) :
  sameEntry e e' -> isChecked e' = false -> fromRecipe recipe e -> fromRecipe recipe e'.
Proof. unfold sameEntry, fromRecipe. intuition congruence. Qed.

Lemma extends_refl (recipe : RecipeArg) (l : Store) : extends recipe l l.
Proof.
  split; [lia |]. intros i e He. left. exists e.
  split; [assumption |]. split; [apply sameEntry_refl | trivial].
Qed.

Lemma extends_trans (recipe : RecipeArg) (l l1 l2 : Store) :
  extends recipe l l1 -> extends recipe l1 l2 -> extends recipe l l2.
Proof.
  intros [Hlen1 H1] [Hlen2 H2]. split; [lia |]. intros i e2 He2.
  destruct (H2 i e2 He2) as [[e1 [He1 [Hs12 Hf12]]] | [Hi Hf]].
  - destruct (H1 i e1 He1) as [[e [He [Hs01 Hf01]]] | [Hi Hf]].
    + left. exists e. split; [assumption |].
      split; [eapply sameEntry_trans; eassumption | auto].
    + right. split; [assumption | auto].
  - right. split; [lia | assumption].
Qed.

Lemma addIngredient_extends (clk : Clock) (recipe : RecipeArg) (ingredient : json)
    (l l' : Store) (n n' : Z) :
  addIngredient clk recipe ingredient (l, n) = Ok (l', n') -> extends recipe l l'.
Proof.
  intros H. apply addIngredient_shape in H as [itemName [_ H]].
  destruct H as [[i [existing [merged [Hl [_ [Hsame [Hopen [-> _]]]]]]]]
                 | [created [-> [_ [_ [_ [Hfrom _]]]]]]].
  - split; [rewrite length_insert; lia |]. intros j e' He'.
    apply list_lookup_insert_Some in He' as [[<- [<- _]] | [Hne He']].
    + left. exists existing. split; [assumption |]. split; [assumption |].
      now apply sameEntry_fromRecipe.
    + left. exists e'. split; [assumption |]. split; [apply sameEntry_refl | trivial].
  - split; [rewrite length_app; simpl; lia |]. intros j e' He'.
    apply lookup_app_Some in He' as [He' | [Hj He']].
    + left. exists e'. split; [assumption |]. split; [apply sameEntry_refl | trivial].
    + right. split; [assumption |].
      destruct (j - length l)%nat; [| discriminate]. now inversion He'; subst.
Qed.

Lemma addIngredients_extends (clock : nat -> Clock) (recipe : RecipeArg)
    (ingredients : list json) :
  forall (i : nat) (l l' : Store) (n n' : Z),
    addIngredients clock recipe i ingredients (l, n) = Ok (l', n') ->
    extends recipe l l'.
Proof.
  induction ingredients as [| ing rest IH]; intros i l l' n n' H;
    cbn [addIngredients] in H.
  - inversion H; subst. apply extends_refl.
  - destruct (addIngredient (clock i) recipe ing (l, n)) as [[l1 n1] | m] eqn:Hstep;
      cbn [bindR] in H; [| discriminate].
    eapply extends_trans; [eapply addIngredient_extends; eassumption |].
    eapply IH; eassumption.
Qed.

Lemma extends_keeps (recipe : RecipeArg) (l l' : Store) :
  extends recipe l l' -> keepsEntries l l'.
Proof.
  intros [Hlen H] i e He.
  assert (Hi : (i < length l')%nat) by (apply lookup_lt_Some in He; lia).
  apply lookup_lt_is_Some in Hi as [e' He'].
  exists e'. split; [assumption |].
  destruct (H i e' He') as [[e0 [He0 [Hsame _]]] | [Hi _]].
  - rewrite He in He0. now inversion He0; subst.
  - apply lookup_lt_Some in He. lia.
Qed.

Lemma keepsEntries_keys (l l' : Store) (k : string) :
  keepsEntries l l' -> k ∈ keyOf <$> l -> k ∈ keyOf <$> l'.
Proof.
  intros Hkeep Hk. apply list_elem_of_fmap in Hk as [e [-> He]].
  apply list_elem_of_lookup in He as [i He].
  destruct (Hkeep i e He) as [e' [He' Hsame]].
  rewrite <- (sameEntry_key _ _ Hsame).
  apply list_elem_of_fmap. exists e'. split; [reflexivity |].
  apply list_elem_of_lookup. now exists i.
Qed.

(** X11. The adds of a recipe, in every outcome. A failure leaves the
    store as it was. A success reports the size of the saved list and
    the number of entries appended. No entry is ever removed, moved or
    renamed: every entry stays at its index with its identifier, name,
    category and origin. Every entry past the old end is unchecked and
    names the recipe. *)
Theorem add_recipe_keeps_entries (clock : nat -> Clock) (recipe : RecipeArg)
    (store : Store) :
  let outcome := addRecipeToShoppingList clock recipe store in
  keepsEntries store (snd outcome)
  /\ (forall msg, fst outcome = Err msg -> snd outcome = store)
  /\ (forall r, fst outcome = Ok r ->
        success r = true
        /\ totalItems r = Z.of_nat (length (snd outcome))
        /\ addedCount r = Z.of_nat (length (snd outcome)) - Z.of_nat (length store)
        /\ 0 <= addedCount r)
  /\ (forall i e, (length store <= i)%nat -> snd outcome !! i = Some e ->
        fromRecipe recipe e).
Proof.
  cbv zeta.
  assert (Hext : extends recipe store (snd (addRecipeToShoppingList clock recipe store))).
  { unfold addRecipeToShoppingList.
    destruct (arg_missingIngredients recipe) as [[| ing rest] |];
      try apply extends_refl.
    destruct (addIngredients clock recipe O (ing :: rest) (store, 0)) as [[l n] | m] eqn:H;
      [| apply extends_refl].
    eapply addIngredients_extends; eassumption. }
  split; [eapply extends_keeps; exact Hext |].
  split; [intros msg; apply addRecipe_atomic |].
  split; [intros r; apply addRecipe_counts |].
  intros i e Hi He. destruct Hext as [_ Hext].
  destruct (Hext i e He) as [[e0 [He0 _]] | [_ Hfrom]]; [| exact Hfrom].
  apply lookup_lt_Some in He0. lia.
Qed.

Lemma add_recipe_keeps_entries_witness :
  snd (addRecipeToShoppingList (fun _ => tuesday) creamSoup weekendList) !! 5%nat
  = Some (mkItem (newId tuesday) "Fløde" (Some (JStr "1 dl")) "Mejeriprodukter" "🥛" false
            (Some high) (isoNow tuesday) source_recipe
            (Some (JStr "ai-recipe-1700000000000-0")) (Some (JStr "Tomatsuppe"))
            (Some (JBool true)))
  /\ fromRecipe creamSoup
       (mkItem (newId tuesday) "Fløde" (Some (JStr "1 dl")) "Mejeriprodukter" "🥛" false
          (Some high) (isoNow tuesday) source_recipe
          (Some (JStr "ai-recipe-1700000000000-0")) (Some (JStr "Tomatsuppe"))
          (Some (JBool true))).
Proof.
  assert (Hfifth :
            snd (addRecipeToShoppingList (fun _ => tuesday) creamSoup weekendList) !! 5%nat
            = Some (mkItem (newId tuesday) "Fløde" (Some (JStr "1 dl")) "Mejeriprodukter"
                      "🥛" false (Some high) (isoNow tuesday) source_recipe
                      (Some (JStr "ai-recipe-1700000000000-0")) (Some (JStr "Tomatsuppe"))
                      (Some (JBool true)))) by reflexivity.
  split; [exact Hfifth |].
  destruct (add_recipe_keeps_entries (fun _ => tuesday) creamSoup weekendList)
    as [_ [_ [_ Hnew]]].
  apply (Hnew 5%nat); [simpl; lia | exact Hfifth].
Defined.

Lemma addIngredients_covers (clock : nat -> Clock) (recipe : RecipeArg)
    (ingredients : list json) :
  forall (i : nat) (l l' : Store) (n n' : Z),
    addIngredients clock recipe i ingredients (l, n) = Ok (l', n') ->
    forall ingredient itemName,
      In ingredient ingredients ->
      getProp (Some ingredient) "name" = Ok (Some (JStr itemName)) ->
      nameKey itemName ∈ keyOf <$> l'.
Proof.
  induction ingredients as [| ing rest IH]; intros i l l' n n' H ingredient itemName Hin Hname;
    [destruct Hin |]; cbn [addIngredients] in H.
  destruct (addIngredient (clock i) recipe ing (l, n)) as [[l1 n1] | m] eqn:Hstep;
    cbn [bindR] in H; [| discriminate].
  destruct Hin as [-> | Hin]; [| eapply IH; eassumption].
  apply (keepsEntries_keys l1 l').
  { eapply extends_keeps, addIngredients_extends; eassumption. }
  apply addIngredient_shape in Hstep as [itemName' [Hname' Hstep]].
  rewrite Hname in Hname'. inversion Hname'; subst itemName'.
  destruct Hstep as [[j [existing [merged [Hl [Hk [Hsame [_ [-> _]]]]]]]]
                     | [created [-> [_ [_ [Hcreated _]]]]]].
  - apply list_elem_of_fmap. exists merged. split.
    + rewrite (sameEntry_key _ _ Hsame). now symmetry.
    + apply list_elem_of_lookup. exists j.
      apply list_lookup_insert_eq. now apply lookup_lt_Some in Hl.
  - apply list_elem_of_fmap. exists created. split.
    + unfold keyOf. now rewrite Hcreated.
    + apply elem_of_app. right. now apply list_elem_of_singleton.
Qed.

(** X12. A recipe whose missing ingredients all have a string for a
    name is added with success. When the names of the list and of the
    ingredients are of ASCII characters, the list has afterwards, for
    every ingredient, an entry that the name test of the merge finds by
    the name of the ingredient, and also by that name in upper case or
    with blanks around it. *)
Theorem add_recipe_covers (clock : nat -> Clock) (recipe : RecipeArg) (store : Store)
    (ing : json) (rest : list json)
    (Hlist : arg_missingIngredients recipe = Some (ing :: rest))
    (Hnamed : Forall named_ingredient (ing :: rest))
    (Hstore : Forall asciiEntry store)
    (Hascii : Forall asciiIngredient (ing :: rest)) :
  let outcome := addRecipeToShoppingList clock recipe store in
  (exists r, fst outcome = Ok r)
  /\ forall ingredient itemName,
       In ingredient (ing :: rest) ->
       getProp (Some ingredient) "name" = Ok (Some (JStr itemName)) ->
       exists e, e ∈ snd outcome
                 /\ sameName itemName e = true
                 /\ sameName (upperAscii itemName) e = true
                 /\ sameName (" " +:+ itemName +:+ " ") e = true.
Proof.
  cbv zeta. destruct (addRecipe_named clock recipe store ing rest Hlist Hnamed) as [r Hr].
  split; [now exists r |]. revert Hr. unfold addRecipeToShoppingList. rewrite Hlist.
  destruct (addIngredients clock recipe O (ing :: rest) (store, 0)) as [[l n] | m] eqn:H;
    [| discriminate].
  intros _ ingredient itemName Hin Hname. cbn [snd].
  pose proof (addIngredients_covers _ _ _ _ _ _ _ _ H ingredient itemName Hin Hname)
    as Hcovered.
  apply list_elem_of_fmap in Hcovered as [e [Hkey He]].
  assert (Hsame : sameName itemName e = true).
  { apply sameName_iff. now symmetry. }
  exists e. split; [assumption |]. split; [assumption |].
  now apply sameName_variants.
Qed.

Lemma add_recipe_covers_witness :
  exists e,
    e ∈ snd (addRecipeToShoppingList (fun _ => tuesday) riceDish weekendList)
    /\ sameName "SALT " e = true
    /\ sameName (upperAscii "SALT ") e = true
    /\ sameName "  SALT  " e = true.
Proof.
  refine (proj2 (add_recipe_covers (fun _ => tuesday) riceDish weekendList _ _ eq_refl _ _ _)
            _ "SALT " (or_introl eq_refl) eq_refl).
  - repeat constructor; eexists; reflexivity.
  - repeat constructor.
  - repeat constructor; intros n Hn; inversion Hn; reflexivity.
Defined.

(** The adds of the sample recipe: "SALT " is merged into the entry
    "Salt", "Ris" is appended. *)
Lemma riceDish_example :
  map (fun e => (name e, amount e))
    (snd (addRecipeToShoppingList (fun _ => tuesday) riceDish weekendList))
  = [ ("citron", Some (JStr "1 stk")); ("Salt", Some (JStr "1 stk + 1 tsk"));
      ("banan", Some (JStr "1 stk")); ("Appelsin", Some (JStr "1 stk"));
      ("kiwi", Some (JStr "1 stk")); ("Ris", None) ].
Proof. reflexivity. Qed.

End ShoppingListMore.

(** ** Further properties of the recipe service *)

Module RecipeMore.
Import Samples Views AiConfig AiRecipeService RecipeProps TextProps.

(** *** What the parser returns *)

Lemma oneOf_allowed (allowed : list string) (v : jsval) (d : string) :
  In d allowed -> In (oneOf allowed v d) allowed.
Proof.
  intros Hd. unfold oneOf. destruct v as [[| | | s | |] |]; try assumption.
  destruct (existsb (JsString.eqb s) allowed) eqn:Hex; [| assumption].
  apply existsb_exists in Hex as [x [Hx Heq]].
  apply CategoryProps.eqb_true_iff in Heq. now subst.
Qed.

Lemma orStr_truthy (v : jsval) (d : string) :
  d <> "" -> truthy (Some (orStr v d)) = true.
Proof.
  intros Hd. unfold orStr, jsOr. destruct (truthy v) eqn:Hv.
  - destruct v as [j |]; [exact Hv | discriminate].
  - cbn. apply Bool.negb_true_iff. now apply CategoryProps.eqb_false_iff.
Qed.

Lemma normalizeRecipe_normalized (dateNow : nat -> string) (index : nat) (recipe : json)
    (r : Recipe) :
  normalizeRecipe dateNow index recipe = Ok r -> normalized r.
Proof.
  unfold normalizeRecipe.
  repeat match goal with
         | |- bindR ?x _ = Ok _ -> _ =>
             let H := fresh "H" in
             destruct x eqn:H; cbn [bindR]; [| discriminate]
         end.
  intros [= <-]. unfold normalized.
  cbn [difficulty priority source matchedIngredients matchScore id title time description].
  split; [apply oneOf_allowed; simpl; tauto |].
  split; [apply oneOf_allowed; simpl; tauto |].
  repeat (split; [reflexivity |]).
  repeat split; apply orStr_truthy; discriminate.
Qed.

Lemma mapIndexed_Forall {A B : Type} (f : nat -> A -> result B) (P : B -> Prop)
    (l : list A) :
  (forall i x y, f i x = Ok y -> P y) ->
  forall i ys, mapIndexed f i l = Ok ys -> Forall P ys /\ length ys = length l.
Proof.
  intros Hf. induction l as [| x r IH]; intros i ys H; cbn [mapIndexed] in H.
  - inversion H; subst. split; [constructor | reflexivity].
  - destruct (f i x) as [y | m] eqn:Hy; cbn [bindR] in H; [| discriminate].
    destruct (mapIndexed f (S i) r) as [ys' | m] eqn:Hys; cbn [bindR] in H; [| discriminate].
    inversion H; subst. destruct (IH _ _ Hys) as [Hall Hlen].
    split; [constructor; eauto | simpl; now rewrite Hlen].
Qed.

Lemma parseRecipeResponse_outcome (dateNow : nat -> string) (response : jsval) :
  match parseRecipeResponse dateNow response with
  | Ok recipes => Forall normalized recipes
  | Err msg => msg = parseError
  end.
Proof.
  unfold parseRecipeResponse.
  destruct response as [[| | | text | |] |]; try reflexivity.
  destruct (Json.parse (sliceArray (stripFences text))) as [decoded | m];
    cbn [bindR]; [| reflexivity].
  match goal with
  | |- match match ?x with _ => _ end with _ => _ end =>
      destruct x as [recipes | m] eqn:Hmap; [| reflexivity]
  end.
  eapply mapIndexed_Forall; [| exact Hmap].
  intros i x y. apply normalizeRecipe_normalized.
Qed.

(** X13. Whatever the answer, [parseRecipeResponse] either returns
    recipes that are all normalized (a difficulty among easy, medium and
    hard, a priority among high, medium and low, the source AI
    Generated, no matched ingredient and no score yet, and an
    identifier, a title, a time and a description that are truthy), one
    for each element of the decoded array, or throws the one error about
    the answer not being understood. *)
Theorem parse_normalizes (dateNow : nat -> string) (response : jsval) :
  match parseRecipeResponse dateNow response with
  | Ok recipes =>
      Forall normalized recipes
      /\ exists text decoded,
           response = Some (JStr text)
           /\ Json.parse (sliceArray (stripFences text)) = Ok decoded
           /\ length recipes
              = length (match decoded with JArr items => items | _ => [decoded] end)
  | Err msg => msg = parseError
  end.
Proof.
  pose proof (parseRecipeResponse_outcome dateNow response) as Hout.
  unfold parseRecipeResponse in *.
  destruct response as [[| | | text | |] |]; try reflexivity.
  destruct (Json.parse (sliceArray (stripFences text))) as [decoded | m] eqn:Hparse;
    cbn [bindR] in *; [| reflexivity].
  match goal with
  | |- match match ?x with _ => _ end with _ => _ end =>
      destruct x as [recipes | m] eqn:Hmap; [| reflexivity]
  end.
  split; [exact Hout |]. exists text, decoded.
  split; [reflexivity |]. split; [exact Hparse |].
  eapply (mapIndexed_Forall _ (fun _ => True)); [| exact Hmap]. intros; exact I.
Qed.

(** *** The prompt *)

Lemma isSubstring_joinWith (sep x : string) (l : list string) :
  In x l -> isSubstring x (joinWith sep l).
Proof.
  induction l as [| y r IH]; intros Hin; [destruct Hin |].
  destruct r as [| z r].
  - destruct Hin as [-> | []]. apply isSubstring_refl.
  - change (joinWith sep (y :: z :: r)) with (y +:+ sep +:+ joinWith sep (z :: r)).
    destruct Hin as [-> | Hin].
    + apply isSubstring_before, isSubstring_refl.
    + now apply isSubstring_after, isSubstring_after, IH.
Qed.

(** X14. With token saving on, the prompt is that of the first
    [maxIngredientsInPrompt] ingredients alone, and it names each of
    them with its quantity and its days left. *)
Theorem prompt_names_first_ingredients (cfg : AIConfig) (ingredients : list Ingredient)
    (preferences : Preferences)
    (Hsaving : enabled (tokenSaving cfg) = true) :
  let limited := take (maxIngredientsInPrompt (tokenSaving cfg)) ingredients in
  createRecipePrompt cfg ingredients preferences
  = createRecipePrompt cfg limited preferences
  /\ forall ing, In ing limited ->
       isSubstring
         (ing_name ing +:+ " (" +:+ pretty (qty ing) +:+ " stk, udløber om "
            +:+ pretty (daysLeft ing) +:+ " dage)")
         (createRecipePrompt cfg ingredients preferences).
Proof.
  cbv zeta. split.
  - unfold createRecipePrompt. rewrite Hsaving. cbv zeta. now rewrite take_idemp.
  - intros ing Hin. unfold createRecipePrompt. rewrite Hsaving. cbv zeta.
    destruct (shorterDescriptions (tokenSaving cfg)); cbn [andb];
      do 5 apply isSubstring_after; apply isSubstring_before;
      apply isSubstring_joinWith;
      apply (in_map (fun ing => ing_name ing +:+ " (" +:+ pretty (qty ing)
                                  +:+ " stk, udløber om " +:+ pretty (daysLeft ing)
                                  +:+ " dage)") _ _ Hin).
Qed.

Lemma prompt_names_first_ingredients_witness :
  isSubstring "Tomat (4 stk, udløber om 1 dage)"
    (createRecipePrompt referenceConfig [tomato; milk] anyDifficulty).
Proof.
  apply (proj2 (prompt_names_first_ingredients referenceConfig [tomato; milk] anyDifficulty
                  eq_refl) tomato).
  simpl. tauto.
Defined.

(** *** The matcher *)

Lemma someR_unnamed (u : Ingredient) (used : list json) (j : json) :
  In j used -> (forall s, j <> JStr s) ->
  existsb (overlapsName u) used = false ->
  someR (overlaps u) used = Err typeError.
Proof.
  induction used as [| x r IH]; intros Hin Hj Hnone; [destruct Hin |].
  cbn [existsb] in Hnone. apply Bool.orb_false_iff in Hnone as [Hx Hr].
  cbn [someR]. destruct x as [| b | lex | s | items | fields]; try reflexivity.
  cbn [overlaps bindR]. cbn [overlapsName] in Hx. rewrite Hx.
  destruct Hin as [<- | Hin]; [now destruct (Hj s) |]. now apply IH.
Qed.

Lemma someR_error (u : Ingredient) (used : list json) (m : string) :
  someR (overlaps u) used = Err m -> m = typeError.
Proof.
  induction used as [| x r IH]; cbn [someR]; [discriminate |].
  destruct (overlaps u x) as [b | m'] eqn:Hx; cbn [bindR].
  - destruct b; [discriminate | exact IH].
  - intros [= <-]. destruct x; try discriminate; now inversion Hx.
Qed.

Lemma matchRecipe_error (inventory : list Ingredient) (recipe : Recipe) (m : string) :
  matchRecipe inventory recipe = Err m -> m = typeError.
Proof.
  unfold matchRecipe.
  assert (H : forall l m, filterR (fun u => someR (overlaps u) (usedIngredients recipe)) l
                          = Err m -> m = typeError).
  { induction l as [| u r IH]; intros m'; cbn [filterR]; [discriminate |].
    destruct (someR (overlaps u) (usedIngredients recipe)) as [b | m''] eqn:Hu; cbn [bindR].
    - destruct (filterR _ r) as [ys | m3] eqn:Hr; cbn [bindR]; [discriminate |].
      intros [= <-]. now apply IH.
    - intros [= <-]. eapply someR_error; eassumption. }
  destruct (filterR _ inventory) as [ys | m'] eqn:Hf; cbn [bindR]; [discriminate |].
  intros [= <-]. eapply H; eassumption.
Qed.

Lemma mapR_error {A B : Type} (f : A -> result B) (l : list A) (x : A) (m : string) :
  In x l -> f x = Err m ->
  (forall y m', f y = Err m' -> m' = m) ->
  mapR f l = Err m.
Proof.
  intros Hin Hx Hall. induction l as [| y r IH]; [destruct Hin |]. cbn [mapR].
  destruct (f y) as [b | m'] eqn:Hy; cbn [bindR].
  - destruct Hin as [-> | Hin]; [congruence |]. now rewrite IH.
  - f_equal. eapply Hall; eassumption.
Qed.

(** X15. The matcher throws a type error, and matches nothing, as soon
    as some recipe declares an ingredient that is not a string while no
    declared ingredient of that recipe overlaps the first inventory item;
    [generateRecipeSuggestions] then returns the fallback catalog when
    fallback is enabled. With an empty inventory the matcher never
    throws. *)
Theorem unnamed_ingredient_fails_match (recipes : list Recipe) (recipe : Recipe)
    (unnamed : json) (first : Ingredient) (others : list Ingredient)
    (Hrecipe : In recipe recipes)
    (Hdeclared : In unnamed (usedIngredients recipe))
    (Hunnamed : forall s, unnamed <> JStr s)
    (Hnone : overlapsAny recipe first = false) :
  matchRecipesWithIngredients recipes (first :: others) = Err typeError
  /\ exists out, matchRecipesWithIngredients recipes [] = Ok out
                 /\ length out = length recipes.
Proof.
  split.
  - unfold matchRecipesWithIngredients.
    apply (mapR_error _ _ recipe); [assumption | | intros y m; apply matchRecipe_error].
    unfold matchRecipe. cbn [filterR].
    now rewrite (someR_unnamed first _ unnamed Hdeclared Hunnamed Hnone).
  - clear. unfold matchRecipesWithIngredients.
    induction recipes as [| r rest [out [IH Hlen]]]; [now exists [] |].
    cbn [mapR]. unfold matchRecipe at 1. cbn [filterR bindR]. rewrite IH. cbn [bindR].
    eexists. split; [reflexivity |]. simpl. now rewrite Hlen.
Qed.

Lemma unnamed_ingredient_fails_match_witness :
  matchRecipesWithIngredients [unnamedRecipe] [milk] = Err typeError
  /\ (exists content,
        callAzureOpenAI referenceConfig unnamedFetch
          (createRecipePrompt referenceConfig [milk] anyDifficulty) = Ok content
        /\ parseRecipeResponse fixedNow content = Ok [unnamedRecipe])
  /\ generateRecipeSuggestions referenceConfig unnamedFetch fixedNow (Some [milk])
       anyDifficulty
     = Ok (getFallbackRecipes (Some [milk])).
Proof.
  split; [| split; [eexists; split; reflexivity | reflexivity]].
  apply (unnamed_ingredient_fails_match [unnamedRecipe] unnamedRecipe
           (JObj [("amount", JStr "2 dl")]) milk []).
  - now left.
  - now left.
  - discriminate.
  - reflexivity.
Defined.

(** *** The orchestrator *)

Lemma strOr_nonEmpty (s : option string) (d : string) :
  nonEmpty d = true -> nonEmpty (AiConfig.strOr s d) = true.
Proof.
  intros Hd. unfold AiConfig.strOr. destruct s as [v |]; [| exact Hd].
  destruct (JsString.eqb v "") eqn:Hv; [exact Hd |]. unfold nonEmpty. now rewrite Hv.
Qed.

Lemma shipped_config_enabled (extra : ExpoExtra) :
  isAIEnabled (AI_CONFIG extra) = true /\ enableFallback (AI_CONFIG extra) = true.
Proof.
  split; [| reflexivity]. unfold isAIEnabled, validateAIConfig.
  cbn [AI_CONFIG azure endpoint apiKey deploymentName].
  now rewrite !strOr_nonEmpty.
Qed.

Lemma mapR_Forall2 {A B : Type} (f : A -> result B) (l : list A) :
  forall out, mapR f l = Ok out -> Forall2 (fun x y => f x = Ok y) l out.
Proof.
  induction l as [| x r IH]; intros out H; cbn [mapR] in H.
  - inversion H; subst. constructor.
  - destruct (f x) as [y | m] eqn:Hy; cbn [bindR] in H; [| discriminate].
    destruct (mapR f r) as [ys | m] eqn:Hys; cbn [bindR] in H; [| discriminate].
    inversion H; subst. constructor; auto.
Qed.

Lemma matched_sources (recipes out : list Recipe) (inventory : list Ingredient)
    (P : string -> Prop) :
  matchRecipesWithIngredients recipes inventory = Ok out ->
  Forall (fun r => P (source r)) recipes -> Forall (fun r => P (source r)) out.
Proof.
  intros H. apply mapR_Forall2 in H.
  induction H as [| r o rs os Hro _ IH]; intros Hall; [constructor |].
  apply Forall_cons_iff in Hall as [Hr Hrs]. constructor; [| now apply IH].
  unfold matchRecipe in Hro.
  destruct (filterR _ inventory) as [ys | m]; cbn [bindR] in Hro; [| discriminate].
  inversion Hro; subst. exact Hr.
Qed.

(** X16. With fallback enabled, as in the configuration the app ships
    whatever the build supplies, [generateRecipeSuggestions] never throws:
    for every network, inventory and preference it returns recipes, each
    of them generated or of the fallback catalog. The shipped
    configuration also always counts as configured. *)
Theorem generation_never_throws (cfg : AIConfig)
    (fetch : string -> string -> FetchOutcome) (dateNow : nat -> string)
    (ingredients : option (list Ingredient)) (preferences : Preferences)
    (Hfallback : enableFallback cfg = true) :
  (exists recipes,
      generateRecipeSuggestions cfg fetch dateNow ingredients preferences = Ok recipes
      /\ Forall (fun r => source r = "AI Generated" \/ source r = "Fallback Recipe") recipes)
  /\ forall extra, isAIEnabled (AI_CONFIG extra) = true
                   /\ enableFallback (AI_CONFIG extra) = true.
Proof.
  split; [| apply shipped_config_enabled].
  assert (Hcatalog : Forall (fun r => source r = "AI Generated" \/ source r = "Fallback Recipe")
                       (getFallbackRecipes ingredients)).
  { repeat constructor; now right. }
  rewrite (fallback_total cfg fetch dateNow ingredients preferences Hfallback).
  destruct (tryGenerate cfg fetch dateNow ingredients preferences) as [recipes | m] eqn:Htry;
    [| now exists (getFallbackRecipes ingredients)].
  exists recipes. split; [reflexivity |].
  unfold tryGenerate in Htry. destruct ingredients as [[| i l] |]; try discriminate.
  destruct (isAIEnabled cfg); cbn [negb] in Htry; [| now inversion Htry; subst].
  destruct (callAzureOpenAI cfg fetch _) as [response | m]; cbn [bindR] in Htry;
    [| discriminate].
  pose proof (parseRecipeResponse_outcome dateNow response) as Hparsed.
  destruct (parseRecipeResponse dateNow response) as [parsed | m]; cbn [bindR] in Htry;
    [| discriminate].
  eapply (matched_sources parsed recipes _
            (fun s => s = "AI Generated" \/ s = "Fallback Recipe")); [exact Htry |].
  eapply Forall_impl; [exact Hparsed |]. intros r Hr. left. apply Hr.
Qed.

Lemma generation_never_throws_witness :
  exists recipes,
    generateRecipeSuggestions referenceConfig chattyFetch fixedNow (Some [milk]) anyDifficulty
    = Ok recipes
    /\ Forall (fun r => source r = "AI Generated" \/ source r = "Fallback Recipe") recipes.
Proof.
  apply (generation_never_throws referenceConfig chattyFetch fixedNow (Some [milk])
           anyDifficulty eq_refl).
Defined.

End RecipeMore.

(** ** Further properties of the categories *)

Module CategoryMore.
Import Samples Views CategoryStorage AppContext AppItems CategoryProps.

(** *** The state and the storage *)

Lemma removeCategory_inSync (cid : string) (s : AppState) : inSync (removeCategory cid s).
Proof. unfold inSync, removeCategory, deleteCategory. now destruct (storage s). Qed.

Lemma addCategory_inSync (dateNow : string) (category : CategoryInput) (s : AppState) :
  inSync (AppContext.addCategory dateNow category s).
Proof.
  unfold inSync, AppContext.addCategory, CategoryStorage.addCategory.
  now destruct (storage s).
Qed.

Lemma editCategory_inSync (cid : string) (updates : CategoryUpdates) (s : AppState) :
  inSync (editCategory cid updates s).
Proof. unfold inSync, editCategory, updateCategory. now destruct (storage s). Qed.

Lemma act_inSync (a : CategoryAction) (s : AppState) : inSync s -> inSync (act a s).
Proof.
  intros Hs. destruct a as [category confirmed | cid confirmed | dateNow category | cid updates];
    cbn [act].
  - unfold screenDelete.
    destruct (isDefaultCategory _); [assumption |].
    destruct (0 <? _)%nat; [assumption |].
    destruct confirmed; [apply removeCategory_inSync | assumption].
  - unfold modalDelete. destruct confirmed; [apply removeCategory_inSync | assumption].
  - apply addCategory_inSync.
  - apply editCategory_inSync.
Qed.

(** X18. After start-up and any run of category actions (adds, edits
    and deletions from either screen), the category list of the state is
    the list in the storage: what the screens show is what the next
    start will load, and loading it writes nothing. *)
Theorem categories_stay_in_sync (actions : list CategoryAction) :
  loadCategories (storage (run actions initialState))
  = (categories (run actions initialState), storage (run actions initialState)).
Proof.
  assert (Hrun : forall s, inSync s -> storage s <> None ->
                           inSync (run actions s) /\ storage (run actions s) <> None).
  { unfold run. induction actions as [| a rest IH]; intros s Hs Hst; [now split |].
    cbn [fold_left]. apply IH; [now apply act_inSync |].
    destruct a as [category confirmed | cid confirmed | dateNow category | cid updates];
      cbn [act]; unfold screenDelete, modalDelete, removeCategory, deleteCategory,
        AppContext.addCategory, CategoryStorage.addCategory, editCategory, updateCategory;
      repeat match goal with
             | |- context [if ?c then _ else _] => destruct c
             end;
      try assumption;
      destruct (storage s); cbn; discriminate. }
  destruct (Hrun initialState eq_refl ltac:(discriminate)) as [Hsync Hstored].
  unfold inSync in Hsync.
  destruct (storage (run actions initialState)) as [stored |]; [| contradiction].
  cbn [loadCategories fst] in *. now rewrite Hsync.
Qed.

(** *** Items and their categories *)

Lemma noOrphans_grows (s s' : AppState) :
  items s' = items s ->
  (forall cid, In cid (categoryIds s) -> In cid (categoryIds s')) ->
  noOrphans s -> noOrphans s'.
Proof.
  unfold noOrphans. intros -> Hgrow Hs.
  eapply Forall_impl; [exact Hs |]. intros item. apply Hgrow.
Qed.

Lemma empty_category (cid : string) (s : AppState) :
  (0 <? length (itemsInCategory cid s))%nat = false ->
  Forall (fun item => JsString.eqb (categoryId item) cid = false) (items s).
Proof.
  unfold itemsInCategory. intros Hlen. apply Nat.ltb_ge in Hlen.
  assert (Hnil : List.filter (fun item => JsString.eqb (categoryId item) cid) (items s) = [])
    by (destruct (List.filter _ _); [reflexivity | simpl in Hlen; lia]).
  apply Forall_forall. intros item Hitem. apply list_elem_of_In in Hitem.
  destruct (JsString.eqb (categoryId item) cid) eqn:Heq; [| reflexivity].
  assert (Hin : In item (List.filter (fun item => JsString.eqb (categoryId item) cid) (items s)))
    by (apply filter_In; now split).
  rewrite Hnil in Hin. destruct Hin.
Qed.

Lemma act_noOrphans (a : CategoryAction) (s : AppState) :
  safeAction a -> inSync s -> noOrphans s -> noOrphans (act a s).
Proof.
  intros Hsafe Hsync Hs.
  destruct a as [category confirmed | cid confirmed | dateNow category | cid updates];
    cbn [act]; cbn [safeAction] in Hsafe.
  - unfold screenDelete.
    destruct (isDefaultCategory _); [assumption |].
    destruct (0 <? _)%nat eqn:Hempty; [assumption |].
    destruct confirmed; [| assumption].
    apply empty_category in Hempty.
    unfold noOrphans in *. rewrite removeCategory_reassigns.
    apply Forall_forall. intros item Hitem. apply list_elem_of_In in Hitem.
    apply in_map_iff in Hitem as [it [Hit Hin]].
    rewrite Forall_forall in Hempty, Hs. apply list_elem_of_In in Hin.
    rewrite (Hempty it Hin) in Hit. subst it.
    unfold categoryIds. unfold removeCategory.
    destruct (deleteCategory (id category) (storage s)) as [updated st] eqn:Hdel.
    cbn [categories]. pose proof (deleteCategory_others (id category) (storage s)) as Hothers.
    rewrite Hdel in Hothers. cbn [fst] in Hothers. rewrite Hothers, Hsync.
    specialize (Hs item Hin). unfold categoryIds in Hs.
    apply in_map_iff in Hs as [cat [Hid Hcat]]. apply in_map_iff. exists cat.
    split; [assumption |]. apply filter_In. split; [assumption |].
    rewrite Hid. now rewrite (Hempty item Hin).
  - unfold modalDelete. now rewrite Hsafe.
  - apply (noOrphans_grows s); [| | assumption].
    + unfold AppContext.addCategory. now destruct (CategoryStorage.addCategory _ _ _).
    + intros cid Hcid. unfold categoryIds, AppContext.addCategory, CategoryStorage.addCategory.
      unfold inSync in Hsync. destruct (loadCategories (storage s)) as [loaded st].
      cbn [fst] in Hsync. subst loaded. cbn [categories]. rewrite map_app.
      apply in_or_app. now left.
  - apply (noOrphans_grows s); [| | assumption].
    + unfold editCategory. now destruct (updateCategory _ _ _).
    + intros c Hc. unfold categoryIds, editCategory, updateCategory.
      unfold inSync in Hsync. destruct (loadCategories (storage s)) as [loaded st].
      cbn [fst] in Hsync. subst loaded. cbn [categories]. rewrite map_map.
      unfold categoryIds in Hc.
      erewrite map_ext; [exact Hc |]. intros cat. cbn beta.
      destruct (JsString.eqb (id cat) cid); [| reflexivity]. cbn [id]. now rewrite Hsafe.
Qed.

(** X19. No action but a confirmed deletion in the management modal
    can leave an item without a category: when the category list is the
    stored one and every item is in a listed category, this is still so
    after any run of deletions in the categories screen, adds, edits that
    change no identifier, and cancelled deletions. *)
Theorem safe_actions_orphan_nothing (actions : list CategoryAction) (s : AppState)
    (Hsafe : Forall safeAction actions)
    (Hsync : inSync s)
    (Hitems : noOrphans s) :
  noOrphans (run actions s) /\ inSync (run actions s).
Proof.
  unfold run. revert s Hsync Hitems.
  induction Hsafe as [| a rest Ha _ IH]; intros s Hsync Hitems; [now split |].
  cbn [fold_left]. apply IH; [now apply act_inSync | now apply act_noOrphans].
Qed.

Lemma safe_actions_orphan_nothing_witness :
  noOrphans
    (run [ ScreenDelete spices true;
           ModalAdd "1700000090000" (mkCategoryInput None "Kolonial" None);
           ModalEdit "1700000000000" (mkCategoryUpdates None (Some "Urter") None);
           ModalDelete "1700000000000" false ] pantryState).
Proof.
  apply (safe_actions_orphan_nothing _ pantryState).
  - repeat constructor.
  - reflexivity.
  - constructor; [| constructor]. simpl. tauto.
Defined.

(** *** The storage operations *)

Lemma filter_none {A : Type} (pred : A -> bool) (l : list A) :
  Forall (fun x => pred x = true) l -> List.filter pred l = l.
Proof.
  induction 1 as [| x r Hx _ IH]; simpl; [reflexivity |]. now rewrite Hx, IH.
Qed.

Lemma others_kept (cid : string) (l : list Category) :
  Forall (fun cat => id cat <> cid) l ->
  Forall (fun cat => negb (JsString.eqb (id cat) cid) = true) l.
Proof.
  intros H. eapply Forall_impl; [exact H |]. intros cat Hcat.
  apply Bool.negb_true_iff. now apply eqb_false_iff.
Qed.

(** X20. Deleting a category that was added with a generated identifier
    no other category has restores the list; two categories added in the
    same millisecond share their identifier and are deleted together. *)
Theorem delete_undoes_add (dateNow : string) (category other : CategoryInput)
    (st : Storage)
    (Hgenerated : in_id category = None /\ in_id other = None)
    (Hfresh : Forall (fun cat => id cat <> dateNow) (fst (loadCategories st))) :
  fst (deleteCategory dateNow (snd (CategoryStorage.addCategory dateNow category st)))
  = fst (loadCategories st)
  /\ fst (deleteCategory dateNow
            (snd (CategoryStorage.addCategory dateNow other
                    (snd (CategoryStorage.addCategory dateNow category st)))))
     = fst (loadCategories st).
Proof.
  destruct Hgenerated as [Hc Ho].
  assert (Hself : negb (JsString.eqb dateNow dateNow) = false).
  { apply Bool.negb_false_iff. now apply eqb_true_iff. }
  apply others_kept, filter_none in Hfresh.
  unfold deleteCategory, CategoryStorage.addCategory.
  destruct (loadCategories st) as [loaded st1]. cbn [fst snd loadCategories saveCategories] in *.
  rewrite Hc, Ho. cbn [default]. rewrite !List.filter_app. cbn [List.filter id].
  rewrite Hself, Hfresh, !app_nil_r. now split.
Qed.

Lemma delete_undoes_add_witness :
  fst (deleteCategory "1700000090000"
         (snd (CategoryStorage.addCategory "1700000090000"
                 (mkCategoryInput None "Kolonial" None) None)))
  = DEFAULT_CATEGORIES.
Proof.
  apply (proj1 (delete_undoes_add "1700000090000" (mkCategoryInput None "Kolonial" None)
                  (mkCategoryInput None "Kolonial" None) None (conj eq_refl eq_refl)
                  ltac:(repeat constructor; discriminate))).
Defined.

(** X21. Deleting or updating an identifier that no category has
    changes no category: the list returned and stored is the list that
    was loaded. An update that carries no identifier keeps the
    identifiers, in their order, whatever it changes. *)
Theorem unknown_category_changes_nothing (cid : string) (updates : CategoryUpdates)
    (st : Storage) :
  (Forall (fun cat => id cat <> cid) (fst (loadCategories st)) ->
     deleteCategory cid st = (fst (loadCategories st), Some (fst (loadCategories st)))
     /\ updateCategory cid updates st
        = (fst (loadCategories st), Some (fst (loadCategories st))))
  /\ (upd_id updates = None ->
        map id (fst (updateCategory cid updates st)) = map id (fst (loadCategories st))).
Proof.
  split.
  - intros Habsent. unfold deleteCategory, updateCategory.
    destruct (loadCategories st) as [loaded st1]. cbn [fst saveCategories] in *.
    rewrite (filter_none _ _ (others_kept _ _ Habsent)).
    split; [reflexivity |].
    assert (Hsame : map (fun cat =>
                           if JsString.eqb (id cat) cid
                           then {| id := default (id cat) (upd_id updates);
                                   name := default (name cat) (upd_name updates);
                                   icon := default (icon cat) (upd_icon updates) |}
                           else cat) loaded = loaded).
    { rewrite <- (map_id loaded) at 2. apply map_ext_in. intros cat Hcat.
      rewrite Forall_forall in Habsent. apply list_elem_of_In in Hcat.
      apply Habsent, eqb_false_iff in Hcat. now rewrite Hcat. }
    unfold saveCategories. now rewrite Hsame.
  - intros Hid. unfold updateCategory.
    destruct (loadCategories st) as [loaded st1]. cbn [fst].
    rewrite map_map. apply map_ext. intros cat.
    destruct (JsString.eqb (id cat) cid); [| reflexivity]. cbn [id]. now rewrite Hid.
Qed.

Lemma unknown_category_changes_nothing_witness :
  deleteCategory "pantry" None = (DEFAULT_CATEGORIES, Some DEFAULT_CATEGORIES)
  /\ map id (fst (updateCategory "fridge" (mkCategoryUpdates None (Some "Kælder") None) None))
     = ["fridge"; "freezer"].
Proof.
  destruct (unknown_category_changes_nothing "pantry"
              (mkCategoryUpdates None None None) None) as [Hunknown _].
  destruct (unknown_category_changes_nothing "fridge"
              (mkCategoryUpdates None (Some "Kælder") None) None) as [_ Hids].
  split.
  - apply Hunknown. repeat constructor; discriminate.
  - apply Hids. reflexivity.
Defined.

End CategoryMore.

(** ** The suggestions of the recipes screen *)

Module RecipesScreenProps.
Import Samples Views AiRecipeService RecipesScreen.

Lemma compareUrgency_le (a b : Ingredient) :
  cmpLe compareUrgency a b <-> urgentBefore a b.
Proof.
  unfold cmpLe, compareUrgency, urgentBefore, nanToZero.
  destruct (daysLeft a =? daysLeft b) eqn:Hd; cbn.
  - apply Z.eqb_eq in Hd. lia.
  - apply Z.eqb_neq in Hd. lia.
Qed.

Lemma compareSuggestions_le (a b : Suggestion) :
  cmpLe compareSuggestions a b <-> suggestionBefore a b.
Proof.
  unfold cmpLe, compareSuggestions, suggestionBefore, nanToZero.
  destruct (priorityScore b =? priorityScore a) eqn:Hp; cbn.
  - apply Z.eqb_eq in Hp. lia.
  - apply Z.eqb_neq in Hp. lia.
Qed.

Lemma everything (A : Type) (l : list A) : Forall (fun _ => True) l.
Proof. apply Forall_forall. intros; exact I. Qed.

Lemma prioritize_sorted (items : list Ingredient) :
  StronglySorted urgentBefore (prioritize items).
Proof.
  apply (SortProps.StronglySorted_weaken (cmpLeOn (fun _ => True) compareUrgency)).
  - intros a b [_ [_ H]]. now apply compareUrgency_le.
  - apply SortProps.sortBy_StronglySorted.
    + intros a b _ _. rewrite !compareUrgency_le. unfold urgentBefore. lia.
    + intros a b c _ _ _. rewrite !compareUrgency_le. unfold urgentBefore. lia.
    + apply everything.
Qed.

Lemma prioritize_items (items : list Ingredient) (item : Ingredient) :
  In item (prioritize items) <-> In item items /\ 0 < qty item.
Proof.
  unfold prioritize. split.
  - intros H. apply (Permutation_in _ (SortProps.sortBy_Permutation _ _)) in H.
    apply filter_In in H as [Hin Hq]. split; [assumption |].
    unfold qtyIsPositive in Hq. lia.
  - intros [Hin Hq].
    apply (Permutation_in _ (Permutation_sym (SortProps.sortBy_Permutation _ _))).
    apply filter_In. split; [assumption |]. unfold qtyIsPositive. lia.
Qed.

(** The first element of a sorted list that satisfies a test comes before
    every other element that satisfies it. *)
Lemma find_first_of_sorted {A : Type} (R : A -> A -> Prop) (pred : A -> bool) (l : list A) :
  (forall x, R x x) -> StronglySorted R l ->
  forall x, List.find pred l = Some x ->
  forall y, In y l -> pred y = true -> R x y.
Proof.
  intros Hrefl Hs. induction Hs as [| a r Hs IH Hhd]; intros x Hx y Hy Hp; [destruct Hy |].
  cbn [List.find] in Hx. destruct (pred a) eqn:Ha.
  - inversion Hx; subst. destruct Hy as [<- | Hy]; [apply Hrefl |].
    rewrite Forall_forall in Hhd. apply Hhd. now apply list_elem_of_In.
  - destruct Hy as [<- | Hy]; [congruence |]. now apply (IH x Hx y).
Qed.

(** X22. The ingredients the screen works with are the items in stock,
    each once, the soonest to expire first and, among items that expire
    on the same day, the larger quantity first. An ingredient of a recipe
    is matched with the first of them that provides it, which is
    therefore the most urgent of the items in stock that provide it. *)
Theorem prioritized_ingredients_order (items : list Ingredient) :
  StronglySorted urgentBefore (prioritize items)
  /\ Permutation (prioritize items) (List.filter qtyIsPositive items)
  /\ (forall item, In item (prioritize items) <-> In item items /\ 0 < qty item)
  /\ (forall ingredient found,
        List.find (provides ingredient) (prioritize items) = Some found ->
        provides ingredient found = true
        /\ forall other, In other items -> 0 < qty other ->
             provides ingredient other = true -> urgentBefore found other).
Proof.
  split; [apply prioritize_sorted |].
  split; [apply SortProps.sortBy_Permutation |].
  split; [apply prioritize_items |].
  intros ingredient found Hfound. split; [now apply find_some in Hfound |].
  intros other Hin Hq Hp.
  apply (find_first_of_sorted urgentBefore (provides ingredient) (prioritize items));
    try assumption.
  - intros x. unfold urgentBefore. lia.
  - apply prioritize_sorted.
  - now apply prioritize_items.
Qed.

Lemma prioritized_ingredients_order_witness :
  List.find (provides "mælk") (prioritize [milk; cream; tomato]) = Some cream
  /\ urgentBefore cream milk.
Proof.
  assert (Hfound : List.find (provides "mælk") (prioritize [milk; cream; tomato]) = Some cream)
    by reflexivity.
  split; [exact Hfound |].
  destruct (prioritized_ingredients_order [milk; cream; tomato]) as [_ [_ [_ Hfirst]]].
  apply (proj2 (Hfirst "mælk" cream Hfound) milk); [simpl; tauto | reflexivity | reflexivity].
Defined.

Lemma matchedItems_spec (ingredients : list string) (inventory : list Ingredient) :
  (length (matchedItems ingredients inventory) <= length ingredients)%nat
  /\ Forall (fun item => In item inventory) (matchedItems ingredients inventory).
Proof.
  induction ingredients as [| ingredient rest [IHlen IHin]]; cbn [matchedItems];
    [split; [simpl; lia | constructor] |].
  destruct (List.find (provides ingredient) inventory) as [found |] eqn:Hfound.
  - split; [simpl; lia |]. constructor; [| assumption]. now apply find_some in Hfound.
  - split; [simpl; lia | assumption].
Qed.

Lemma urgency_sum (matched : list Ingredient) :
  forall score,
    score + Z.of_nat (length matched)
    <= fold_left (fun score item => score + urgency item) matched score
    <= score + 3 * Z.of_nat (length matched).
Proof.
  induction matched as [| item rest IH]; intros score; cbn [fold_left length]; [lia |].
  specialize (IH (score + urgency item)).
  assert (1 <= urgency item <= 3)
    by (unfold urgency; destruct (daysLeft item <=? 2), (daysLeft item <=? 5); lia).
  lia.
Qed.

Lemma suggest_scored (inventory : list Ingredient) (r : StaticRecipe) :
  scored inventory (suggest inventory r).
Proof.
  unfold scored. cbn [suggest recipe matchedIngredients matchScore priorityScore canMake].
  destruct (matchedItems_spec (sr_ingredients r) inventory) as [Hlen Hin].
  pose proof (urgency_sum (matchedItems (sr_ingredients r) inventory)
                (Z.of_nat (length (matchedItems (sr_ingredients r) inventory)))) as Hsum.
  split; [reflexivity |]. split; [lia |]. split; [lia |]. split; [| exact Hin].
  unfold halfUp. rewrite Z.leb_le.
  set (n := Z.of_nat (length (sr_ingredients r))).
  set (m := Z.of_nat (length (matchedItems (sr_ingredients r) inventory))).
  pose proof (Z.div_mod (n + 1) 2 ltac:(lia)) as Hdiv.
  pose proof (Z.mod_pos_bound (n + 1) 2 ltac:(lia)) as Hmod.
  lia.
Qed.

(** X23. The suggestions the screen computes itself, for any inventory:
    higher priority score first and, at equal priority score, higher
    match score first. Every suggestion is a recipe of the catalog with
    at least one ingredient matched; its match score is the number of
    matched items and at most the number of ingredients of the recipe;
    its priority score is between twice and four times the match score;
    it can be made exactly when at least half of the ingredients are
    matched; and every matched item is an item of the inventory. No
    inventory gives no suggestion. *)
Theorem mock_suggestions_ranked (inventory : list Ingredient) :
  StronglySorted suggestionBefore (mockSuggestions inventory)
  /\ Forall (fun s => In (recipe s) recipes /\ 1 <= matchScore s /\ scored inventory s)
       (mockSuggestions inventory)
  /\ (length (mockSuggestions inventory) <= length recipes)%nat
  /\ mockSuggestions [] = [].
Proof.
  split; [| split; [| split; [| reflexivity]]].
  - unfold mockSuggestions. destruct inventory as [| i l]; [constructor |].
    apply (SortProps.StronglySorted_weaken (cmpLeOn (fun _ => True) compareSuggestions)).
    + intros a b [_ [_ H]]. now apply compareSuggestions_le.
    + apply SortProps.sortBy_StronglySorted.
      * intros a b _ _. rewrite !compareSuggestions_le. unfold suggestionBefore. lia.
      * intros a b c _ _ _. rewrite !compareSuggestions_le. unfold suggestionBefore. lia.
      * apply everything.
  - unfold mockSuggestions. destruct inventory as [| i l]; [constructor |].
    set (inventory := i :: l).
    eapply Permutation_Forall; [symmetry; apply SortProps.sortBy_Permutation |].
    apply Forall_forall. intros s Hs. apply list_elem_of_In in Hs.
    apply filter_In in Hs as [Hs Hpos]. apply in_map_iff in Hs as [r [<- Hr]].
    split; [exact Hr |]. split; [lia | apply suggest_scored].
  - unfold mockSuggestions. destruct inventory as [| i l]; [simpl; lia |].
    rewrite SortProps.sortBy_length.
    etransitivity; [apply filter_length_le |]. now rewrite length_map.
Qed.

(** The suggestions for a sample inventory: title, matched items,
    match score, priority score, whether it can be made. *)
Lemma mock_suggestions_example :
  map (fun s => (sr_title (recipe s), map ing_name (matchedIngredients s), matchScore s,
                 priorityScore s, canMake s))
    (mockSuggestions (prioritize [milk; cream; tomato]))
  = [ ("Omelet med Rester", ["Fløde"; "Tomat"], 2, 8, true);
      ("Hurtig Pasta med Grøntsager", ["Tomat"], 1, 4, false);
      ("Grøntsags Wok", ["Tomat"], 1, 4, false);
      ("Smoothie med Frugt", ["Fløde"], 1, 4, false);
      ("Grøntsagssuppe", ["Tomat"], 1, 4, false);
      ("Stegt Ris med Rester", ["Tomat"], 1, 4, false);
      ("Gratin med Kartofler", ["Fløde"], 1, 4, false);
      ("Pandekager", ["Fløde"], 1, 4, false) ].
Proof. reflexivity. Qed.

End RecipesScreenProps.

(** ** The items of the application state *)

Module AppItemsProps.
Import Samples Views CategoryStorage AppContext AppItems CategoryProps.

Lemma truthyId_idempotent (n : option string) : truthyId (truthyId n) = truthyId n.
Proof.
  destruct n as [v |]; [| reflexivity]. cbn [truthyId].
  destruct (JsString.eqb v "") eqn:Hv; [reflexivity |]. cbn [truthyId]. now rewrite Hv.
Qed.

Lemma find_absent (id : string) (items : list FoodItem) :
  Forall (fun x => item_id x <> id) items ->
  List.find (fun x => JsString.eqb (item_id x) id) items = None
  /\ List.filter (fun x => negb (JsString.eqb (item_id x) id)) items = items.
Proof.
  induction 1 as [| x r Hx _ [IHfind IHfilter]]; [now split |].
  apply eqb_false_iff in Hx. cbn [List.find List.filter]. rewrite Hx. cbn [negb].
  split; [assumption | now rewrite IHfilter].
Qed.

(** X24. Deleting the identifier an item was added under restores the
    items, when no other item has the identifier, and cancels the
    reminder that was scheduled for the item, if one was. Two items added
    in the same millisecond share their identifier: deleting it removes
    both and cancels the reminder of the first only. After a deletion no
    item has the identifier. *)
Theorem delete_undoes_add_item (schedule : FoodItem -> option string) (dateNow : string)
    (first second : ItemData) (items : list FoodItem)
    (Hfresh : Forall (fun x => item_id x <> dateNow) items) :
  deleteItem dateNow (addItem schedule dateNow first items)
  = (truthyId (schedule (newItem dateNow first)), items)
  /\ deleteItem dateNow (addItem schedule dateNow second (addItem schedule dateNow first items))
     = (truthyId (schedule (newItem dateNow first)), items)
  /\ forall id, Forall (fun x => item_id x <> id) (snd (deleteItem id items)).
Proof.
  destruct (find_absent dateNow items Hfresh) as [Hfind Hfilter].
  assert (Hself : JsString.eqb dateNow dateNow = true) by now apply eqb_true_iff.
  split; [| split].
  - unfold deleteItem, addItem.
    rewrite ShoppingListMore.find_app_None by exact Hfind.
    rewrite List.filter_app, Hfilter.
    change (item_id (newItem dateNow first)) with dateNow.
    cbn [List.find List.filter item_id notificationId]. rewrite Hself. cbn [negb notificationId].
    now rewrite truthyId_idempotent, app_nil_r.
  - unfold deleteItem, addItem.
    rewrite <- app_assoc. rewrite ShoppingListMore.find_app_None by exact Hfind.
    rewrite List.filter_app, Hfilter.
    change (item_id (newItem dateNow first)) with dateNow.
    change (item_id (newItem dateNow second)) with dateNow.
    cbn [app List.find List.filter item_id notificationId]. rewrite Hself. cbn [negb notificationId].
    now rewrite truthyId_idempotent, app_nil_r.
  - intros id. unfold deleteItem. cbn [snd]. apply Forall_forall. intros x Hx.
    apply list_elem_of_In in Hx. apply filter_In in Hx as [_ Hx].
    apply Bool.negb_true_iff in Hx. now apply eqb_false_iff.
Qed.

Lemma delete_undoes_add_item_witness :
  deleteItem "1700000060000"
    (addItem (fun _ => Some "reminder-7") "1700000060000" yoghurt [pepper])
  = (Some "reminder-7", [pepper]).
Proof.
  apply (proj1 (delete_undoes_add_item (fun _ => Some "reminder-7") "1700000060000"
                  yoghurt yoghurt [pepper] ltac:(repeat constructor; discriminate))).
Defined.

End AppItemsProps.

(** ** The product lookup *)

Module ProductLookupProps.
Import Samples Views AiRecipeService ProductLookup.

Lemma askEndpoint_product (fetch : string -> FetchOutcome) (barcode endpoint : string)
    (p : Product) :
  askEndpoint fetch barcode endpoint = Ok (Some p) ->
  truthy (Some (displayName p)) = true
  /\ (imageUrl p = JNull \/ truthy (Some (imageUrl p)) = true).
Proof.
  unfold askEndpoint. destruct (fetch endpoint) as [| msg | status body]; try discriminate.
  destruct (negb (responseOk status)); [discriminate |].
  destruct (Json.parse body) as [data | m]; cbn [bindR]; [| discriminate].
  destruct (getProp (Some data) "status") as [status' | m]; cbn [bindR]; [| discriminate].
  destruct (negb (isOne status')); [discriminate |].
  destruct (getProp (Some data) "product") as [product | m]; cbn [bindR]; [| discriminate].
  destruct (negb (truthy product)); [discriminate |].
  destruct (getProp product "product_name") as [productName | m]; cbn [bindR];
    [| discriminate].
  destruct (getProp product "image_url") as [imageUrl' | m]; cbn [bindR]; [| discriminate].
  destruct (if truthy imageUrl' then _ else _) as [imageFront | m]; cbn [bindR];
    [| discriminate].
  intros [= <-]. cbn [displayName imageUrl]. split.
  - unfold jsOr. destruct (truthy productName) eqn:Hn.
    + destruct productName; [exact Hn | discriminate].
    + reflexivity.
  - unfold orNull, jsOr.
    destruct (truthy imageUrl') eqn:Hi.
    + rewrite Hi. right. destruct imageUrl'; [exact Hi | discriminate].
    + destruct (truthy imageFront) eqn:Hf; [| now left].
      right. destruct imageFront; [exact Hf | discriminate].
Qed.

(** X25. The product lookup. A missing or blank bar code gives nothing,
    whatever the network. So does a network on which every request
    fails or is answered with a status outside 200..299. A product that
    is returned always has a display name that is truthy (the name of the
    product or, by default, the bar code) and an image address that is
    truthy or null. *)
Theorem lookup_gives_usable_product (encodeURIComponent : string -> string)
    (fetch : string -> FetchOutcome) (barcode : option string) :
  ((barcode = None \/ exists code, barcode = Some code /\ trim code = "") ->
     lookupOpenFoodFacts encodeURIComponent fetch barcode = None)
  /\ ((forall url, match fetch url with
                   | FetchResponse status _ => responseOk status = false
                   | _ => True
                   end) ->
      lookupOpenFoodFacts encodeURIComponent fetch barcode = None)
  /\ (forall p, lookupOpenFoodFacts encodeURIComponent fetch barcode = Some p ->
        truthy (Some (displayName p)) = true
        /\ (imageUrl p = JNull \/ truthy (Some (imageUrl p)) = true)).
Proof.
  split; [| split].
  - intros [-> | [code [-> Hblank]]]; [reflexivity |].
    unfold lookupOpenFoodFacts. now rewrite Hblank.
  - intros Hdown. unfold lookupOpenFoodFacts. destruct barcode as [code |]; [| reflexivity].
    destruct (JsString.eqb (trim code) ""); [reflexivity |].
    assert (Hnone : forall url, match askEndpoint fetch code url with
                                | Ok (Some _) => False
                                | _ => True
                                end).
    { intros url. unfold askEndpoint. specialize (Hdown url).
      destruct (fetch url) as [| msg | status body]; try exact I. now rewrite Hdown. }
    unfold endpoints. cbn [askAll].
    pose proof (Hnone ("https://world.openfoodfacts.org/api/v2/product/"
                         +:+ encodeURIComponent code +:+ ".json")) as H2.
    pose proof (Hnone ("https://world.openfoodfacts.org/api/v0/product/"
                         +:+ encodeURIComponent code +:+ ".json")) as H0.
    set (newer := "https://world.openfoodfacts.org/api/v2/product/" +:+ _) in *.
    set (older := "https://world.openfoodfacts.org/api/v0/product/" +:+ _) in *.
    destruct (askEndpoint fetch code newer) as [[p |] | m]; [destruct H2 | |];
      destruct (askEndpoint fetch code older) as [[p |] | m']; try destruct H0; reflexivity.
  - intros p. unfold lookupOpenFoodFacts. destruct barcode as [code |]; [| discriminate].
    destruct (JsString.eqb (trim code) ""); [discriminate |].
    unfold endpoints. cbn [askAll].
    set (newer := "https://world.openfoodfacts.org/api/v2/product/" +:+ _).
    set (older := "https://world.openfoodfacts.org/api/v0/product/" +:+ _).
    destruct (askEndpoint fetch code newer) as [[p2 |] | m] eqn:H2;
      [intros [= <-]; eapply askEndpoint_product; exact H2 | |];
      destruct (askEndpoint fetch code older) as [[p0 |] | m'] eqn:H0; try discriminate;
      intros [= <-]; eapply askEndpoint_product; exact H0.
Qed.

Lemma lookup_gives_usable_product_witness :
  lookupOpenFoodFacts plainEncode olderApiOnly (Some "   ") = None
  /\ lookupOpenFoodFacts plainEncode (fun _ => FetchFailed "Network request failed")
       (Some "5701234") = None
  /\ lookupOpenFoodFacts plainEncode olderApiOnly (Some "5701234")
     = Some {| displayName := JStr "Produkt 5701234";
               imageUrl := JStr "https://images.example/5701234.jpg" |}.
Proof.
  split; [| split; [| reflexivity]].
  - apply (proj1 (lookup_gives_usable_product plainEncode olderApiOnly (Some "   "))).
    right. now exists "   ".
  - apply (proj1 (proj2 (lookup_gives_usable_product plainEncode
                           (fun _ => FetchFailed "Network request failed")
                           (Some "5701234")))).
    intros url. exact I.
Defined.

End ProductLookupProps.

(** ** The shopping list screen *)

Module ShoppingListScreenProps.
Import Samples Views ShoppingListService ShoppingListScreen ShoppingListProps.

Lemma merged_handMade (clk : Clock) (existing : ShoppingListItem) (a : string) :
  handMade existing -> a <> "" ->
  handMade (mergeInto clk existing (Some (JStr a)) None None).
Proof.
  intros [Htrim [Hname [[b [Hb Hbne]] [Hsource [Hess Hprio]]]]] Ha.
  unfold handMade.
  cbn [mergeInto name amount source essential priority].
  split; [assumption |]. split; [assumption |]. split; [| split; [assumption |]; split].
  - rewrite Hb, combineAmounts_strings. eexists. split; [reflexivity |].
    destruct (JsString.eqb b a); [assumption |].
    destruct b; [contradiction | discriminate].
  - rewrite truthy_jsOr, Hess. reflexivity.
  - right. apply getHigherPriority_absent.
Qed.

Lemma handle_handMade (a : ScreenAction) (shoppingList : Store) :
  Forall handMade shoppingList -> Forall handMade (handle a shoppingList).
Proof.
  intros Hall.
  assert (Hfilter : forall pred, Forall handMade (List.filter pred shoppingList)).
  { intros pred. apply Forall_forall. intros e He. apply list_elem_of_In in He.
    apply filter_In in He as [He _]. rewrite Forall_forall in Hall.
    apply Hall. now apply list_elem_of_In. }
  destruct a as [clk newItemName newItemAmount | itemId | itemId confirmed
                 | confirmed | confirmed]; cbn [handle].
  - unfold handleAddItem.
    destruct (JsString.eqb (trim newItemName) "") eqn:Hblank; [assumption |].
    apply CategoryProps.eqb_false_iff in Hblank.
    set (amountText := if JsString.eqb (trim newItemAmount) "" then "1 stk"
                       else trim newItemAmount).
    assert (Hamount : amountText <> "").
    { unfold amountText. destruct (JsString.eqb (trim newItemAmount) "") eqn:Ha;
        [discriminate | now apply CategoryProps.eqb_false_iff]. }
    set (item := {| in_name := trim newItemName; in_amount := Some (JStr amountText);
                    in_category := None; in_categoryIcon := None; in_priority := None;
                    in_source := Some source_manual; in_recipeId := None;
                    in_recipeName := None; in_essential := None |}).
    destruct (findIndex (sameName (in_name item)) shoppingList) as [i |] eqn:Hfind.
    + destruct (add_merges clk item shoppingList i Hfind) as [existing [Hl [_ ->]]].
      apply Forall_insert; [assumption |].
      apply merged_handMade; [| assumption].
      eapply Forall_lookup_1; eassumption.
    + unfold addToShoppingList. rewrite Hfind. apply Forall_app. split; [assumption |].
      constructor; [| constructor]. unfold handMade.
      cbn [name amount source essential priority item in_name in_amount in_source
             in_essential in_priority].
      rewrite !StringProps.trim_idempotent.
      split; [reflexivity |]. split; [assumption |]. split; [| repeat split; now left].
      exists amountText. split; [| assumption].
      unfold jsOr. cbn [truthy].
      destruct (JsString.eqb amountText "") eqn:He; [| reflexivity].
      apply CategoryProps.eqb_true_iff in He. contradiction.
  - unfold toggleShoppingItem.
    destruct (findIndex _ shoppingList) as [i |]; [| assumption].
    destruct (shoppingList !! i) as [it |] eqn:Hl; [| assumption].
    apply Forall_insert; [assumption |].
    exact (Forall_lookup_1 _ _ _ _ Hall Hl).
  - destruct confirmed; [apply Hfilter | assumption].
  - unfold handleClearChecked. destruct (_ =? 0)%nat; [assumption |].
    destruct confirmed; [apply Hfilter | assumption].
  - unfold handleClearAll. destruct (_ =? 0)%nat; [assumption |].
    destruct confirmed; [constructor | assumption].
Qed.

Lemma handle_unique (a : ScreenAction) (shoppingList : Store) :
  NoDup (keyOf <$> shoppingList) -> NoDup (keyOf <$> handle a shoppingList).
Proof.
  intros Hu.
  destruct a as [clk newItemName newItemAmount | itemId | itemId confirmed
                 | confirmed | confirmed]; cbn [handle].
  - unfold handleAddItem. destruct (JsString.eqb (trim newItemName) ""); [assumption |].
    now apply ShoppingListMore.add_keeps_unique.
  - now rewrite ShoppingListMore.toggle_keys.
  - destruct confirmed; [now apply ShoppingListMore.filter_keeps_unique | assumption].
  - unfold handleClearChecked. destruct (_ =? 0)%nat; [assumption |].
    destruct confirmed; [now apply ShoppingListMore.filter_keeps_unique | assumption].
  - unfold handleClearAll. destruct (_ =? 0)%nat; [assumption |].
    destruct confirmed; [constructor | assumption].
Qed.

(** X26. Whatever the user does on the shopping list screen (adds with
    any texts, toggles, removals, clearings, confirmed or not), the list
    has one entry per name and only entries as the screen makes them: a
    trimmed name that is not empty, an amount that is a text and is not
    empty, the origin manual, not essential, and the priority medium or
    none; so no essential entry is ever counted as left. *)
Theorem screen_lists_are_hand_made (roundPercent : Z -> Z -> Z)
    (actions : list ScreenAction) :
  NoDup (keyOf <$> afterActions actions)
  /\ Forall handMade (afterActions actions)
  /\ ShoppingListView.essentialLeft
       (ShoppingListView.getShoppingStats roundPercent (afterActions actions)) = 0.
Proof.
  assert (Hrun : forall shoppingList,
             NoDup (keyOf <$> shoppingList) -> Forall handMade shoppingList ->
             NoDup (keyOf <$> fold_left (fun l a => handle a l) actions shoppingList)
             /\ Forall handMade (fold_left (fun l a => handle a l) actions shoppingList)).
  { induction actions as [| a rest IH]; intros shoppingList Hu Hall; [now split |].
    cbn [fold_left]. apply IH; [now apply handle_unique | now apply handle_handMade]. }
  destruct (Hrun [] ltac:(constructor) ltac:(constructor)) as [Hu Hall].
  split; [exact Hu |]. split; [exact Hall |].
  cbn [ShoppingListView.getShoppingStats ShoppingListView.essentialLeft].
  apply ShoppingListMore.count_none.
  eapply Forall_impl; [exact Hall |].
  intros e [_ [_ [_ [_ [Hess _]]]]]. unfold ShoppingListView.essentialAndOpen.
  now rewrite Hess.
Qed.

(** A run on the screen: two adds of one name, a toggle, an add of a
    blank name. *)
Lemma screen_run_example :
  map (fun e => (name e, amount e, isChecked e, priority e))
    (afterActions [ AddItem monday " Mel " "";
                    AddItem tuesday "mel" "2 kg";
                    ToggleItem (newId monday);
                    AddItem tuesday "   " "1 l" ])
  = [ ("Mel", Some (JStr "1 stk + 2 kg"), true, None) ].
Proof. reflexivity. Qed.

End ShoppingListScreenProps.
